(** * WeldiWin backend: room access control, message pipeline, real-time
      gateway and SOS escalation engine.

    Shallow embedding of
      - src/message/message.service.ts      (MessageService)
      - src/message/gateway/chat.gateway.ts (ChatGateway)
      - src/sos-alert/sos-alert.service.ts  (SosAlertService)
      - the SosAlert schema (SosAlertStatus, call history entries).

    Conventions of the embedding.
      - Mongo ObjectIds are natural numbers; every identifier that reaches
        the services is a well-formed ObjectId (the 24-hex parsing done by
        [new Types.ObjectId(s)] is not modelled).
      - A collection is the list of its documents in natural (insertion)
        order; [findOne] returns the first match.
      - An [async] method is a function from the store to a result and a
        store.  A thrown exception keeps the store reached so far: nothing
        is rolled back, exactly as with the document store.
      - Each request runs to completion before the next one starts.
      - Logger calls and the human readable [message] fields of the
        notifications carry no behaviour and are left out. *)

From Stdlib Require Import List String Arith NArith Bool Lia PeanoNat.
From Stdlib Require Import Sorted Permutation ZArith.
Import ListNotations.
Local Open Scope string_scope.
Local Open Scope nat_scope.

(* ------------------------------------------------------------------ *)
(** ** Identifiers, principals, enumerations                            *)
(* ------------------------------------------------------------------ *)

Definition ObjectId := nat.
Definition SocketId := nat.
(** Timestamps are milliseconds. *)
Definition Date := N.

(** The exceptions the services raise.  [TypeError] is the JavaScript
    failure of reading a property of [null]. *)
Inductive Exception : Type :=
| NotFoundException
| ForbiddenException
| BadRequestException
| TypeError.

Inductive Result (A : Type) : Type :=
| Ok (a : A)
| Throw (e : Exception).
Arguments Ok {A} a.
Arguments Throw {A} e.

(** [currentUser.type]: ['child'] or anything else (a user account). *)
Inductive PrincipalType : Type := TypeChild | TypeUser.

Inductive UserRole : Type := ROLE_ADMIN | ROLE_PARENT.

(** The principal handed over by the authentication layer.  [p_id] is the
    identifier [getUserId] extracts: the first present among [id], [sub]
    and [_id]. *)
Record Principal : Type := {
  p_id : ObjectId;
  p_type : PrincipalType;
  p_role : option UserRole
}.

Definition getUserId (user : Principal) : ObjectId := p_id user.

Definition isChildType (user : Principal) : bool :=
  match p_type user with TypeChild => true | TypeUser => false end.

(** [currentUser.role === UserRole.ADMIN] *)
Definition isAdminRole (user : Principal) : bool :=
  match p_role user with Some ROLE_ADMIN => true | _ => false end.

Inductive SenderModel : Type := User | Child.

Definition SenderModel_eqb (a b : SenderModel) : bool :=
  match a, b with User, User => true | Child, Child => true | _, _ => false end.

Inductive MessageType : Type :=
| TEXT | AUDIO | CALL_OFFER | CALL_ANSWER | ICE_CANDIDATE.

Inductive SosAlertStatus : Type :=
| PENDING
| CALLING_PARENT
| PARENT_ANSWERED
| PARENT_NO_ANSWER
| CALLING_EMERGENCY
| EMERGENCY_CALLED
| RESOLVED
| CANCELLED.

Inductive CallType : Type := CT_PARENT | CT_EMERGENCY.

(** [callSid] is built from a template: [SOS_CALL_<alertId>],
    [SOS_CALL_RETRY_<n>] or the constant [PHONE_DIALER_196]. *)
Inductive CallSid : Type :=
| SOS_CALL (alertId : ObjectId)
| SOS_CALL_RETRY (attempt : nat)
| PHONE_DIALER_196.

(** JavaScript truthiness of a possibly missing string. *)
Definition truthy (s : option string) : bool :=
  match s with
  | Some v => negb (String.eqb v "")
  | None => false
  end.

(** [a || b] on possibly missing strings. *)
Definition js_or (a b : option string) : option string :=
  if truthy a then a else b.

(** [Array.isArray(xs) && xs.some(p => p.equals(x))] *)
Definition someEquals (xs : option (list ObjectId)) (x : ObjectId) : bool :=
  match xs with
  | Some l => existsb (fun p => p =? x) l
  | None => false
  end.

(* ------------------------------------------------------------------ *)
(** ** Documents                                                        *)
(* ------------------------------------------------------------------ *)

Record LastMessage : Type := {
  lm_text : option string;
  lm_senderModel : SenderModel;
  lm_senderId : ObjectId;
  lm_createdAt : Date
}.

Record RoomDocument : Type := {
  r_id : ObjectId;
  r_parent : ObjectId;
  r_child : ObjectId;
  r_invitedParents : option (list ObjectId);
  r_isActive : bool;
  r_lastMessage : option LastMessage
}.

Record AudioMeta : Type := {
  au_url : string;
  au_durationSec : option nat;
  au_mimeType : option string;
  au_sizeBytes : option nat;
  au_cloudinaryPublicId : option string
}.

(** A signaling payload is an object with string valued fields. *)
Definition SignalPayload := list (string * string).

Fixpoint payloadField (payload : SignalPayload) (k : string) : option string :=
  match payload with
  | [] => None
  | (k', v) :: rest => if String.eqb k' k then Some v else payloadField rest k
  end.

Record MessageDocument : Type := {
  m_id : ObjectId;
  m_room : ObjectId;
  m_senderModel : SenderModel;
  m_senderId : ObjectId;
  m_type : MessageType;
  m_text : option string;
  m_audio : option AudioMeta;
  m_signalingPayload : option SignalPayload;
  m_createdAt : Date
}.

Record ChildDocument : Type := {
  c_id : ObjectId;
  c_parent : ObjectId;
  c_linkedParents : option (list ObjectId);
  c_firstName : string;
  c_lastName : string;
  c_location : option string
}.

Record UserDocument : Type := {
  u_id : ObjectId;
  u_role : UserRole;
  u_phoneNumber : option string
}.

Record CallHistoryEntry : Type := {
  ch_callSid : CallSid;
  ch_phoneNumber : string;
  ch_callType : CallType;
  ch_status : string;
  ch_answered : bool;
  ch_timestamp : Date
}.

Record AlertMetadata : Type := {
  md_roomId : ObjectId;
  md_childLocation : option string;
  md_triggeredAt : Date
}.

Record SosAlertDocument : Type := {
  a_id : ObjectId;
  a_child : ObjectId;
  a_parent : ObjectId;
  a_status : SosAlertStatus;
  a_parentCallAttempts : nat;
  a_emergencyCallAttempts : nat;
  a_callHistory : list CallHistoryEntry;
  a_resolvedAt : option Date;
  a_resolvedBy : option ObjectId;
  a_metadata : AlertMetadata
}.

(* ------------------------------------------------------------------ *)
(** ** Real-time transport: requests, events, timers                    *)
(* ------------------------------------------------------------------ *)

(** The body of an inbound [sendText] socket event. *)
Record SendTextBody : Type := {
  b_messageType : option string;
  b_roomId : ObjectId;
  b_text : option string;
  b_content : option string;
  b_senderModel : SenderModel;
  b_senderId : ObjectId
}.

(** Whom an emission reaches: every connected socket ([server.emit]), the
    subscribers of a room ([server.to(room)]), or those subscribers minus
    the emitting socket ([client.to(room)]). *)
Inductive Target : Type :=
| ToAll
| ToRoom (roomId : ObjectId)
| ToRoomExcept (roomId : ObjectId) (sender : SocketId).

Inductive EventName : Type :=
| EvRoom (roomId : ObjectId)            (* `room:${roomId}` *)
| EvSosCall (parentId : ObjectId)       (* `sos-call:${parentId}` *)
| EvSosEmergency (childId : ObjectId)   (* `sos-emergency:${childId}` *)
| EvSosResolved (childId : ObjectId)    (* `sos-resolved:${childId}` *)
| EvPresence
| EvNewMessage
| EvSignal
| EvMessageDeleted.

Inductive Payload : Type :=
| PSosCallOffer (roomId senderId alertId : ObjectId) (childName : string)
                (retry : option nat) (timestamp : Date)
| PSosCall (roomId alertId childId : ObjectId) (childName : string)
           (timestamp : Date)
| PSosEmergency (alertId : ObjectId) (action phoneNumber : string)
                (timestamp : Date)
| PSosResolved (alertId : ObjectId) (timestamp : Date)
| PPresence (userId : SocketId) (state : string) (roomId : ObjectId)
| PMessage (message : MessageDocument)
| PBody (body : SendTextBody)
| PSignal (message : MessageDocument) (signalType : string) (from : ObjectId)
| PMessageDeleted (messageId roomId : ObjectId).

Record Emit : Type := {
  e_target : Target;
  e_event : EventName;
  e_payload : Payload
}.

(** A pending [setTimeout] callback: [checkCallStatus(alertId, roomId)]. *)
Record Timer : Type := {
  t_due : Date;
  t_alertId : ObjectId;
  t_roomId : ObjectId
}.

(** A connected socket; [sock_user] is [client.data.user]. *)
Record Socket : Type := {
  sock_id : SocketId;
  sock_user : option Principal
}.

(* ------------------------------------------------------------------ *)
(** ** The store and the monad of service methods                       *)
(* ------------------------------------------------------------------ *)

Record Store : Type := {
  rooms : list RoomDocument;
  messages : list MessageDocument;
  children : list ChildDocument;
  users : list UserDocument;
  alerts : list SosAlertDocument;
  nextId : ObjectId;                 (* ObjectId generator *)
  clock : Date;                      (* what [new Date()] reads *)
  emitted : list Emit;               (* oldest first *)
  timers : list Timer;               (* pending callbacks, oldest first *)
  joined : list (SocketId * ObjectId); (* socket.io room membership *)
  cloudinaryDeletes : list string    (* deleteFile requests issued *)
}.

Definition with_rooms (v : list RoomDocument) (s : Store) : Store :=
  {| rooms := v; messages := messages s; children := children s;
     users := users s; alerts := alerts s; nextId := nextId s;
     clock := clock s; emitted := emitted s; timers := timers s;
     joined := joined s; cloudinaryDeletes := cloudinaryDeletes s |}.

Definition with_messages (v : list MessageDocument) (s : Store) : Store :=
  {| rooms := rooms s; messages := v; children := children s;
     users := users s; alerts := alerts s; nextId := nextId s;
     clock := clock s; emitted := emitted s; timers := timers s;
     joined := joined s; cloudinaryDeletes := cloudinaryDeletes s |}.

Definition with_alerts (v : list SosAlertDocument) (s : Store) : Store :=
  {| rooms := rooms s; messages := messages s; children := children s;
     users := users s; alerts := v; nextId := nextId s;
     clock := clock s; emitted := emitted s; timers := timers s;
     joined := joined s; cloudinaryDeletes := cloudinaryDeletes s |}.

Definition with_nextId (v : ObjectId) (s : Store) : Store :=
  {| rooms := rooms s; messages := messages s; children := children s;
     users := users s; alerts := alerts s; nextId := v;
     clock := clock s; emitted := emitted s; timers := timers s;
     joined := joined s; cloudinaryDeletes := cloudinaryDeletes s |}.

Definition with_clock (v : Date) (s : Store) : Store :=
  {| rooms := rooms s; messages := messages s; children := children s;
     users := users s; alerts := alerts s; nextId := nextId s;
     clock := v; emitted := emitted s; timers := timers s;
     joined := joined s; cloudinaryDeletes := cloudinaryDeletes s |}.

Definition with_emitted (v : list Emit) (s : Store) : Store :=
  {| rooms := rooms s; messages := messages s; children := children s;
     users := users s; alerts := alerts s; nextId := nextId s;
     clock := clock s; emitted := v; timers := timers s;
     joined := joined s; cloudinaryDeletes := cloudinaryDeletes s |}.

Definition with_timers (v : list Timer) (s : Store) : Store :=
  {| rooms := rooms s; messages := messages s; children := children s;
     users := users s; alerts := alerts s; nextId := nextId s;
     clock := clock s; emitted := emitted s; timers := v;
     joined := joined s; cloudinaryDeletes := cloudinaryDeletes s |}.

Definition with_joined (v : list (SocketId * ObjectId)) (s : Store) : Store :=
  {| rooms := rooms s; messages := messages s; children := children s;
     users := users s; alerts := alerts s; nextId := nextId s;
     clock := clock s; emitted := emitted s; timers := timers s;
     joined := v; cloudinaryDeletes := cloudinaryDeletes s |}.

Definition with_cloudinaryDeletes (v : list string) (s : Store) : Store :=
  {| rooms := rooms s; messages := messages s; children := children s;
     users := users s; alerts := alerts s; nextId := nextId s;
     clock := clock s; emitted := emitted s; timers := timers s;
     joined := joined s; cloudinaryDeletes := v |}.

(** A service method: runs on a store, returns or throws, and leaves a
    store behind in both cases. *)
Definition M (A : Type) : Type := Store -> Result A * Store.

Definition ret {A : Type} (a : A) : M A := fun s => (Ok a, s).

Definition throw {A : Type} (e : Exception) : M A := fun s => (Throw e, s).

Definition bind {A B : Type} (c : M A) (k : A -> M B) : M B :=
  fun s =>
    match c s with
    | (Ok a, s1) => k a s1
    | (Throw e, s1) => (Throw e, s1)
    end.

Definition gets {A : Type} (f : Store -> A) : M A := fun s => (Ok (f s), s).

Definition modify (f : Store -> Store) : M unit := fun s => (Ok tt, f s).

Definition liftResult {A : Type} (r : Result A) : M A := fun s => (r, s).

(** [if (!x) throw e] after a lookup. *)
Definition orThrow {A : Type} (e : Exception) (o : option A) : M A :=
  match o with
  | Some a => ret a
  | None => throw e
  end.

Declare Scope service_scope.
Delimit Scope service_scope with service.
Notation "x <- c ;; k" := (bind c (fun x => k))
  (at level 61, c at next level, right associativity) : service_scope.
Notation "c ;;; k" := (bind c (fun _ => k))
  (at level 61, right associativity) : service_scope.
Local Open Scope service_scope.

(** Generic collection primitives. *)
Fixpoint updateFirst {A : Type} (p : A -> bool) (f : A -> A) (l : list A)
  : list A :=
  match l with
  | [] => []
  | x :: rest => if p x then f x :: rest else x :: updateFirst p f rest
  end.

Fixpoint removeFirst {A : Type} (p : A -> bool) (l : list A) : list A :=
  match l with
  | [] => []
  | x :: rest => if p x then rest else x :: removeFirst p rest
  end.

(** [new Date()] *)
Definition newDate : M Date := gets clock.

(** A fresh ObjectId for a created document. *)
Definition freshId : M ObjectId :=
  fun s => (Ok (nextId s), with_nextId (S (nextId s)) s).

(** One emission through the socket server. *)
Definition emit (t : Target) (ev : EventName) (p : Payload) : M unit :=
  modify (fun s =>
    with_emitted (emitted s ++ [{| e_target := t; e_event := ev;
                                   e_payload := p |}]) s).

(** [setTimeout(() => checkCallStatus(alertId, roomId), delay)] *)
Definition setTimeout (delay : N) (alertId roomId : ObjectId) : M unit :=
  modify (fun s =>
    with_timers (timers s ++ [{| t_due := N.add (clock s) delay;
                                 t_alertId := alertId;
                                 t_roomId := roomId |}]) s).

(* ------------------------------------------------------------------ *)
(** ** MessageService (message.service.ts)                              *)
(* ------------------------------------------------------------------ *)

Module MessageService.

Record SendTextDto : Type := {
  st_roomId : ObjectId;
  st_text : option string;
  st_senderModel : SenderModel;
  st_senderId : ObjectId
}.

Record SendAudioDto : Type := {
  sa_roomId : ObjectId;
  sa_senderModel : SenderModel;
  sa_senderId : ObjectId;
  sa_audio : AudioMeta
}.

Record SendSignalDto : Type := {
  sg_roomId : ObjectId;
  sg_senderModel : SenderModel;
  sg_senderId : ObjectId;
  sg_type : string;
  sg_payload : SignalPayload
}.

(** [room.child], whether populated or not, yields the child's id. *)
Definition getChildId (room : RoomDocument) : ObjectId := r_child room.

Definition findRoomById (roomId : ObjectId) : M (option RoomDocument) :=
  gets (fun s => find (fun r => r_id r =? roomId) (rooms s)).

Definition findMessageById (messageId : ObjectId)
  : M (option MessageDocument) :=
  gets (fun s => find (fun m => m_id m =? messageId) (messages s)).

Definition findChildById (childId : ObjectId) : M (option ChildDocument) :=
  gets (fun s => find (fun c => c_id c =? childId) (children s)).

(** [roomModel.findByIdAndUpdate(id, { $set: { lastMessage } })] and
    [{ $unset: { lastMessage: 1 } }] when [lm] is [None]. *)
Definition withLastMessage (lm : option LastMessage) (r : RoomDocument)
  : RoomDocument :=
  {| r_id := r_id r; r_parent := r_parent r; r_child := r_child r;
     r_invitedParents := r_invitedParents r; r_isActive := r_isActive r;
     r_lastMessage := lm |}.

Definition setLastMessage (roomId : ObjectId) (lm : option LastMessage)
  : M unit :=
  modify (fun s =>
    with_rooms
      (updateFirst (fun r => r_id r =? roomId) (withLastMessage lm) (rooms s))
      s).

(** [messageModel.create(...)]: the document gets a fresh id and its
    creation time, and is appended to the collection. *)
Definition createMessage (room : ObjectId) (senderModel : SenderModel)
    (senderId : ObjectId) (type : MessageType) (text : option string)
    (audio : option AudioMeta) (payload : option SignalPayload)
  : M MessageDocument :=
  id <- freshId ;;
  now <- newDate ;;
  let msg := {| m_id := id; m_room := room; m_senderModel := senderModel;
                m_senderId := senderId; m_type := type; m_text := text;
                m_audio := audio; m_signalingPayload := payload;
                m_createdAt := now |} in
  modify (fun s => with_messages (messages s ++ [msg]) s) ;;;
  ret msg.

(** assertRoomAccess (lines 135-180). *)
Definition assertRoomAccess (room : RoomDocument) (currentUser : Principal)
  : Result unit :=
  if isAdminRole currentUser then Ok tt
  else
    let userId := getUserId currentUser in
    if isChildType currentUser then
      if negb (getChildId room =? userId) then Throw ForbiddenException
      else Ok tt
    else
      let isMainParent := r_parent room =? userId in
      let isInvitedParent := someEquals (r_invitedParents room) userId in
      if negb isMainParent && negb isInvitedParent
      then Throw ForbiddenException
      else Ok tt.

(** isRoomParticipant (lines 186-198). *)
Definition isRoomParticipant (room : RoomDocument) (senderModel : SenderModel)
    (senderId : ObjectId) : bool :=
  match senderModel with
  | Child => getChildId room =? senderId
  | User =>
      let isMainParent := r_parent room =? senderId in
      let isInvitedParent := someEquals (r_invitedParents room) senderId in
      isMainParent || isInvitedParent
  end.

(** validateSender (lines 363-397). *)
Definition validateSender (room : RoomDocument) (senderModel : SenderModel)
    (senderId : ObjectId) : M unit :=
  match senderModel with
  | Child =>
      if negb (getChildId room =? senderId) then throw ForbiddenException
      else ret tt
  | User =>
      let isMainParent := r_parent room =? senderId in
      let isInvitedParent := someEquals (r_invitedParents room) senderId in
      if isMainParent || isInvitedParent then ret tt
      else
        childDoc <- findChildById (getChildId room) ;;
        match childDoc with
        | Some c =>
            if someEquals (c_linkedParents c) senderId then ret tt
            else throw ForbiddenException
        | None => throw ForbiddenException
        end
  end.

(** sendText (lines 472-515). *)
Definition sendText (dto : SendTextDto) (currentUser : Principal)
  : M MessageDocument :=
  found <- findRoomById (st_roomId dto) ;;
  room <- orThrow NotFoundException found ;;
  liftResult (assertRoomAccess room currentUser) ;;;
  validateSender room (st_senderModel dto) (st_senderId dto) ;;;
  msg <- createMessage (r_id room) (st_senderModel dto) (st_senderId dto)
           TEXT (st_text dto) None None ;;
  now <- newDate ;;
  setLastMessage (r_id room)
    (Some {| lm_text := st_text dto;
             lm_senderModel := st_senderModel dto;
             lm_senderId := m_senderId msg;
             lm_createdAt := now |}) ;;;
  ret msg.

(** sendAudio (lines 520-551). *)
Definition sendAudio (dto : SendAudioDto) (currentUser : Principal)
  : M MessageDocument :=
  found <- findRoomById (sa_roomId dto) ;;
  room <- orThrow NotFoundException found ;;
  liftResult (assertRoomAccess room currentUser) ;;;
  validateSender room (sa_senderModel dto) (sa_senderId dto) ;;;
  msg <- createMessage (r_id room) (sa_senderModel dto) (sa_senderId dto)
           AUDIO None (Some (sa_audio dto)) None ;;
  now <- newDate ;;
  setLastMessage (r_id room)
    (Some {| lm_text := Some "[Audio]";
             lm_senderModel := sa_senderModel dto;
             lm_senderId := m_senderId msg;
             lm_createdAt := now |}) ;;;
  ret msg.

(** [MessageType[dto.type]] for the three signal names; anything else is
    not in the accepted list. *)
Definition signalType (t : string) : option MessageType :=
  if String.eqb t "CALL_OFFER" then Some CALL_OFFER
  else if String.eqb t "CALL_ANSWER" then Some CALL_ANSWER
  else if String.eqb t "ICE_CANDIDATE" then Some ICE_CANDIDATE
  else None.

(** The payload check of sendSignal (lines 571-584). *)
Definition payloadValid (type : MessageType) (payload : SignalPayload) : bool :=
  match type with
  | CALL_OFFER | CALL_ANSWER => truthy (payloadField payload "sdp")
  | ICE_CANDIDATE => truthy (payloadField payload "candidate")
  | _ => true
  end.

(** sendSignal (lines 557-620). *)
Definition sendSignal (dto : SendSignalDto) (currentUser : Principal)
  : M MessageDocument :=
  type <- orThrow BadRequestException (signalType (sg_type dto)) ;;
  (if payloadValid type (sg_payload dto) then ret tt
   else throw BadRequestException) ;;;
  found <- findRoomById (sg_roomId dto) ;;
  room <- orThrow NotFoundException found ;;
  (if negb (isRoomParticipant room (sg_senderModel dto) (sg_senderId dto))
   then throw ForbiddenException else ret tt) ;;;
  createMessage (r_id room) (sg_senderModel dto) (sg_senderId dto)
    type None None (Some (sg_payload dto)).

(** [find({ room }).sort({ createdAt: -1 })] then the first document:
    the latest message, the earliest inserted among equals. *)
Fixpoint latestMessage (best : option MessageDocument)
    (l : list MessageDocument) : option MessageDocument :=
  match l with
  | [] => best
  | m :: rest =>
      match best with
      | None => latestMessage (Some m) rest
      | Some b =>
          if N.ltb (m_createdAt b) (m_createdAt m)
          then latestMessage (Some m) rest
          else latestMessage best rest
      end
  end.

(** [cloudinaryService.deleteFile(publicId, 'video')]: a failure of the
    storage is logged and swallowed there, so the call always returns. *)
Definition deleteFile (publicId : string) : M unit :=
  modify (fun s => with_cloudinaryDeletes (cloudinaryDeletes s ++ [publicId]) s).

(** The sender check of deleteMessage (lines 652-657). *)
Definition isSenderModelMatch (currentUser : Principal)
    (message : MessageDocument) : bool :=
  (isChildType currentUser && SenderModel_eqb (m_senderModel message) Child)
  || (negb (isChildType currentUser)
      && SenderModel_eqb (m_senderModel message) User).

(** deleteMessage (lines 626-700). *)
Definition deleteMessage (messageId : ObjectId) (currentUser : Principal)
  : M unit :=
  foundMsg <- findMessageById messageId ;;
  message <- orThrow NotFoundException foundMsg ;;
  foundRoom <- findRoomById (m_room message) ;;
  room <- orThrow NotFoundException foundRoom ;;
  liftResult (assertRoomAccess room currentUser) ;;;
  let userId := getUserId currentUser in
  let isSender := m_senderId message =? userId in
  if negb isSender || negb (isSenderModelMatch currentUser message)
  then throw ForbiddenException
  else
    (match m_type message, m_audio message with
     | AUDIO, Some au =>
         match au_cloudinaryPublicId au with
         | Some pid => if truthy (Some pid) then deleteFile pid else ret tt
         | None => ret tt
         end
     | _, _ => ret tt
     end) ;;;
    modify (fun s =>
      with_messages (removeFirst (fun m => m_id m =? messageId) (messages s)) s) ;;;
    lastMessage <- gets (fun s =>
      latestMessage None
        (filter (fun m => m_room m =? m_room message) (messages s))) ;;
    match lastMessage with
    | Some lm =>
        setLastMessage (m_room message)
          (Some {| lm_text := js_or (m_text lm) (Some "[Audio]");
                   lm_senderModel := m_senderModel lm;
                   lm_senderId := m_senderId lm;
                   lm_createdAt := m_createdAt lm |})
    | None => setLastMessage (m_room message) None
    end.

(* ---- Room lifecycle and listings ---------------------------------- *)

(** A thrown value that is not an HTTP exception: [new Error(message)]. *)
Inductive Failure : Type :=
| Http (e : Exception)
| PlainError (message : string).

Inductive Outcome (A : Type) : Type :=
| Returned (a : A)
| Failed (f : Failure).
Arguments Returned {A} a.
Arguments Failed {A} f.

Definition withIsActive (b : bool) (r : RoomDocument) : RoomDocument :=
  {| r_id := r_id r; r_parent := r_parent r; r_child := r_child r;
     r_invitedParents := r_invitedParents r; r_isActive := b;
     r_lastMessage := r_lastMessage r |}.

Definition withInvitedParents (l : option (list ObjectId)) (r : RoomDocument)
  : RoomDocument :=
  {| r_id := r_id r; r_parent := r_parent r; r_child := r_child r;
     r_invitedParents := l; r_isActive := r_isActive r;
     r_lastMessage := r_lastMessage r |}.

Definition findUserById (userId : ObjectId) : M (option UserDocument) :=
  gets (fun s => find (fun u => u_id u =? userId) (users s)).

(** [child.parent?.equals(p) ||
     (Array.isArray(child.linkedParents) && child.linkedParents.some(...))] *)
Definition isLinked (child : ChildDocument) (parentId : ObjectId) : bool :=
  (c_parent child =? parentId) || someEquals (c_linkedParents child) parentId.

(** [roomModel.findOne({ parent, child })] *)
Definition findRoomOfPair (parentId childId : ObjectId) (s : Store)
  : option RoomDocument :=
  find (fun r => (r_parent r =? parentId) && (r_child r =? childId)) (rooms s).

(** The document [roomModel.create({ parent, child, isActive: true })]
    stores: array paths default to the empty array, the projection is
    absent. *)
Definition newRoom (id parentId childId : ObjectId) : RoomDocument :=
  {| r_id := id; r_parent := parentId; r_child := childId;
     r_invitedParents := Some []; r_isActive := true;
     r_lastMessage := None |}.

(** getOrCreateRoom (lines 79-130). *)
Definition getOrCreateRoom (parentId childId : ObjectId)
  : Store -> Outcome RoomDocument * Store :=
  fun s =>
    match find (fun c => c_id c =? childId) (children s) with
    | None => (Failed (Http NotFoundException), s)
    | Some child =>
        if negb (isLinked child parentId)
        then (Failed (Http ForbiddenException), s)
        else
          match findRoomOfPair parentId childId s with
          | None =>
              let s1 :=
                with_rooms (rooms s ++ [newRoom (nextId s) parentId childId])
                  (with_nextId (S (nextId s)) s) in
              match findRoomOfPair parentId childId s1 with
              | Some room => (Returned room, s1)
              | None => (Failed (PlainError "Failed to create room"), s1)
              end
          | Some room =>
              if negb (r_isActive room) then
                let s1 :=
                  with_rooms
                    (updateFirst (fun r => r_id r =? r_id room)
                       (withIsActive true) (rooms s)) s in
                match find (fun r => r_id r =? r_id room) (rooms s1) with
                | Some room' => (Returned room', s1)
                | None => (Failed (PlainError "Failed to refetch room"), s1)
                end
              else (Returned room, s)
          end
    end.

(** getRoomForChild (lines 227-253). *)
Definition getRoomForChild (childId : ObjectId) (currentUser : Principal)
  : Store -> Outcome RoomDocument * Store :=
  fun s =>
    if negb (isChildType currentUser)
    then (Failed (Http ForbiddenException), s)
    else if negb (getUserId currentUser =? childId)
    then (Failed (Http ForbiddenException), s)
    else
      match find (fun c => c_id c =? childId) (children s) with
      | None => (Failed (Http NotFoundException), s)
      | Some child =>
          match find (fun r => (r_child r =? childId) && r_isActive r)
                  (rooms s) with
          | Some room => (Returned room, s)
          | None => getOrCreateRoom (c_parent child) childId s
          end
      end.

(** getRoomById (lines 258-269). *)
Definition getRoomById (roomId : ObjectId) (currentUser : Principal)
  : M RoomDocument :=
  found <- findRoomById roomId ;;
  room <- orThrow NotFoundException found ;;
  liftResult (assertRoomAccess room currentUser) ;;;
  ret room.

(** [$addToSet: { invitedParents: id }] *)
Definition addToSet (id : ObjectId) (l : option (list ObjectId))
  : option (list ObjectId) :=
  match l with
  | None => Some [id]
  | Some xs => if existsb (fun p => p =? id) xs then Some xs
               else Some (xs ++ [id])%list
  end.

(** [$pull: { invitedParents: id }] *)
Definition pull (id : ObjectId) (l : option (list ObjectId))
  : option (list ObjectId) :=
  match l with
  | None => None
  | Some xs => Some (filter (fun p => negb (p =? id)) xs)
  end.

Definition updateRoom (roomId : ObjectId) (f : RoomDocument -> RoomDocument)
  : M unit :=
  modify (fun s =>
    with_rooms (updateFirst (fun r => r_id r =? roomId) f (rooms s)) s).

(** [invitedParent.role !== UserRole.PARENT] *)
Definition isParentRole (u : UserDocument) : bool :=
  match u_role u with ROLE_PARENT => true | ROLE_ADMIN => false end.

(** inviteParent (lines 275-321). *)
Definition inviteParent (roomId invitedParentId : ObjectId)
    (currentUser : Principal) : M RoomDocument :=
  found <- findRoomById roomId ;;
  room <- orThrow NotFoundException found ;;
  let userId := getUserId currentUser in
  if negb (r_parent room =? userId) then throw ForbiddenException
  else
    foundUser <- findUserById invitedParentId ;;
    invitedParent <- orThrow NotFoundException foundUser ;;
    if negb (isParentRole invitedParent) then throw ForbiddenException
    else if r_parent room =? invitedParentId then throw ForbiddenException
    else if someEquals (r_invitedParents room) invitedParentId
    then throw ForbiddenException
    else
      updateRoom roomId
        (fun r => withInvitedParents
                    (addToSet invitedParentId (r_invitedParents r)) r) ;;;
      updated <- findRoomById roomId ;;
      orThrow NotFoundException updated.

(** removeInvitedParent (lines 327-357). *)
Definition removeInvitedParent (roomId invitedParentId : ObjectId)
    (currentUser : Principal) : M RoomDocument :=
  found <- findRoomById roomId ;;
  room <- orThrow NotFoundException found ;;
  let userId := getUserId currentUser in
  if negb (r_parent room =? userId) then throw ForbiddenException
  else
    updateRoom roomId
      (fun r => withInvitedParents
                  (pull invitedParentId (r_invitedParents r)) r) ;;;
    updated <- findRoomById roomId ;;
    orThrow NotFoundException updated.

(** A stable sort: [before y x] says that [y] must come ahead of [x];
    documents that compare equal keep their natural order. *)
Fixpoint insertSorted {A : Type} (before : A -> A -> bool) (x : A)
    (l : list A) : list A :=
  match l with
  | [] => [x]
  | y :: rest =>
      if before y x then y :: insertSorted before x rest
      else x :: y :: rest
  end.

Definition sortBy {A : Type} (before : A -> A -> bool) (l : list A) : list A :=
  fold_right (insertSorted before) [] l.

(** [.limit(n)]: zero means no limit. *)
Definition applyLimit {A : Type} (n : nat) (l : list A) : list A :=
  if n =? 0 then l else firstn n l.

(** [.sort({ 'lastMessage.createdAt': -1 })]: rooms without a projection
    sort as null, after every dated room. *)
Definition laterProjection (y x : RoomDocument) : bool :=
  match r_lastMessage y, r_lastMessage x with
  | Some ly, Some lx => N.ltb (lm_createdAt lx) (lm_createdAt ly)
  | Some _, None => true
  | None, _ => false
  end.

(** listRoomsForParent (lines 204-222). *)
Definition listRoomsForParent (parentId : ObjectId) (currentUser : Principal)
  : M (list RoomDocument) :=
  let userId := getUserId currentUser in
  if negb (isAdminRole currentUser) && negb (userId =? parentId)
  then throw ForbiddenException
  else
    gets (fun s =>
      sortBy laterProjection
        (filter (fun r => ((r_parent r =? parentId) && r_isActive r)
                          || (someEquals (r_invitedParents r) parentId
                              && r_isActive r))
           (rooms s))).

(** getMessageById (lines 402-404). *)
Definition getMessageById (messageId : ObjectId) : M (option MessageDocument) :=
  findMessageById messageId.

(** [.sort({ _id: -1 })] *)
Definition greaterId (y x : MessageDocument) : bool := m_id x <? m_id y.

(** [.sort({ createdAt: -1 })] *)
Definition laterCreated (y x : MessageDocument) : bool :=
  N.ltb (m_createdAt x) (m_createdAt y).

(** The query of listMessages: [{ room, _id: { $lt: beforeId } }], the
    bound only when [beforeId] is given. *)
Definition inPage (roomId : ObjectId) (beforeId : option ObjectId)
    (m : MessageDocument) : bool :=
  (m_room m =? roomId)
  && match beforeId with
     | Some b => m_id m <? b
     | None => true
     end.

(** listMessages (lines 409-421); [limit] defaults to 50. *)
Definition listMessages (roomId : ObjectId) (currentUser : Principal)
    (limit : option nat) (beforeId : option ObjectId)
  : M (list MessageDocument) :=
  let limit := match limit with Some n => n | None => 50 end in
  found <- findRoomById roomId ;;
  room <- orThrow NotFoundException found ;;
  liftResult (assertRoomAccess room currentUser) ;;;
  gets (fun s =>
    applyLimit limit
      (sortBy greaterId (filter (inPage roomId beforeId) (messages s)))).

Inductive SenderFilter : Type :=
| SenderParent | SenderChildOnly | SenderMe | SenderAll.

Definition isAudio (m : MessageDocument) : bool :=
  match m_type m with AUDIO => true | _ => false end.

(** The query built by listAudioMessages (lines 437-456). *)
Definition audioQuery (room : RoomDocument) (currentUser : Principal)
    (sender : option SenderFilter) (m : MessageDocument) : bool :=
  (m_room m =? r_id room) && isAudio m
  && match sender with
     | Some SenderParent => SenderModel_eqb (m_senderModel m) User
     | Some SenderChildOnly => SenderModel_eqb (m_senderModel m) Child
     | Some SenderMe =>
         SenderModel_eqb (m_senderModel m)
           (if isChildType currentUser then Child else User)
         && (m_senderId m =? getUserId currentUser)
     | Some SenderAll => true
     | None => true
     end.

(** listAudioMessages (lines 426-462). *)
Definition listAudioMessages (roomId : ObjectId) (currentUser : Principal)
    (sender : option SenderFilter) : M (list MessageDocument) :=
  found <- findRoomById roomId ;;
  room <- orThrow NotFoundException found ;;
  liftResult (assertRoomAccess room currentUser) ;;;
  gets (fun s =>
    sortBy laterCreated
      (filter (audioQuery room currentUser sender) (messages s))).

End MessageService.

(* ------------------------------------------------------------------ *)
(** ** ChatGateway (gateway/chat.gateway.ts)                            *)
(* ------------------------------------------------------------------ *)

Module ChatGateway.

(** What the handshake carried: no token, a token [jwtService.verify]
    rejects, or a token it accepts with its payload. *)
Inductive Handshake : Type :=
| NoToken
| InvalidToken
| ValidToken (payload : Principal).

(** The acknowledgement a handler returns to the calling socket. *)
Inductive Ack : Type :=
| ErrRoomIdRequired                     (* { error: 'roomId is required' } *)
| ErrUnauthorized                       (* { error: 'Unauthorized' } *)
| ErrException (e : Exception)          (* { error: error.message } *)
| OkRoom (roomId : ObjectId)            (* { ok: true, roomId } *)
| OkWebrtcSignal                        (* { ok: true, type: 'webrtc_signal' } *)
| AckMessage (msg : MessageDocument)    (* msg *)
| OkMessage (msg : MessageDocument).    (* { ok: true, message } *)

Definition Handler : Type := Store -> Ack * Store.

Record JoinRoomData : Type := {
  j_roomId : option ObjectId;
  j_room : option ObjectId
}.

Record SignalBody : Type := {
  s_roomId : ObjectId;
  s_senderModel : SenderModel;
  s_senderId : ObjectId;
  s_type : string;
  s_payload : SignalPayload
}.

(** handleConnection (lines 35-65): the socket stays connected in every
    branch; only a verified token fills [client.data.user]. *)
Definition handleConnection (client : Socket) (h : Handshake) : Socket :=
  match h with
  | ValidToken payload =>
      {| sock_id := sock_id client; sock_user := Some payload |}
  | InvalidToken => client
  | NoToken => client
  end.

Definition isMember (sock : SocketId) (roomId : ObjectId) (s : Store) : bool :=
  existsb (fun e => (fst e =? sock) && (snd e =? roomId)) (joined s).

(** [client.join(`room:${roomId}`)] *)
Definition join (client : Socket) (roomId : ObjectId) : M unit :=
  modify (fun s =>
    if isMember (sock_id client) roomId s then s
    else with_joined (joined s ++ [(sock_id client, roomId)]) s).

(** [client.leave(`room:${roomId}`)] *)
Definition leave (client : Socket) (roomId : ObjectId) : M unit :=
  modify (fun s =>
    with_joined
      (filter (fun e => negb ((fst e =? sock_id client) && (snd e =? roomId)))
         (joined s)) s).

(** [try { ... } catch (error) { return { error: error.message } }] *)
Definition tryCatch (body : M Ack) : Handler :=
  fun s =>
    match body s with
    | (Ok a, s1) => (a, s1)
    | (Throw e, s1) => (ErrException e, s1)
    end.

(** onJoinRoom (lines 78-117). *)
Definition onJoinRoom (client : Socket) (data : JoinRoomData) : Handler :=
  fun s =>
    match (match j_roomId data with Some r => Some r | None => j_room data end) with
    | None => (ErrRoomIdRequired, s)
    | Some roomId =>
        match sock_user client with
        | None => (ErrUnauthorized, s)
        | Some _ =>
            tryCatch
              (join client roomId ;;;
               emit (ToRoom roomId) EvPresence
                 (PPresence (sock_id client) "joined" roomId) ;;;
               ret (OkRoom roomId)) s
        end
    end.

(** onLeaveRoom (lines 122-147). *)
Definition onLeaveRoom (client : Socket) (roomId : ObjectId) : Handler :=
  tryCatch
    (leave client roomId ;;;
     emit (ToRoom roomId) EvPresence
       (PPresence (sock_id client) "left" roomId) ;;;
     ret (OkRoom roomId)).

(** [body.messageType === 'webrtc_signal'] *)
Definition isWebrtcSignal (body : SendTextBody) : bool :=
  match b_messageType body with
  | Some t => String.eqb t "webrtc_signal"
  | None => false
  end.

(** onSendText (lines 153-217). *)
Definition onSendText (client : Socket) (body : SendTextBody) : Handler :=
  fun s =>
    match sock_user client with
    | None => (ErrUnauthorized, s)
    | Some user =>
        tryCatch
          (if isWebrtcSignal body then
             emit (ToRoomExcept (b_roomId body) (sock_id client))
               EvNewMessage (PBody body) ;;;
             ret OkWebrtcSignal
           else
             let messagePayload :=
               {| MessageService.st_roomId := b_roomId body;
                  MessageService.st_text := js_or (b_text body) (b_content body);
                  MessageService.st_senderModel := b_senderModel body;
                  MessageService.st_senderId := b_senderId body |} in
             msg <- MessageService.sendText messagePayload user ;;
             emit (ToRoom (b_roomId body)) EvNewMessage (PMessage msg) ;;;
             ret (AckMessage msg)) s
    end.

(** onSignal (lines 222-294). *)
Definition onSignal (client : Socket) (body : SignalBody) : Handler :=
  fun s =>
    match sock_user client with
    | None => (ErrUnauthorized, s)
    | Some user =>
        tryCatch
          (message <- MessageService.sendSignal
                        {| MessageService.sg_roomId := s_roomId body;
                           MessageService.sg_senderModel := s_senderModel body;
                           MessageService.sg_senderId := s_senderId body;
                           MessageService.sg_type := s_type body;
                           MessageService.sg_payload := s_payload body |}
                        user ;;
           emit (ToRoomExcept (s_roomId body) (sock_id client)) EvSignal
             (PSignal message (s_type body) (s_senderId body)) ;;;
           ret (OkMessage message)) s
    end.

(** broadcastMessage (lines 300-308). *)
Definition broadcastMessage (roomId : ObjectId) (message : MessageDocument)
  : M unit :=
  emit (ToRoom roomId) EvNewMessage (PMessage message).

(** broadcastMessageDeleted (lines 314-325). *)
Definition broadcastMessageDeleted (roomId messageId : ObjectId) : M unit :=
  emit (ToRoom roomId) EvMessageDeleted (PMessageDeleted messageId roomId).

(** The sockets an emission is delivered to, among those connected. *)
Definition recipients (s : Store) (connected : list SocketId) (t : Target)
  : list SocketId :=
  match t with
  | ToAll => connected
  | ToRoom r => filter (fun k => isMember k r s) connected
  | ToRoomExcept r sender =>
      filter (fun k => isMember k r s && negb (k =? sender)) connected
  end.

End ChatGateway.

(* ------------------------------------------------------------------ *)
(** ** SosAlertService (sos-alert.service.ts)                           *)
(* ------------------------------------------------------------------ *)

Module SosAlertService.

Definition MAX_PARENT_CALL_ATTEMPTS : nat := 2.
Definition EMERGENCY_NUMBER : string := "196".
Definition CHECK_DELAY : N := 30000%N.

Record TriggerResult : Type := {
  tr_alert : SosAlertDocument;
  tr_roomId : ObjectId;
  tr_action : string
}.

(** [status: { $in: [PENDING, CALLING_PARENT, CALLING_EMERGENCY] }] *)
Definition isActiveStatus (st : SosAlertStatus) : bool :=
  match st with
  | PENDING | CALLING_PARENT | CALLING_EMERGENCY => true
  | _ => false
  end.

Definition findAlertById (alertId : ObjectId) : M (option SosAlertDocument) :=
  gets (fun s => find (fun a => a_id a =? alertId) (alerts s)).

Definition findChildById (childId : ObjectId) : M (option ChildDocument) :=
  gets (fun s => find (fun c => c_id c =? childId) (children s)).

Definition findUserById (userId : ObjectId) : M (option UserDocument) :=
  gets (fun s => find (fun u => u_id u =? userId) (users s)).

(** [sosAlertModel.findOne({ child, status: { $in: [...] } })] *)
Definition findActiveAlert (childId : ObjectId) : M (option SosAlertDocument) :=
  gets (fun s =>
    find (fun a => (a_child a =? childId) && isActiveStatus (a_status a))
      (alerts s)).

(** [roomModel.findOne({ parent, child, isActive: true })] *)
Definition findActiveRoom (parentId childId : ObjectId)
  : M (option RoomDocument) :=
  gets (fun s =>
    find (fun r => (r_parent r =? parentId) && (r_child r =? childId)
                   && r_isActive r)
      (rooms s)).

(** [sosAlertModel.findByIdAndUpdate(alertId, update)] *)
Definition updateAlert (alertId : ObjectId)
    (f : SosAlertDocument -> SosAlertDocument) : M unit :=
  modify (fun s =>
    with_alerts (updateFirst (fun a => a_id a =? alertId) f (alerts s)) s).

(** The update documents used by the service, as functions on an alert. *)
Definition setStatus (st : SosAlertStatus) (a : SosAlertDocument)
  : SosAlertDocument :=
  {| a_id := a_id a; a_child := a_child a; a_parent := a_parent a;
     a_status := st;
     a_parentCallAttempts := a_parentCallAttempts a;
     a_emergencyCallAttempts := a_emergencyCallAttempts a;
     a_callHistory := a_callHistory a;
     a_resolvedAt := a_resolvedAt a; a_resolvedBy := a_resolvedBy a;
     a_metadata := a_metadata a |}.

Definition incParentCallAttempts (a : SosAlertDocument) : SosAlertDocument :=
  {| a_id := a_id a; a_child := a_child a; a_parent := a_parent a;
     a_status := a_status a;
     a_parentCallAttempts := a_parentCallAttempts a + 1;
     a_emergencyCallAttempts := a_emergencyCallAttempts a;
     a_callHistory := a_callHistory a;
     a_resolvedAt := a_resolvedAt a; a_resolvedBy := a_resolvedBy a;
     a_metadata := a_metadata a |}.

Definition incEmergencyCallAttempts (a : SosAlertDocument) : SosAlertDocument :=
  {| a_id := a_id a; a_child := a_child a; a_parent := a_parent a;
     a_status := a_status a;
     a_parentCallAttempts := a_parentCallAttempts a;
     a_emergencyCallAttempts := a_emergencyCallAttempts a + 1;
     a_callHistory := a_callHistory a;
     a_resolvedAt := a_resolvedAt a; a_resolvedBy := a_resolvedBy a;
     a_metadata := a_metadata a |}.

Definition setCallHistory (h : list CallHistoryEntry) (a : SosAlertDocument)
  : SosAlertDocument :=
  {| a_id := a_id a; a_child := a_child a; a_parent := a_parent a;
     a_status := a_status a;
     a_parentCallAttempts := a_parentCallAttempts a;
     a_emergencyCallAttempts := a_emergencyCallAttempts a;
     a_callHistory := h;
     a_resolvedAt := a_resolvedAt a; a_resolvedBy := a_resolvedBy a;
     a_metadata := a_metadata a |}.

(** [$push: { callHistory: entry }] *)
Definition pushCallHistory (entry : CallHistoryEntry) (a : SosAlertDocument)
  : SosAlertDocument :=
  setCallHistory (a_callHistory a ++ [entry]) a.

Definition setResolved (at_ : Date) (by_ : ObjectId) (a : SosAlertDocument)
  : SosAlertDocument :=
  {| a_id := a_id a; a_child := a_child a; a_parent := a_parent a;
     a_status := a_status a;
     a_parentCallAttempts := a_parentCallAttempts a;
     a_emergencyCallAttempts := a_emergencyCallAttempts a;
     a_callHistory := a_callHistory a;
     a_resolvedAt := Some at_; a_resolvedBy := Some by_;
     a_metadata := a_metadata a |}.

(** The filter [{ 'elem.callType': 'PARENT', 'elem.answered': false }]. *)
Definition unansweredParentCall (e : CallHistoryEntry) : bool :=
  match ch_callType e with
  | CT_PARENT => negb (ch_answered e)
  | CT_EMERGENCY => false
  end.

(** [$set: { 'callHistory.$[elem].answered': true,
             'callHistory.$[elem].status': 'answered' }]
    on one array element. *)
Definition markAnswered (e : CallHistoryEntry) : CallHistoryEntry :=
  {| ch_callSid := ch_callSid e; ch_phoneNumber := ch_phoneNumber e;
     ch_callType := ch_callType e; ch_status := "answered";
     ch_answered := true; ch_timestamp := ch_timestamp e |}.

(** The filtered positional operator [$[elem]] with [arrayFilters]: the
    update applies to every array element the filter selects. *)
Definition answerFiltered (h : list CallHistoryEntry) : list CallHistoryEntry :=
  map (fun e => if unansweredParentCall e then markAnswered e else e) h.

Definition childName (c : ChildDocument) : string :=
  c_firstName c ++ " " ++ c_lastName c.

(** triggerSos (lines 36-155). *)
Definition triggerSos (childId : ObjectId) (currentUser : Principal)
  : M TriggerResult :=
  if negb (isChildType currentUser) then throw ForbiddenException
  else
    let userId := getUserId currentUser in
    if negb (userId =? childId) then throw ForbiddenException
    else
      foundChild <- findChildById childId ;;
      child <- orThrow NotFoundException foundChild ;;
      let parentId := c_parent child in
      foundParent <- findUserById parentId ;;
      parent <- orThrow NotFoundException foundParent ;;
      foundRoom <- findActiveRoom parentId childId ;;
      room <- orThrow NotFoundException foundRoom ;;
      activeAlert <- findActiveAlert childId ;;
      match activeAlert with
      | Some existing =>
          ret {| tr_alert := existing; tr_roomId := r_id room;
                 tr_action := "CALL_INITIATED" |}
      | None =>
          id <- freshId ;;
          triggeredAt <- newDate ;;
          let sosAlert :=
            {| a_id := id; a_child := childId; a_parent := u_id parent;
               a_status := CALLING_PARENT;
               a_parentCallAttempts := 1;
               a_emergencyCallAttempts := 0;
               a_callHistory := [];
               a_resolvedAt := None; a_resolvedBy := None;
               a_metadata := {| md_roomId := r_id room;
                                md_childLocation := c_location child;
                                md_triggeredAt := triggeredAt |} |} in
          modify (fun s => with_alerts (alerts s ++ [sosAlert]) s) ;;;
          t1 <- newDate ;;
          emit ToAll (EvRoom (r_id room))
            (PSosCallOffer (r_id room) childId id (childName child) None t1) ;;;
          t2 <- newDate ;;
          emit ToAll (EvSosCall (u_id parent))
            (PSosCall (r_id room) id childId (childName child) t2) ;;;
          t3 <- newDate ;;
          updateAlert id
            (pushCallHistory
               {| ch_callSid := SOS_CALL id;
                  ch_phoneNumber :=
                    match js_or (u_phoneNumber parent) (Some "N/A") with
                    | Some v => v
                    | None => "N/A"
                    end;
                  ch_callType := CT_PARENT;
                  ch_status := "initiated";
                  ch_answered := false;
                  ch_timestamp := t3 |}) ;;;
          setTimeout CHECK_DELAY id (r_id room) ;;;
          ret {| tr_alert := sosAlert; tr_roomId := r_id room;
                 tr_action := "CALL_INITIATED" |}
      end.

(** callEmergency (lines 221-270).  The alert is loaded with its child
    populated; a child that no longer exists populates as [null], and
    reading [child._id] then fails after the first update. *)
Definition callEmergency (alertId : ObjectId) : M unit :=
  found <- findAlertById alertId ;;
  match found with
  | None => ret tt
  | Some alert =>
      match a_status alert with
      | RESOLVED | CANCELLED => ret tt
      | _ =>
          updateAlert alertId
            (fun a => incEmergencyCallAttempts (setStatus CALLING_EMERGENCY a)) ;;;
          populated <- findChildById (a_child alert) ;;
          child <- orThrow TypeError populated ;;
          let childId := c_id child in
          t1 <- newDate ;;
          emit ToAll (EvSosEmergency childId)
            (PSosEmergency alertId "OPEN_PHONE_DIALER" EMERGENCY_NUMBER t1) ;;;
          t2 <- newDate ;;
          updateAlert alertId
            (fun a =>
               pushCallHistory
                 {| ch_callSid := PHONE_DIALER_196;
                    ch_phoneNumber := EMERGENCY_NUMBER;
                    ch_callType := CT_EMERGENCY;
                    ch_status := "dialer_opened";
                    ch_answered := false;
                    ch_timestamp := t2 |}
                 (setStatus EMERGENCY_CALLED a))
      end
  end.

(** checkCallStatus (lines 160-216). *)
Definition checkCallStatus (alertId roomId : ObjectId) : M unit :=
  found <- findAlertById alertId ;;
  match found with
  | None => ret tt
  | Some alert =>
      match a_status alert with
      | RESOLVED | CANCELLED | PARENT_ANSWERED => ret tt
      | _ =>
          if a_parentCallAttempts alert <? MAX_PARENT_CALL_ATTEMPTS then
            t1 <- newDate ;;
            updateAlert alertId
              (fun a =>
                 pushCallHistory
                   {| ch_callSid := SOS_CALL_RETRY (a_parentCallAttempts alert + 1);
                      ch_phoneNumber := "N/A";
                      ch_callType := CT_PARENT;
                      ch_status := "retry";
                      ch_answered := false;
                      ch_timestamp := t1 |}
                   (incParentCallAttempts a)) ;;;
            foundChild <- findChildById (a_child alert) ;;
            _ <- findUserById (a_parent alert) ;;
            child <- orThrow TypeError foundChild ;;
            t2 <- newDate ;;
            emit ToAll (EvRoom roomId)
              (PSosCallOffer roomId (a_child alert) alertId (childName child)
                 (Some (a_parentCallAttempts alert + 1)) t2) ;;;
            setTimeout CHECK_DELAY alertId roomId
          else callEmergency alertId
      end
  end.

(** markParentAnswered (lines 275-317).  The alert is loaded with its
    parent populated; reading [parent._id] fails when the parent account
    no longer exists. *)
Definition markParentAnswered (alertId : ObjectId) (currentUser : Principal)
  : M (option SosAlertDocument) :=
  found <- findAlertById alertId ;;
  alert <- orThrow NotFoundException found ;;
  let userId := getUserId currentUser in
  populated <- findUserById (a_parent alert) ;;
  parent <- orThrow TypeError populated ;;
  let parentId := u_id parent in
  if negb (userId =? parentId) then throw ForbiddenException
  else
    now <- newDate ;;
    updateAlert alertId
      (fun a =>
         setCallHistory (answerFiltered (a_callHistory a))
           (setResolved now parentId (setStatus PARENT_ANSWERED a))) ;;;
    child <- findChildById (a_child alert) ;;
    (match child with
     | Some _ =>
         t <- newDate ;;
         emit ToAll (EvSosResolved (a_child alert)) (PSosResolved alertId t)
     | None => ret tt
     end) ;;;
    findAlertById alertId.

(** resolveAlert (lines 396-426). *)
Definition resolveAlert (alertId : ObjectId) (currentUser : Principal)
  : M (option SosAlertDocument) :=
  found <- findAlertById alertId ;;
  alert <- orThrow NotFoundException found ;;
  let userId := getUserId currentUser in
  populated <- findChildById (a_child alert) ;;
  (if isChildType currentUser then
     child <- orThrow TypeError populated ;;
     if negb (c_id child =? userId) then throw ForbiddenException else ret tt
   else if negb (isAdminRole currentUser) then
     child <- orThrow TypeError populated ;;
     if negb (userId =? c_parent child) then
       match c_linkedParents child with
       | None => throw TypeError
       | Some linked =>
           if negb (existsb (fun p => p =? userId) linked)
           then throw ForbiddenException else ret tt
       end
     else ret tt
   else ret tt) ;;;
  now <- newDate ;;
  updateAlert alertId
    (fun a => setResolved now userId (setStatus RESOLVED a)) ;;;
  findAlertById alertId.

(** The event loop running one pending timer callback: the oldest timer,
    once the clock has reached its due time. *)
Definition fireTimer : Store -> option (Result unit * Store) :=
  fun s =>
    match timers s with
    | [] => None
    | t :: rest =>
        if N.leb (t_due t) (clock s)
        then Some (checkCallStatus (t_alertId t) (t_roomId t)
                     (with_timers rest s))
        else None
    end.

(** Time passing with no request served. *)
Definition advance (ms : N) (s : Store) : Store :=
  with_clock (N.add (clock s) ms) s.

(** The access rule shared by getActiveAlert and getAlertHistory
    (lines 332-350 and 366-383). *)
Definition checkViewAccess (childId : ObjectId) (currentUser : Principal)
  : M unit :=
  let userId := getUserId currentUser in
  if isChildType currentUser && negb (userId =? childId)
  then throw ForbiddenException
  else
    found <- findChildById childId ;;
    child <- orThrow NotFoundException found ;;
    if negb (isChildType currentUser) && negb (isAdminRole currentUser) then
      if negb (userId =? c_parent child) then
        match c_linkedParents child with
        | None => throw TypeError
        | Some linked =>
            if negb (existsb (fun p => p =? userId) linked)
            then throw ForbiddenException else ret tt
        end
      else ret tt
    else ret tt.

(** getActiveAlert (lines 331-360).  [createdAt] is stamped when the
    document is inserted and never rewritten, so the order
    [{ createdAt: -1 }] is the reverse of the insertion order.  The
    names populated into the answer are left out. *)
Definition getActiveAlert (childId : ObjectId) (currentUser : Principal)
  : M (option SosAlertDocument) :=
  checkViewAccess childId currentUser ;;;
  gets (fun s =>
    find (fun a => (a_child a =? childId) && isActiveStatus (a_status a))
      (rev (alerts s))).

(** getAlertHistory (lines 365-391). *)
Definition getAlertHistory (childId : ObjectId) (currentUser : Principal)
  : M (list SosAlertDocument) :=
  checkViewAccess childId currentUser ;;;
  gets (fun s =>
    firstn 50 (rev (filter (fun a => a_child a =? childId) (alerts s)))).

(** handleCallStatus (lines 322-326): kept for compatibility, it only
    logs. *)
Definition handleCallStatus (alertId : ObjectId) (callType : CallType)
    (callStatus : string) (callSid : string) (answered : bool) : M unit :=
  ret tt.

(** *** [triggerSos] as the scheduler runs it

    Every [await] is a point where the request is suspended and other
    requests run (the store calls are the suspension points).  The
    split below is at the suspension between the lookup of an active
    alert (line 75) and the creation of the alert (line 90):
    [triggerSosRead] is what the request does up to and including the
    lookup, [triggerSosResume] what it does, with what it has read, once
    it runs again. *)
Record TriggerRead : Type := {
  tg_child : ChildDocument;
  tg_parent : UserDocument;
  tg_room : RoomDocument;
  tg_activeAlert : option SosAlertDocument
}.

(** triggerSos, lines 36-78: the guards and the four reads. *)
Definition triggerSosRead (childId : ObjectId) (currentUser : Principal)
  : M TriggerRead :=
  if negb (isChildType currentUser) then throw ForbiddenException
  else
    let userId := getUserId currentUser in
    if negb (userId =? childId) then throw ForbiddenException
    else
      foundChild <- findChildById childId ;;
      child <- orThrow NotFoundException foundChild ;;
      let parentId := c_parent child in
      foundParent <- findUserById parentId ;;
      parent <- orThrow NotFoundException foundParent ;;
      foundRoom <- findActiveRoom parentId childId ;;
      room <- orThrow NotFoundException foundRoom ;;
      activeAlert <- findActiveAlert childId ;;
      ret {| tg_child := child; tg_parent := parent; tg_room := room;
             tg_activeAlert := activeAlert |}.

(** triggerSos, lines 80-154: the decision on what was read, and the
    creation. *)
Definition triggerSosResume (childId : ObjectId) (rd : TriggerRead)
  : M TriggerResult :=
  let child := tg_child rd in
  let parent := tg_parent rd in
  let room := tg_room rd in
  match tg_activeAlert rd with
  | Some existing =>
      ret {| tr_alert := existing; tr_roomId := r_id room;
             tr_action := "CALL_INITIATED" |}
  | None =>
      id <- freshId ;;
      triggeredAt <- newDate ;;
      let sosAlert :=
        {| a_id := id; a_child := childId; a_parent := u_id parent;
           a_status := CALLING_PARENT;
           a_parentCallAttempts := 1;
           a_emergencyCallAttempts := 0;
           a_callHistory := [];
           a_resolvedAt := None; a_resolvedBy := None;
           a_metadata := {| md_roomId := r_id room;
                            md_childLocation := c_location child;
                            md_triggeredAt := triggeredAt |} |} in
      modify (fun s => with_alerts (alerts s ++ [sosAlert]) s) ;;;
      t1 <- newDate ;;
      emit ToAll (EvRoom (r_id room))
        (PSosCallOffer (r_id room) childId id (childName child) None t1) ;;;
      t2 <- newDate ;;
      emit ToAll (EvSosCall (u_id parent))
        (PSosCall (r_id room) id childId (childName child) t2) ;;;
      t3 <- newDate ;;
      updateAlert id
        (pushCallHistory
           {| ch_callSid := SOS_CALL id;
              ch_phoneNumber :=
                match js_or (u_phoneNumber parent) (Some "N/A") with
                | Some v => v
                | None => "N/A"
                end;
              ch_callType := CT_PARENT;
              ch_status := "initiated";
              ch_answered := false;
              ch_timestamp := t3 |}) ;;;
      setTimeout CHECK_DELAY id (r_id room) ;;;
      ret {| tr_alert := sosAlert; tr_roomId := r_id room;
             tr_action := "CALL_INITIATED" |}
  end.

End SosAlertService.

(* ------------------------------------------------------------------ *)
(** ** Statements in the words of the specification                     *)
(* ------------------------------------------------------------------ *)

(** Membership in a possibly missing id array. *)
Definition memberOf (x : ObjectId) (xs : option (list ObjectId)) : Prop :=
  exists l, xs = Some l /\ In x l.

(** The parent is linked to the child record of the room: the child
    document exists and lists the parent among its linked parents. *)
Definition linkedToRoomChild (s : Store) (room : RoomDocument)
    (senderId : ObjectId) : Prop :=
  exists c, find (fun c => c_id c =? r_child room) (children s) = Some c
            /\ memberOf senderId (c_linkedParents c).

(** The senders the specification lets through [validateSender]. *)
Definition authorizedSender (s : Store) (room : RoomDocument)
    (senderModel : SenderModel) (senderId : ObjectId) : Prop :=
  (senderModel = Child /\ senderId = r_child room)
  \/ (senderModel = User
      /\ (senderId = r_parent room
          \/ memberOf senderId (r_invitedParents room)
          \/ linkedToRoomChild s room senderId)).

(** The caller's (id, actor-type) is the message's (senderId, senderModel). *)
Definition isAuthor (user : Principal) (message : MessageDocument) : Prop :=
  m_senderId message = getUserId user
  /\ ((p_type user = TypeChild /\ m_senderModel message = Child)
      \/ (p_type user = TypeUser /\ m_senderModel message = User)).

(** The emissions made between two stores of one run. *)
Definition newEmits (before after : Store) : list Emit :=
  skipn (List.length (emitted before)) (emitted after).


(** At most one alert of each child is in an active status. *)
Definition atMostOneActive (s : Store) : Prop :=
  forall childId,
    List.length (filter (fun a => (a_child a =? childId)
                             && SosAlertService.isActiveStatus (a_status a))
              (alerts s)) <= 1.

(** Terminal statuses of the specification. *)
Definition isTerminal (st : SosAlertStatus) : bool :=
  match st with
  | RESOLVED | CANCELLED | PARENT_ANSWERED | EMERGENCY_CALLED => true
  | _ => false
  end.

(** Ids handed out so far are below the generator: a created alert never
    collides with a stored one. *)
Definition alertIdsFresh (s : Store) : Prop :=
  Forall (fun a => a_id a < nextId s) (alerts s).




(** The preconditions of [triggerSos] that precede the active-alert
    lookup: the caller is the child, and the child, its parent and their
    active room exist. *)
Definition canTrigger (s : Store) (childId : ObjectId) (user : Principal)
    (child : ChildDocument) (parent : UserDocument) (room : RoomDocument)
  : Prop :=
  p_type user = TypeChild
  /\ getUserId user = childId
  /\ find (fun c => c_id c =? childId) (children s) = Some child
  /\ find (fun u => u_id u =? c_parent child) (users s) = Some parent
  /\ find (fun r => (r_parent r =? c_parent child) && (r_child r =? childId)
                    && r_isActive r) (rooms s) = Some room.

(** Every alert belongs to a child that is on record. *)
Definition alertChildrenOnRecord (s : Store) : Prop :=
  Forall (fun a => exists c,
            find (fun c => c_id c =? a_child a) (children s) = Some c)
    (alerts s).

(** An update of an alert that keeps its child and never makes a
    non-active alert active. *)
Definition benignUpdate (f : SosAlertDocument -> SosAlertDocument) : Prop :=
  forall a,
    a_id (f a) = a_id a
    /\ a_child (f a) = a_child a
    /\ (SosAlertService.isActiveStatus (a_status (f a)) = true ->
        SosAlertService.isActiveStatus (a_status a) = true).

Definition alertsEvolve (s s' : Store) : Prop :=
  children s' = children s
  /\ nextId s' = nextId s
  /\ exists p f, benignUpdate f /\ alerts s' = updateFirst p f (alerts s).

(** What every store of a run of the engine satisfies. *)
Definition engineInvariant (s : Store) : Prop :=
  atMostOneActive s /\ alertChildrenOnRecord s /\ alertIdsFresh s.

(** One request or timer callback of the escalation engine, run to
    completion; time may also pass. *)
Inductive sosStep : Store -> Store -> Prop :=
| step_trigger (childId : ObjectId) (user : Principal) (s : Store) :
    sosStep s (snd (SosAlertService.triggerSos childId user s))
| step_timer (s s' : Store) (r : Result unit) :
    SosAlertService.fireTimer s = Some (r, s') -> sosStep s s'
| step_answered (alertId : ObjectId) (user : Principal) (s : Store) :
    sosStep s (snd (SosAlertService.markParentAnswered alertId user s))
| step_resolve (alertId : ObjectId) (user : Principal) (s : Store) :
    sosStep s (snd (SosAlertService.resolveAlert alertId user s))
| step_advance (ms : N) (s : Store) :
    sosStep s (SosAlertService.advance ms s).

Inductive sosReachable (s0 : Store) : Store -> Prop :=
| reach_start : sosReachable s0 s0
| reach_step (s s' : Store) :
    sosReachable s0 s -> sosStep s s' -> sosReachable s0 s'.

(** The documents [triggerSos] builds when it creates an alert on store
    [s]: the alert as created, and the call-history entry pushed to it. *)
Definition createdAlert (s : Store) (childId : ObjectId)
    (child : ChildDocument) (parent : UserDocument) (room : RoomDocument)
  : SosAlertDocument :=
  {| a_id := nextId s; a_child := childId; a_parent := u_id parent;
     a_status := CALLING_PARENT;
     a_parentCallAttempts := 1;
     a_emergencyCallAttempts := 0;
     a_callHistory := [];
     a_resolvedAt := None; a_resolvedBy := None;
     a_metadata := {| md_roomId := r_id room;
                      md_childLocation := c_location child;
                      md_triggeredAt := clock s |} |}.

Definition initialCall (s : Store) (parent : UserDocument) : CallHistoryEntry :=
  {| ch_callSid := SOS_CALL (nextId s);
     ch_phoneNumber :=
       match js_or (u_phoneNumber parent) (Some "N/A") with
       | Some v => v
       | None => "N/A"
       end;
     ch_callType := CT_PARENT;
     ch_status := "initiated";
     ch_answered := false;
     ch_timestamp := clock s |}.

(** The entries pushed by a retry and by the emergency step at time [t]. *)
Definition retryCall (attempt : nat) (t : Date) : CallHistoryEntry :=
  {| ch_callSid := SOS_CALL_RETRY attempt;
     ch_phoneNumber := "N/A";
     ch_callType := CT_PARENT;
     ch_status := "retry";
     ch_answered := false;
     ch_timestamp := t |}.

Definition emergencyCall (t : Date) : CallHistoryEntry :=
  {| ch_callSid := PHONE_DIALER_196;
     ch_phoneNumber := SosAlertService.EMERGENCY_NUMBER;
     ch_callType := CT_EMERGENCY;
     ch_status := "dialer_opened";
     ch_answered := false;
     ch_timestamp := t |}.

(* ------------------------------------------------------------------ *)
(** ** Runs in which an alert is not answered                           *)
(* ------------------------------------------------------------------ *)

(** Pending timers refer to alerts whose ids were handed out. *)
Definition timerIdsFresh (s : Store) : Prop :=
  Forall (fun t => t_alertId t < nextId s) (timers s).

(** The number of pending re-checks of alert [id]. *)
Definition pendingChecks (id : ObjectId) (s : Store) : nat :=
  List.length (filter (fun t => t_alertId t =? id) (timers s)).

(** One step of the engine that is no re-check of alert [id], no answer
    to it and no resolution of it: a trigger, the timer callback of
    another alert, an answer to or a resolution of another alert, or time
    passing. *)
Inductive otherStep (id : ObjectId) : Store -> Store -> Prop :=
| other_trigger (childId : ObjectId) (user : Principal) (s : Store) :
    otherStep id s (snd (SosAlertService.triggerSos childId user s))
| other_timer (s s' : Store) (r : Result unit) (t : Timer)
    (rest : list Timer) :
    timers s = t :: rest -> t_alertId t <> id ->
    SosAlertService.fireTimer s = Some (r, s') -> otherStep id s s'
| other_answered (alertId : ObjectId) (user : Principal) (s : Store) :
    alertId <> id ->
    otherStep id s (snd (SosAlertService.markParentAnswered alertId user s))
| other_resolve (alertId : ObjectId) (user : Principal) (s : Store) :
    alertId <> id ->
    otherStep id s (snd (SosAlertService.resolveAlert alertId user s))
| other_advance (ms : N) (s : Store) :
    otherStep id s (SosAlertService.advance ms s).

(** A run of the engine in which alert [id] is neither answered nor
    resolved, indexed by the number of re-checks of [id] that fired. *)
Inductive unansweredRun (id : ObjectId) : nat -> Store -> Store -> Prop :=
| unanswered_start (s : Store) : unansweredRun id 0 s s
| unanswered_other (n : nat) (s s1 s2 : Store) :
    unansweredRun id n s s1 -> otherStep id s1 s2 ->
    unansweredRun id n s s2
| unanswered_check (n : nat) (s s1 s2 : Store) (r : Result unit)
    (t : Timer) (rest : list Timer) :
    unansweredRun id n s s1 ->
    timers s1 = t :: rest -> t_alertId t = id ->
    SosAlertService.fireTimer s1 = Some (r, s2) ->
    unansweredRun id (S n) s s2.

(** Where the escalation of alert [id] of child [childId] stands once [n]
    of its re-checks have fired; [first] is the history entry of the
    first call.  There is no third re-check. *)
Definition escalationAfter (n : nat) (id childId : ObjectId)
    (first : CallHistoryEntry) (s : Store) : Prop :=
  exists alert,
    find (fun a => a_id a =? id) (alerts s) = Some alert
    /\ a_child alert = childId
    /\ match n with
       | 0 =>
           a_status alert = CALLING_PARENT
           /\ a_parentCallAttempts alert = 1
           /\ a_emergencyCallAttempts alert = 0
           /\ a_callHistory alert = [first]
           /\ pendingChecks id s = 1
       | 1 =>
           a_status alert = CALLING_PARENT
           /\ a_parentCallAttempts alert = 2
           /\ a_emergencyCallAttempts alert = 0
           /\ (exists t, a_callHistory alert = [first; retryCall 2 t])
           /\ pendingChecks id s = 1
       | 2 =>
           a_status alert = EMERGENCY_CALLED
           /\ a_parentCallAttempts alert = 2
           /\ a_emergencyCallAttempts alert = 1
           /\ (exists t e,
                 a_callHistory alert = [first; retryCall 2 t; e]
                 /\ ch_callType e = CT_EMERGENCY
                 /\ ch_phoneNumber e = "196")
           /\ pendingChecks id s = 0
           /\ (exists t,
                 In {| e_target := ToAll; e_event := EvSosEmergency childId;
                       e_payload :=
                         PSosEmergency id "OPEN_PHONE_DIALER" "196" t |}
                    (emitted s))
       | _ => False
       end.

(** A step that writes to alert [alertId] only: the other alerts are as
    before, at most one re-check of [alertId], which exists, is added to
    the pending timers, and emissions are only added. *)
Definition touchesOnly (alertId : ObjectId) (s s' : Store) : Prop :=
  children s' = children s
  /\ nextId s' = nextId s
  /\ (forall id, id <> alertId ->
        find (fun a => a_id a =? id) (alerts s')
        = find (fun a => a_id a =? id) (alerts s))
  /\ (timers s' = timers s
      \/ exists t alert,
           timers s' = (timers s ++ [t])%list /\ t_alertId t = alertId
           /\ find (fun a => a_id a =? alertId) (alerts s) = Some alert)
  /\ (exists more, emitted s' = (emitted s ++ more)%list).

(* ------------------------------------------------------------------ *)
(** ** Well-formedness of the collections                               *)
(* ------------------------------------------------------------------ *)

(** Room ids are distinct and were all handed out by the generator. *)
Definition roomIdsUnique (s : Store) : Prop := NoDup (map r_id (rooms s)).

Definition roomIdsFresh (s : Store) : Prop :=
  Forall (fun r => r_id r < nextId s) (rooms s).

(** At most one room, active or not, for each (parent, child) pair. *)
Definition oneRoomPerPair (s : Store) : Prop :=
  forall parentId childId,
    List.length (filter (fun r => (r_parent r =? parentId)
                                  && (r_child r =? childId)) (rooms s)) <= 1.

Definition roomsWellFormed (s : Store) : Prop :=
  roomIdsUnique s /\ roomIdsFresh s /\ oneRoomPerPair s.

(** Message ids are distinct and below the generator. *)
Definition messageIdsFresh (s : Store) : Prop :=
  Forall (fun m => m_id m < nextId s) (messages s).

Definition messageIdsUnique (s : Store) : Prop :=
  NoDup (map m_id (messages s)).

(** The invited list of a room has no repetition and does not contain the
    room's main parent. *)
Definition invitedWellFormed (r : RoomDocument) : Prop :=
  match r_invitedParents r with
  | Some l => NoDup l /\ ~ In (r_parent r) l
  | None => True
  end.

(** Strictly descending ids. *)
Definition idsDescending (l : list MessageDocument) : Prop :=
  StronglySorted (fun a b => m_id b < m_id a) l.

(** The invited list seen as a list. *)
Definition invitedList (r : RoomDocument) : list ObjectId :=
  match r_invitedParents r with Some l => l | None => [] end.

(** The conditions under which [inviteParent] goes through. *)
Definition mayInvite (s : Store) (room : RoomDocument) (user : Principal)
    (invitedParentId : ObjectId) : Prop :=
  getUserId user = r_parent room
  /\ (exists u, find (fun u => u_id u =? invitedParentId) (users s) = Some u
                /\ u_role u = ROLE_PARENT)
  /\ invitedParentId <> r_parent room
  /\ ~ memberOf invitedParentId (r_invitedParents room).

(** The author and sender facts behind a [sendText] that goes through. *)
Definition textDto (roomId : ObjectId) (senderModel : SenderModel)
    (senderId : ObjectId) (text : option string)
  : MessageService.SendTextDto :=
  {| MessageService.st_roomId := roomId;
     MessageService.st_text := text;
     MessageService.st_senderModel := senderModel;
     MessageService.st_senderId := senderId |}.

(** The time by which [listRoomsForParent] orders a room: that of its
    projection, a room never written to counting as older than any. *)
Definition projectionRank (r : RoomDocument) : N :=
  match r_lastMessage r with
  | Some lm => N.succ (lm_createdAt lm)
  | None => 0%N
  end.

(** Newest first for a rank. *)
Definition rankDescending {A : Type} (rank : A -> N) (l : list A) : Prop :=
  StronglySorted (fun a b => (rank b <= rank a)%N) l.

(** The media files [deleteMessage] asks the storage to delete for a
    message: the public id of an AUDIO message, when it has one. *)
Definition mediaToDelete (message : MessageDocument) : list string :=
  match m_type message, m_audio message with
  | AUDIO, Some au =>
      match au_cloudinaryPublicId au with
      | Some pid => if truthy (Some pid) then [pid] else []
      | None => []
      end
  | _, _ => []
  end.

(** The projection [deleteMessage] writes for the latest remaining
    message. *)
Definition projectionOf (m : MessageDocument) : LastMessage :=
  {| lm_text := js_or (m_text m) (Some "[Audio]");
     lm_senderModel := m_senderModel m;
     lm_senderId := m_senderId m;
     lm_createdAt := m_createdAt m |}.

(** The three signals the service accepts: the name in the request, the
    message type stored for it, and the payload field it must carry. *)
Inductive acceptedSignal : string -> MessageType -> string -> Prop :=
| signal_offer : acceptedSignal "CALL_OFFER" CALL_OFFER "sdp"
| signal_answer : acceptedSignal "CALL_ANSWER" CALL_ANSWER "sdp"
| signal_candidate : acceptedSignal "ICE_CANDIDATE" ICE_CANDIDATE "candidate".

(** A request names an accepted signal and carries its field, not
    empty. *)
Definition wellFormedSignal (name : string) (type : MessageType)
    (payload : SignalPayload) : Prop :=
  exists field value,
    acceptedSignal name type field
    /\ payloadField payload field = Some value
    /\ value <> "".

(** The sender named in a request is the room's child, its main parent
    or one of its invited parents. *)
Definition namedParticipant (room : RoomDocument) (senderModel : SenderModel)
    (senderId : ObjectId) : Prop :=
  (senderModel = Child /\ senderId = r_child room)
  \/ (senderModel = User
      /\ (senderId = r_parent room
          \/ memberOf senderId (r_invitedParents room))).

Definition signalDto (roomId : ObjectId) (senderModel : SenderModel)
    (senderId : ObjectId) (type : string) (payload : SignalPayload)
  : MessageService.SendSignalDto :=
  {| MessageService.sg_roomId := roomId;
     MessageService.sg_senderModel := senderModel;
     MessageService.sg_senderId := senderId;
     MessageService.sg_type := type;
     MessageService.sg_payload := payload |}.

(** Who may read the alerts of a child: the child itself, an
    administrator, the child's parent or one of its linked parents. *)
Definition mayView (s : Store) (childId : ObjectId) (user : Principal) : Prop :=
  exists child,
    find (fun c => c_id c =? childId) (children s) = Some child
    /\ ((p_type user = TypeChild /\ getUserId user = childId)
        \/ (p_type user = TypeUser
            /\ (isAdminRole user = true
                \/ getUserId user = c_parent child
                \/ memberOf (getUserId user) (c_linkedParents child)))).

(** Who may resolve an alert. *)
Definition mayResolve (s : Store) (alert : SosAlertDocument)
    (user : Principal) : Prop :=
  (p_type user = TypeChild
   /\ getUserId user = a_child alert
   /\ exists child,
        find (fun c => c_id c =? a_child alert) (children s) = Some child)
  \/ (p_type user = TypeUser /\ isAdminRole user = true)
  \/ (p_type user = TypeUser /\ isAdminRole user = false
      /\ exists child,
           find (fun c => c_id c =? a_child alert) (children s) = Some child
           /\ (getUserId user = c_parent child
               \/ memberOf (getUserId user) (c_linkedParents child))).

(** A call-history entry of a call to the parent. *)
Definition isParentCall (e : CallHistoryEntry) : bool :=
  match ch_callType e with
  | CT_PARENT => true
  | CT_EMERGENCY => false
  end.

Definition parentCallsLogged (a : SosAlertDocument) : nat :=
  List.length (filter isParentCall (a_callHistory a)).

(** No alert has rung the parent more often than the maximum. *)
Definition attemptsWithinLimit (s : Store) : Prop :=
  Forall (fun a => a_parentCallAttempts a
                   <= SosAlertService.MAX_PARENT_CALL_ATTEMPTS) (alerts s).

(** The attempt counter of every alert equals the number of PARENT
    entries of its call history. *)
Definition attemptsLogged (s : Store) : Prop :=
  Forall (fun a => parentCallsLogged a = a_parentCallAttempts a) (alerts s).

(* ------------------------------------------------------------------ *)
(** ** TodoService (src/src/todo/todo.service.ts)                       *)
(* ------------------------------------------------------------------ *)

Module TodoService.

(** One task of a list (schemas/todo.schema.ts). *)
Record Task : Type := {
  tk_title : string;
  tk_description : string;
  tk_isCompleted : bool;
  tk_completedAt : option Date
}.

Record TodoDocument : Type := {
  td_id : ObjectId;
  td_title : string;
  td_description : string;
  td_child : ObjectId;
  td_createdBy : ObjectId;
  td_tasks : list Task
}.

(** The todo collection beside the collections of the other services. *)
Record TodoStore : Type := {
  todos : list TodoDocument;
  db : Store
}.

Definition with_todos (l : list TodoDocument) (s : TodoStore) : TodoStore :=
  {| todos := l; db := db s |}.

Definition withTasks (tasks : list Task) (t : TodoDocument) : TodoDocument :=
  {| td_id := td_id t; td_title := td_title t;
     td_description := td_description t; td_child := td_child t;
     td_createdBy := td_createdBy t; td_tasks := tasks |}.

(** [todoModel.findById(id)] *)
Definition findTodoById (id : ObjectId) (s : TodoStore)
  : option TodoDocument :=
  find (fun t => td_id t =? id) (todos s).

(** checkModifyPermission (lines 268-291).  [child.linkedParents.map]
    is evaluated before either test and fails on a child document
    without the array. *)
Definition checkModifyPermission (todo : TodoDocument)
    (currentUser : Principal) (s : TodoStore) : Result unit :=
  if isAdminRole currentUser then Ok tt
  else
    match find (fun c => c_id c =? td_child todo) (children (db s)) with
    | None => Throw NotFoundException
    | Some child =>
        match c_linkedParents child with
        | None => Throw TypeError
        | Some linked =>
            let isCreator := td_createdBy todo =? p_id currentUser in
            let isParent :=
              (c_parent child =? p_id currentUser)
              || existsb (fun p => p =? p_id currentUser) linked in
            if negb isCreator && negb isParent
            then Throw ForbiddenException
            else Ok tt
        end
    end.

(** remove (lines 175-189). *)
Definition remove (id : ObjectId) (currentUser : Principal)
    (s : TodoStore) : Result unit * TodoStore :=
  match p_type currentUser with
  | TypeChild => (Throw ForbiddenException, s)
  | TypeUser =>
      match findTodoById id s with
      | None => (Throw NotFoundException, s)
      | Some todo =>
          match checkModifyPermission todo currentUser s with
          | Throw e => (Throw e, s)
          | Ok _ =>
              (Ok tt,
               with_todos (removeFirst (fun t => td_id t =? id) (todos s)) s)
          end
      end
  end.

(** [task.isCompleted = dto.isCompleted;
     task.completedAt = dto.isCompleted ? new Date() : null] *)
Definition setTaskStatus (isCompleted : bool) (now : Date) (t : Task)
  : Task :=
  {| tk_title := tk_title t; tk_description := tk_description t;
     tk_isCompleted := isCompleted;
     tk_completedAt := if isCompleted then Some now else None |}.

(** Assignment to the fields of [tasks[i]], for an index in range. *)
Fixpoint updateNth {A : Type} (i : nat) (f : A -> A) (l : list A) : list A :=
  match l, i with
  | [], _ => []
  | x :: rest, O => f x :: rest
  | x :: rest, S j => x :: updateNth j f rest
  end.

(** updateTaskStatus (lines 194-228).  [taskIndex] is the integer the
    route's ParseIntPipe produced; it may be negative. *)
Definition updateTaskStatus (todoId : ObjectId) (taskIndex : Z)
    (isCompleted : bool) (currentUser : Principal) (s : TodoStore)
  : Result TodoDocument * TodoStore :=
  match p_type currentUser with
  | TypeUser => (Throw ForbiddenException, s)
  | TypeChild =>
      match findTodoById todoId s with
      | None => (Throw NotFoundException, s)
      | Some todo =>
          if negb (td_child todo =? p_id currentUser)
          then (Throw ForbiddenException, s)
          else if (taskIndex <? 0)%Z
                  || (Z.of_nat (List.length (td_tasks todo)) <=? taskIndex)%Z
          then (Throw BadRequestException, s)
          else
            let saved :=
              withTasks
                (updateNth (Z.to_nat taskIndex)
                   (setTaskStatus isCompleted (clock (db s)))
                   (td_tasks todo))
                todo in
            (Ok saved,
             with_todos
               (updateFirst (fun t => td_id t =? todoId) (fun _ => saved)
                  (todos s)) s)
      end
  end.

(** findAll (lines 71-99), without the populated names: the todo lists
    the caller is shown. *)
Definition findAll (currentUser : Principal) (s : TodoStore)
  : list TodoDocument :=
  match p_type currentUser with
  | TypeUser =>
      if isAdminRole currentUser then todos s
      else
        let childIds :=
          map c_id
            (filter (fun c => (c_parent c =? p_id currentUser)
                              || someEquals (c_linkedParents c)
                                   (p_id currentUser))
               (children (db s))) in
        filter (fun t => existsb (fun c => c =? td_child t) childIds)
          (todos s)
  | TypeChild => filter (fun t => td_child t =? p_id currentUser) (todos s)
  end.

(** findAllCreatedByParent (lines 104-116). *)
Definition findAllCreatedByParent (currentUser : Principal) (s : TodoStore)
  : Result (list TodoDocument) :=
  match p_type currentUser with
  | TypeChild => Throw ForbiddenException
  | TypeUser =>
      Ok (filter (fun t => td_createdBy t =? p_id currentUser) (todos s))
  end.

End TodoService.

(** Every todo list has its own id. *)
Definition todoIdsUnique (s : TodoService.TodoStore) : Prop :=
  NoDup (map TodoService.td_id (TodoService.todos s)).

(** Every child record has its own id. *)
Definition childIdsUnique (s : Store) : Prop :=
  NoDup (map c_id (children s)).

(** Who may change or remove a todo list: an administrator, or, when the
    child of the list is on record with its linked parents, the creator
    of the list, the child's parent or one of its linked parents. *)
Definition mayModifyTodo (s : TodoService.TodoStore)
    (todo : TodoService.TodoDocument) (user : Principal) : Prop :=
  isAdminRole user = true
  \/ exists child linked,
       find (fun c => c_id c =? TodoService.td_child todo)
         (children (TodoService.db s)) = Some child
       /\ c_linkedParents child = Some linked
       /\ (TodoService.td_createdBy todo = p_id user
           \/ c_parent child = p_id user
           \/ In (p_id user) linked).

(** The todo store at a later time, nothing else changed. *)
Definition laterTodoStore (ms : N) (s : TodoService.TodoStore)
  : TodoService.TodoStore :=
  {| TodoService.todos := TodoService.todos s;
     TodoService.db := SosAlertService.advance ms (TodoService.db s) |}.

(** The caller is the child of the list and the index names a task. *)
Definition mayTick (todo : TodoService.TodoDocument) (taskIndex : Z)
    (user : Principal) : Prop :=
  p_type user = TypeChild
  /\ TodoService.td_child todo = p_id user
  /\ (0 <= taskIndex < Z.of_nat (List.length (TodoService.td_tasks todo)))%Z.

(* ------------------------------------------------------------------ *)
(** ** Concrete data used by the examples                               *)
(* ------------------------------------------------------------------ *)

Module Fixtures.

Definition parent1 : Principal :=
  {| p_id := 1; p_type := TypeUser; p_role := Some ROLE_PARENT |}.
Definition child2 : Principal :=
  {| p_id := 2; p_type := TypeChild; p_role := None |}.
Definition invited3 : Principal :=
  {| p_id := 3; p_type := TypeUser; p_role := Some ROLE_PARENT |}.
Definition linked4 : Principal :=
  {| p_id := 4; p_type := TypeUser; p_role := Some ROLE_PARENT |}.
Definition stranger5 : Principal :=
  {| p_id := 5; p_type := TypeUser; p_role := Some ROLE_PARENT |}.
Definition admin9 : Principal :=
  {| p_id := 9; p_type := TypeUser; p_role := Some ROLE_ADMIN |}.

Definition room10 : RoomDocument :=
  {| r_id := 10; r_parent := 1; r_child := 2;
     r_invitedParents := Some [3]; r_isActive := true;
     r_lastMessage := None |}.

Definition childDoc2 : ChildDocument :=
  {| c_id := 2; c_parent := 1; c_linkedParents := Some [4];
     c_firstName := "Amira"; c_lastName := "Ben Ali";
     c_location := None |}.

Definition userDoc1 : UserDocument :=
  {| u_id := 1; u_role := ROLE_PARENT;
     u_phoneNumber := Some "+21612345678" |}.

Definition store0 : Store :=
  {| rooms := [room10]; messages := []; children := [childDoc2];
     users := [userDoc1]; alerts := []; nextId := 100;
     clock := 1000%N; emitted := []; timers := [];
     joined := []; cloudinaryDeletes := [] |}.

(** A text message of the parent, stored in room 10. *)
Definition message50 : MessageDocument :=
  {| m_id := 50; m_room := 10; m_senderModel := User; m_senderId := 1;
     m_type := TEXT; m_text := Some "hello"; m_audio := None;
     m_signalingPayload := None; m_createdAt := 900%N |}.

Definition storeWithMessage : Store := with_messages [message50] store0.

(** An alert of child 2 that was rung twice and not answered yet. *)
Definition alert70 (st : SosAlertStatus) : SosAlertDocument :=
  {| a_id := 70; a_child := 2; a_parent := 1; a_status := st;
     a_parentCallAttempts := 2; a_emergencyCallAttempts := 0;
     a_callHistory :=
       [ {| ch_callSid := SOS_CALL 70; ch_phoneNumber := "+21612345678";
            ch_callType := CT_PARENT; ch_status := "initiated";
            ch_answered := false; ch_timestamp := 100%N |};
         {| ch_callSid := SOS_CALL_RETRY 2; ch_phoneNumber := "N/A";
            ch_callType := CT_PARENT; ch_status := "retry";
            ch_answered := false; ch_timestamp := 400%N |} ];
     a_resolvedAt := None; a_resolvedBy := None;
     a_metadata := {| md_roomId := 10; md_childLocation := None;
                      md_triggeredAt := 100%N |} |}.

Definition storeWithAlert (st : SosAlertStatus) : Store :=
  with_alerts [alert70 st] store0.

(** Two sockets: 7 never presented a valid token, 8 is the parent and has
    joined room 10. *)
Definition anonymous7 : Socket := {| sock_id := 7; sock_user := None |}.
Definition parentSocket8 : Socket :=
  {| sock_id := 8; sock_user := Some parent1 |}.

Definition storeWithSubscriber : Store := with_joined [(8, 10)] store0.


Definition textBody : SendTextBody :=
  {| b_messageType := None; b_roomId := 10;
     b_text := Some "on my way"; b_content := None;
     b_senderModel := User; b_senderId := 1 |}.

End Fixtures.

(* ------------------------------------------------------------------ *)
(** ** More concrete data                                               *)
(* ------------------------------------------------------------------ *)

Module MoreFixtures.

Definition userDoc5 : UserDocument :=
  {| u_id := 5; u_role := ROLE_PARENT; u_phoneNumber := None |}.

(** Store 0 with a second parent account, 5, that has no tie to room 10. *)
Definition storeTwoParents : Store :=
  {| rooms := [Fixtures.room10]; messages := [];
     children := [Fixtures.childDoc2];
     users := [Fixtures.userDoc1; userDoc5]; alerts := []; nextId := 100;
     clock := 1000%N; emitted := []; timers := [];
     joined := []; cloudinaryDeletes := [] |}.

Definition textMessage (id room sender : ObjectId) (text : string) (t : Date)
  : MessageDocument :=
  {| m_id := id; m_room := room; m_senderModel := User; m_senderId := sender;
     m_type := TEXT; m_text := Some text; m_audio := None;
     m_signalingPayload := None; m_createdAt := t |}.

Definition audioMessage (id room : ObjectId) (model : SenderModel)
    (sender : ObjectId) (t : Date) : MessageDocument :=
  {| m_id := id; m_room := room; m_senderModel := model; m_senderId := sender;
     m_type := AUDIO; m_text := None;
     m_audio := Some {| au_url := "https://media/clip";
                        au_durationSec := Some 3; au_mimeType := None;
                        au_sizeBytes := None;
                        au_cloudinaryPublicId := Some "clip" |};
     m_signalingPayload := None; m_createdAt := t |}.

(** Room 10 with five texts of the parent, stored oldest first, and one
    message of another room in between. *)
Definition storeWithHistory : Store :=
  with_messages
    [ textMessage 51 10 1 "un" 100%N; textMessage 52 10 1 "deux" 200%N;
      textMessage 60 11 1 "ailleurs" 250%N;
      textMessage 53 10 1 "trois" 300%N; textMessage 54 10 1 "quatre" 400%N;
      textMessage 55 10 1 "cinq" 500%N ]
    Fixtures.store0.

(** Room 10 with voice clips of the parent, the child and the invited
    parent, and one text. *)
Definition storeWithClips : Store :=
  with_messages
    [ audioMessage 61 10 User 1 100%N; audioMessage 62 10 Child 2 200%N;
      textMessage 63 10 1 "texte" 300%N; audioMessage 64 10 User 3 400%N ]
    Fixtures.store0.

(** Room 10 with a text of the parent and, later, a call offer. *)
Definition storeWithSignal : Store :=
  with_messages
    [ textMessage 51 10 1 "un" 100%N;
      {| m_id := 52; m_room := 10; m_senderModel := User; m_senderId := 1;
         m_type := CALL_OFFER; m_text := None; m_audio := None;
         m_signalingPayload := Some [("sdp", "v=0")];
         m_createdAt := 200%N |} ]
    Fixtures.store0.

(** Child 2 has one room only, with its linked parent 4. *)
Definition room12 : RoomDocument :=
  {| r_id := 12; r_parent := 4; r_child := 2;
     r_invitedParents := Some []; r_isActive := true;
     r_lastMessage := None |}.

Definition storeLinkedRoom : Store := with_rooms [room12] Fixtures.store0.

(** Child 2 triggered alert 100 and its parent answered at once: the
    alert is PARENT_ANSWERED and its re-check is still pending. *)
Definition storeAnswered : Store :=
  Eval cbv in
    snd (SosAlertService.markParentAnswered 100 Fixtures.parent1
           (snd (SosAlertService.triggerSos 2 Fixtures.child2
                   Fixtures.store0))).

(** Socket 9 belongs to the stranger 5, authenticated. *)
Definition strangerSocket9 : Socket :=
  {| sock_id := 9; sock_user := Some Fixtures.stranger5 |}.

End MoreFixtures.


Module TodoFixtures.

Definition homework : TodoService.Task :=
  {| TodoService.tk_title := "Homework"; TodoService.tk_description := "";
     TodoService.tk_isCompleted := false;
     TodoService.tk_completedAt := None |}.

Definition tidyRoom : TodoService.Task :=
  {| TodoService.tk_title := "Tidy room"; TodoService.tk_description := "";
     TodoService.tk_isCompleted := true;
     TodoService.tk_completedAt := Some 500%N |}.

(** A list of child 2, created by parent 1. *)
Definition todo80 : TodoService.TodoDocument :=
  {| TodoService.td_id := 80; TodoService.td_title := "Monday";
     TodoService.td_description := ""; TodoService.td_child := 2;
     TodoService.td_createdBy := 1;
     TodoService.td_tasks := [homework; tidyRoom] |}.

(** A list of another child, created by user 5. *)
Definition todo81 : TodoService.TodoDocument :=
  {| TodoService.td_id := 81; TodoService.td_title := "Tuesday";
     TodoService.td_description := ""; TodoService.td_child := 6;
     TodoService.td_createdBy := 5;
     TodoService.td_tasks := [homework] |}.

Definition todoStore : TodoService.TodoStore :=
  {| TodoService.todos := [todo80; todo81];
     TodoService.db := Fixtures.store0 |}.

End TodoFixtures.

(* ------------------------------------------------------------------ *)
(** ** Collections: lookup and update lemmas                            *)
(* ------------------------------------------------------------------ *)

Section Collections.

Context {A : Type}.
Variable p : A -> bool.

Lemma find_app_miss (l : list A) (a : A) :
  find p l = None ->
  find p (l ++ [a]) = if p a then Some a else None.
Proof.
  induction l as [|x l IH]; simpl; intros H.
  - reflexivity.
  - destruct (p x); [discriminate | auto].
Qed.

Lemma find_app_hit (l : list A) (a x : A) :
  find p l = Some x -> find p (l ++ [a]) = Some x.
Proof.
  induction l as [|y l IH]; simpl; intros H.
  - discriminate.
  - destruct (p y); auto.
Qed.

Lemma updateFirst_app_miss (f : A -> A) (l : list A) (a : A) :
  find p l = None ->
  updateFirst p f (l ++ [a]) = (l ++ [if p a then f a else a])%list.
Proof.
  induction l as [|x l IH]; simpl; intros H.
  - destruct (p a); reflexivity.
  - destruct (p x); [discriminate | rewrite IH; auto].
Qed.

Lemma updateFirst_miss (f : A -> A) (l : list A) :
  find p l = None -> updateFirst p f l = l.
Proof.
  induction l as [|x l IH]; simpl; intros H; [reflexivity|].
  destruct (p x); [discriminate | rewrite IH; auto].
Qed.

Lemma find_updateFirst (f : A -> A) (l : list A) :
  (forall x, p (f x) = p x) ->
  find p (updateFirst p f l) = option_map f (find p l).
Proof.
  intros Hp. induction l as [|x l IH]; simpl; [reflexivity|].
  destruct (p x) eqn:E; simpl.
  - rewrite Hp, E. reflexivity.
  - rewrite E. exact IH.
Qed.

Lemma updateFirst_twice (f g : A -> A) (l : list A) :
  (forall x, p (f x) = p x) ->
  updateFirst p g (updateFirst p f l) = updateFirst p (fun x => g (f x)) l.
Proof.
  intros Hp. induction l as [|x l IH]; simpl; [reflexivity|].
  destruct (p x) eqn:E; simpl.
  - rewrite Hp, E. reflexivity.
  - rewrite E, IH. reflexivity.
Qed.

Lemma find_some_holds (l : list A) (x : A) :
  find p l = Some x -> p x = true /\ In x l.
Proof.
  intros H. apply find_some in H. tauto.
Qed.

Lemma updateFirst_length (f : A -> A) (l : list A) :
  List.length (updateFirst p f l) = List.length l.
Proof.
  induction l as [|x l IH]; simpl; [reflexivity|].
  destruct (p x); simpl; congruence.
Qed.

(** An update addressed by [p] is not seen by a lookup [q] that [p]'s
    documents never satisfy, before or after the update. *)
Lemma find_updateFirst_apart (q : A -> bool) (f : A -> A) (l : list A) :
  (forall x, p x = true -> q x = false /\ q (f x) = false) ->
  find q (updateFirst p f l) = find q l.
Proof.
  intros H. induction l as [|x l IH]; simpl; [reflexivity|].
  destruct (p x) eqn:E; simpl.
  - destruct (H x E) as [H1 H2]. rewrite H1, H2. reflexivity.
  - rewrite IH. reflexivity.
Qed.

End Collections.

Lemma someEquals_memberOf (xs : option (list ObjectId)) (x : ObjectId) :
  someEquals xs x = true <-> memberOf x xs.
Proof.
  unfold someEquals, memberOf. destruct xs as [l|].
  - rewrite existsb_exists. split.
    + intros [y [Hin Heq]]. apply Nat.eqb_eq in Heq. subst y.
      exists l. auto.
    + intros [l' [Heq Hin]]. inversion Heq; subst l'.
      exists x. split; [assumption | apply Nat.eqb_refl].
  - split; [discriminate | intros [l [Heq _]]; discriminate].
Qed.

Lemma someEquals_not_memberOf (xs : option (list ObjectId)) (x : ObjectId) :
  someEquals xs x = false <-> ~ memberOf x xs.
Proof.
  rewrite <- someEquals_memberOf.
  destruct (someEquals xs x); split; intros H; congruence.
Qed.

(** Unfolds the monadic plumbing of the services. *)
Ltac run_service :=
  unfold orThrow, liftResult, newDate, freshId, emit, setTimeout, modify,
    gets, bind, ret, throw in *; simpl in *.

(* ------------------------------------------------------------------ *)
(** ** Access control                                                   *)
(* ------------------------------------------------------------------ *)

(** [validateSender] only reads the store, and either returns or throws
    Forbidden. *)
Lemma validateSender_outcomes (s : Store) (room : RoomDocument)
    (senderModel : SenderModel) (senderId : ObjectId) :
  MessageService.validateSender room senderModel senderId s = (Ok tt, s)
  \/ MessageService.validateSender room senderModel senderId s
     = (Throw ForbiddenException, s).
Proof.
  unfold MessageService.validateSender, MessageService.findChildById,
    MessageService.getChildId.
  destruct senderModel.
  - destruct (r_parent room =? senderId); simpl; [left; reflexivity|].
    destruct (someEquals (r_invitedParents room) senderId); simpl;
      [left; reflexivity|].
    run_service.
    destruct (find (fun c => c_id c =? r_child room) (children s)) as [c|];
      [|right; reflexivity].
    destruct (someEquals (c_linkedParents c) senderId); auto.
  - destruct (r_child room =? senderId); simpl; auto.
Qed.

Lemma validateSender_ok_iff (s : Store) (room : RoomDocument)
    (senderModel : SenderModel) (senderId : ObjectId) :
  MessageService.validateSender room senderModel senderId s = (Ok tt, s)
  <-> authorizedSender s room senderModel senderId.
Proof.
  unfold MessageService.validateSender, MessageService.findChildById,
    MessageService.getChildId, authorizedSender, linkedToRoomChild.
  destruct senderModel.
  - destruct (r_parent room =? senderId) eqn:Emain; simpl.
    { apply Nat.eqb_eq in Emain. split; intros _; [|reflexivity].
      right. split; [reflexivity|]. left. symmetry. exact Emain. }
    apply Nat.eqb_neq in Emain.
    destruct (someEquals (r_invitedParents room) senderId) eqn:Einv; simpl.
    { apply someEquals_memberOf in Einv. split; intros _; [|reflexivity].
      right. split; [reflexivity|]. right. left. exact Einv. }
    apply someEquals_not_memberOf in Einv.
    run_service.
    destruct (find (fun c => c_id c =? r_child room) (children s)) as [c|]
      eqn:Efind.
    + destruct (someEquals (c_linkedParents c) senderId) eqn:Elink.
      * apply someEquals_memberOf in Elink. split; intros _; [|reflexivity].
        right. split; [reflexivity|]. right. right. exists c. auto.
      * apply someEquals_not_memberOf in Elink. split; [discriminate|].
        intros [[H _]|[_ [H|[H|[c' [Hc Hm]]]]]];
          try discriminate; try congruence; try contradiction.
    + split; [discriminate|].
      intros [[H _]|[_ [H|[H|[c' [Hc Hm]]]]]];
        try discriminate; try congruence; try contradiction.
  - destruct (r_child room =? senderId) eqn:E; simpl.
    + apply Nat.eqb_eq in E. split; intros _; [|reflexivity].
      left. split; [reflexivity | symmetry; exact E].
    + apply Nat.eqb_neq in E. split; [discriminate|].
      intros [[_ H]|[H _]]; [congruence | discriminate].
Qed.

(** C4.  [validateSender] succeeds exactly for the room's child (sender
    model Child, id of the room's child), the room's primary parent, an
    invited parent, or a parent linked to the child record; for every
    other (senderModel, senderId) pair it throws Forbidden.  In both cases
    the store is left as it was. *)
Theorem validateSender_accepts_exactly (s : Store) (room : RoomDocument)
    (senderModel : SenderModel) (senderId : ObjectId) :
  (authorizedSender s room senderModel senderId
   <-> MessageService.validateSender room senderModel senderId s = (Ok tt, s))
  /\ (~ authorizedSender s room senderModel senderId
      <-> MessageService.validateSender room senderModel senderId s
          = (Throw ForbiddenException, s)).
Proof.
  split.
  - symmetry. apply validateSender_ok_iff.
  - rewrite <- validateSender_ok_iff.
    destruct (validateSender_outcomes s room senderModel senderId) as [H|H];
      rewrite H; split; intros H'; congruence.
Qed.

(** For a parent principal without the ADMIN role, [assertRoomAccess] and
    [isRoomParticipant] read the same two facts. *)
Lemma assertRoomAccess_parent (room : RoomDocument) (user : Principal) :
  isAdminRole user = false -> p_type user = TypeUser ->
  MessageService.assertRoomAccess room user
  = if MessageService.isRoomParticipant room User (getUserId user)
    then Ok tt else Throw ForbiddenException.
Proof.
  intros Hadmin Htype.
  unfold MessageService.assertRoomAccess, MessageService.isRoomParticipant,
    isChildType.
  rewrite Hadmin, Htype.
  destruct (r_parent room =? getUserId user);
    destruct (someEquals (r_invitedParents room) (getUserId user));
    reflexivity.
Qed.

(** An ADMIN principal passes [assertRoomAccess] for every room. *)
Lemma assertRoomAccess_admin (room : RoomDocument) (user : Principal) :
  isAdminRole user = true ->
  MessageService.assertRoomAccess room user = Ok tt.
Proof.
  intros H. unfold MessageService.assertRoomAccess. rewrite H. reflexivity.
Qed.

(** The administrators' bypass is apart from the rule for parents: the
    administrator 9, a user principal with the ADMIN role, is accepted by
    [assertRoomAccess] for room 10 although [isRoomParticipant] rejects
    it as a User sender. *)
Lemma admin_passes_access_but_is_no_participant :
  p_type Fixtures.admin9 = TypeUser
  /\ MessageService.isRoomParticipant Fixtures.room10 User
       (getUserId Fixtures.admin9) = false
  /\ MessageService.assertRoomAccess Fixtures.room10 Fixtures.admin9 = Ok tt.
Proof. repeat split. Qed.

(** C5.  For every room and every parent principal (a user that does not
    hold the ADMIN role), there is no case where [isRoomParticipant]
    rejects the parent as a User sender while [assertRoomAccess] accepts
    it as actor: [assertRoomAccess] accepts the parent exactly when
    [isRoomParticipant] accepts it. *)
Theorem participant_check_covers_access_for_parents
    (room : RoomDocument) (user : Principal) :
  isAdminRole user = false ->
  p_type user = TypeUser ->
  (MessageService.assertRoomAccess room user = Ok tt
   <-> MessageService.isRoomParticipant room User (getUserId user) = true)
  /\ ~ (MessageService.isRoomParticipant room User (getUserId user) = false
        /\ MessageService.assertRoomAccess room user = Ok tt).
Proof.
  intros Hadmin Htype.
  rewrite (assertRoomAccess_parent room user Hadmin Htype).
  destruct (MessageService.isRoomParticipant room User (getUserId user));
    split; try split; try congruence; intros [H1 H2]; congruence.
Qed.

Lemma participant_check_covers_access_for_parents_witness :
  (MessageService.assertRoomAccess Fixtures.room10 Fixtures.invited3 = Ok tt
   <-> MessageService.isRoomParticipant Fixtures.room10 User
         (getUserId Fixtures.invited3) = true)
  /\ ~ (MessageService.isRoomParticipant Fixtures.room10 User
          (getUserId Fixtures.invited3) = false
        /\ MessageService.assertRoomAccess Fixtures.room10 Fixtures.invited3
           = Ok tt).
Proof.
  apply (participant_check_covers_access_for_parents
           Fixtures.room10 Fixtures.invited3); reflexivity.
Defined.

(* ------------------------------------------------------------------ *)
(** ** Message pipeline                                                 *)
(* ------------------------------------------------------------------ *)

Arguments MessageService.validateSender : simpl never.
Arguments MessageService.assertRoomAccess : simpl never.
Arguments MessageService.isRoomParticipant : simpl never.

(** The message [createMessage] builds on store [s]. *)
Lemma createMessage_run (s : Store) (room : ObjectId) (sm : SenderModel)
    (sid : ObjectId) (ty : MessageType) (text : option string)
    (audio : option AudioMeta) (payload : option SignalPayload) :
  let msg := {| m_id := nextId s; m_room := room; m_senderModel := sm;
                m_senderId := sid; m_type := ty; m_text := text;
                m_audio := audio; m_signalingPayload := payload;
                m_createdAt := clock s |} in
  MessageService.createMessage room sm sid ty text audio payload s
  = (Ok msg, with_messages (messages s ++ [msg]) (with_nextId (S (nextId s)) s)).
Proof. reflexivity. Qed.

(** What a successful [sendText] did. *)
Lemma sendText_ok_inv (dto : MessageService.SendTextDto) (user : Principal)
    (s s' : Store) (msg : MessageDocument) :
  MessageService.sendText dto user s = (Ok msg, s') ->
  exists room,
    find (fun r => r_id r =? MessageService.st_roomId dto) (rooms s) = Some room
    /\ MessageService.assertRoomAccess room user = Ok tt
    /\ MessageService.validateSender room (MessageService.st_senderModel dto)
         (MessageService.st_senderId dto) s = (Ok tt, s)
    /\ msg = {| m_id := nextId s; m_room := r_id room;
                m_senderModel := MessageService.st_senderModel dto;
                m_senderId := MessageService.st_senderId dto;
                m_type := TEXT; m_text := MessageService.st_text dto;
                m_audio := None; m_signalingPayload := None;
                m_createdAt := clock s |}
    /\ s' = with_rooms
              (updateFirst (fun r => r_id r =? r_id room)
                 (MessageService.withLastMessage
                    (Some {| lm_text := MessageService.st_text dto;
                             lm_senderModel := MessageService.st_senderModel dto;
                             lm_senderId := MessageService.st_senderId dto;
                             lm_createdAt := clock s |}))
                 (rooms s))
              (with_messages (messages s ++ [msg])
                 (with_nextId (S (nextId s)) s)).
Proof.
  unfold MessageService.sendText, MessageService.findRoomById,
    MessageService.setLastMessage, MessageService.createMessage.
  run_service.
  destruct (find (fun r => r_id r =? MessageService.st_roomId dto) (rooms s))
    as [room|] eqn:Efind; simpl; [|discriminate].
  destruct (MessageService.assertRoomAccess room user) as [[]|e] eqn:Eacc;
    simpl; [|discriminate].
  destruct (validateSender_outcomes s room (MessageService.st_senderModel dto)
              (MessageService.st_senderId dto)) as [Hv|Hv];
    rewrite Hv; simpl; [|discriminate].
  intros H. inversion H; subst; clear H.
  exists room. repeat split; auto.
Qed.

Lemma sendAudio_ok_inv (dto : MessageService.SendAudioDto) (user : Principal)
    (s s' : Store) (msg : MessageDocument) :
  MessageService.sendAudio dto user s = (Ok msg, s') ->
  exists room,
    find (fun r => r_id r =? MessageService.sa_roomId dto) (rooms s) = Some room
    /\ MessageService.assertRoomAccess room user = Ok tt
    /\ MessageService.validateSender room (MessageService.sa_senderModel dto)
         (MessageService.sa_senderId dto) s = (Ok tt, s)
    /\ msg = {| m_id := nextId s; m_room := r_id room;
                m_senderModel := MessageService.sa_senderModel dto;
                m_senderId := MessageService.sa_senderId dto;
                m_type := AUDIO; m_text := None;
                m_audio := Some (MessageService.sa_audio dto);
                m_signalingPayload := None;
                m_createdAt := clock s |}
    /\ s' = with_rooms
              (updateFirst (fun r => r_id r =? r_id room)
                 (MessageService.withLastMessage
                    (Some {| lm_text := Some "[Audio]";
                             lm_senderModel := MessageService.sa_senderModel dto;
                             lm_senderId := MessageService.sa_senderId dto;
                             lm_createdAt := clock s |}))
                 (rooms s))
              (with_messages (messages s ++ [msg])
                 (with_nextId (S (nextId s)) s)).
Proof.
  unfold MessageService.sendAudio, MessageService.findRoomById,
    MessageService.setLastMessage, MessageService.createMessage.
  run_service.
  destruct (find (fun r => r_id r =? MessageService.sa_roomId dto) (rooms s))
    as [room|] eqn:Efind; simpl; [|discriminate].
  destruct (MessageService.assertRoomAccess room user) as [[]|e] eqn:Eacc;
    simpl; [|discriminate].
  destruct (validateSender_outcomes s room (MessageService.sa_senderModel dto)
              (MessageService.sa_senderId dto)) as [Hv|Hv];
    rewrite Hv; simpl; [|discriminate].
  intros H. inversion H; subst; clear H.
  exists room. repeat split; auto.
Qed.

Lemma sendSignal_ok_inv (dto : MessageService.SendSignalDto) (user : Principal)
    (s s' : Store) (msg : MessageDocument) :
  MessageService.sendSignal dto user s = (Ok msg, s') ->
  exists room type,
    find (fun r => r_id r =? MessageService.sg_roomId dto) (rooms s) = Some room
    /\ MessageService.signalType (MessageService.sg_type dto) = Some type
    /\ MessageService.payloadValid type (MessageService.sg_payload dto) = true
    /\ MessageService.isRoomParticipant room (MessageService.sg_senderModel dto)
         (MessageService.sg_senderId dto) = true
    /\ msg = {| m_id := nextId s; m_room := r_id room;
                m_senderModel := MessageService.sg_senderModel dto;
                m_senderId := MessageService.sg_senderId dto;
                m_type := type; m_text := None; m_audio := None;
                m_signalingPayload := Some (MessageService.sg_payload dto);
                m_createdAt := clock s |}
    /\ s' = with_messages (messages s ++ [msg]) (with_nextId (S (nextId s)) s).
Proof.
  unfold MessageService.sendSignal, MessageService.findRoomById,
    MessageService.createMessage.
  run_service.
  destruct (MessageService.signalType (MessageService.sg_type dto))
    as [type|] eqn:Etype; [|discriminate].
  simpl.
  destruct (MessageService.payloadValid type (MessageService.sg_payload dto))
    eqn:Epay; [|discriminate].
  simpl.
  destruct (find (fun r => r_id r =? MessageService.sg_roomId dto) (rooms s))
    as [room|] eqn:Efind; [|discriminate].
  simpl.
  destruct (MessageService.isRoomParticipant room
              (MessageService.sg_senderModel dto)
              (MessageService.sg_senderId dto)) eqn:Epart; [|discriminate].
  simpl. intros H. inversion H; subst; clear H.
  exists room, type. repeat split; auto.
Qed.

(** What setting the projection of one room does to the room
    collection, read field by field. *)
Lemma setLastMessage_reads (rs : list RoomDocument) (roomId : ObjectId)
    (lm : option LastMessage) (room : RoomDocument) :
  find (fun r => r_id r =? roomId) rs = Some room ->
  let rs' := updateFirst (fun r => r_id r =? roomId)
               (MessageService.withLastMessage lm) rs in
  exists room',
    find (fun r => r_id r =? roomId) rs' = Some room'
    /\ r_lastMessage room' = lm
    /\ r_id room' = r_id room /\ r_parent room' = r_parent room
    /\ r_child room' = r_child room
    /\ r_invitedParents room' = r_invitedParents room
    /\ r_isActive room' = r_isActive room
    /\ (forall other, other <> roomId ->
          find (fun r => r_id r =? other) rs'
          = find (fun r => r_id r =? other) rs)
    /\ List.length rs' = List.length rs.
Proof.
  intros Hfind rs'. subst rs'.
  exists (MessageService.withLastMessage lm room).
  split; [rewrite find_updateFirst by reflexivity; rewrite Hfind;
          reflexivity|].
  do 6 (split; [reflexivity|]).
  split; [|apply updateFirst_length].
  intros other Hother. apply find_updateFirst_apart.
  intros x Hx. apply Nat.eqb_eq in Hx. simpl.
  assert (E : (r_id x =? other) = false)
    by (apply Nat.eqb_neq; congruence).
  auto.
Qed.

(** C10.  The room's lastMessage projection is written by text and audio
    sends and never by signal sends.  After a successful [sendText] the
    stored room's lastMessage holds the sent text, the sender and the time
    of the send; after a successful [sendAudio] it holds the fixed
    placeholder "[Audio]", the sender and the time; in both cases the
    other fields of the room, every other room and the number of rooms
    are as before.  After a successful [sendSignal] the room collection
    is unchanged. *)
Theorem lastMessage_written_by_text_and_audio_only :
  (forall dto user s msg s',
      MessageService.sendText dto user s = (Ok msg, s') ->
      exists room room',
        find (fun r => r_id r =? MessageService.st_roomId dto) (rooms s)
        = Some room
        /\ find (fun r => r_id r =? MessageService.st_roomId dto) (rooms s')
           = Some room'
        /\ r_lastMessage room'
           = Some {| lm_text := MessageService.st_text dto;
                     lm_senderModel := MessageService.st_senderModel dto;
                     lm_senderId := MessageService.st_senderId dto;
                     lm_createdAt := clock s |}
        /\ r_id room' = r_id room /\ r_parent room' = r_parent room
        /\ r_child room' = r_child room
        /\ r_invitedParents room' = r_invitedParents room
        /\ r_isActive room' = r_isActive room
        /\ (forall other, other <> MessageService.st_roomId dto ->
              find (fun r => r_id r =? other) (rooms s')
              = find (fun r => r_id r =? other) (rooms s))
        /\ List.length (rooms s') = List.length (rooms s))
  /\ (forall dto user s msg s',
      MessageService.sendAudio dto user s = (Ok msg, s') ->
      exists room room',
        find (fun r => r_id r =? MessageService.sa_roomId dto) (rooms s)
        = Some room
        /\ find (fun r => r_id r =? MessageService.sa_roomId dto) (rooms s')
           = Some room'
        /\ r_lastMessage room'
           = Some {| lm_text := Some "[Audio]";
                     lm_senderModel := MessageService.sa_senderModel dto;
                     lm_senderId := MessageService.sa_senderId dto;
                     lm_createdAt := clock s |}
        /\ r_id room' = r_id room /\ r_parent room' = r_parent room
        /\ r_child room' = r_child room
        /\ r_invitedParents room' = r_invitedParents room
        /\ r_isActive room' = r_isActive room
        /\ (forall other, other <> MessageService.sa_roomId dto ->
              find (fun r => r_id r =? other) (rooms s')
              = find (fun r => r_id r =? other) (rooms s))
        /\ List.length (rooms s') = List.length (rooms s))
  /\ (forall dto user s msg s',
      MessageService.sendSignal dto user s = (Ok msg, s') ->
      rooms s' = rooms s).
Proof.
  split; [|split].
  - intros dto user s msg s' H.
    apply sendText_ok_inv in H.
    destruct H as [room [Hfind [_ [_ [_ Hs']]]]].
    pose proof (find_some_holds _ _ _ Hfind) as [Hid _].
    apply Nat.eqb_eq in Hid. rewrite Hid in Hs'.
    destruct (setLastMessage_reads (rooms s) (MessageService.st_roomId dto)
                (Some {| lm_text := MessageService.st_text dto;
                         lm_senderModel := MessageService.st_senderModel dto;
                         lm_senderId := MessageService.st_senderId dto;
                         lm_createdAt := clock s |}) room Hfind)
      as [room' Hreads].
    exists room, room'. subst s'. simpl. split; [exact Hfind | exact Hreads].
  - intros dto user s msg s' H.
    apply sendAudio_ok_inv in H.
    destruct H as [room [Hfind [_ [_ [_ Hs']]]]].
    pose proof (find_some_holds _ _ _ Hfind) as [Hid _].
    apply Nat.eqb_eq in Hid. rewrite Hid in Hs'.
    destruct (setLastMessage_reads (rooms s) (MessageService.sa_roomId dto)
                (Some {| lm_text := Some "[Audio]";
                         lm_senderModel := MessageService.sa_senderModel dto;
                         lm_senderId := MessageService.sa_senderId dto;
                         lm_createdAt := clock s |}) room Hfind)
      as [room' Hreads].
    exists room, room'. subst s'. simpl. split; [exact Hfind | exact Hreads].
  - intros dto user s msg s' H.
    apply sendSignal_ok_inv in H.
    destruct H as [room [type [_ [_ [_ [_ [_ Hs']]]]]]].
    subst s'. reflexivity.
Qed.

(** The invited parent 3 sends a text to room 10, the parent 1 a voice
    clip and then a call offer: the projection holds the text, then the
    placeholder, and the offer leaves it alone. *)
Lemma lastMessage_written_by_text_and_audio_only_witness :
  let text := {| MessageService.st_roomId := 10;
                 MessageService.st_text := Some "bonjour";
                 MessageService.st_senderModel := User;
                 MessageService.st_senderId := 3 |} in
  let clip := {| MessageService.sa_roomId := 10;
                 MessageService.sa_senderModel := User;
                 MessageService.sa_senderId := 1;
                 MessageService.sa_audio :=
                   {| au_url := "https://media/clip";
                      au_durationSec := Some 3; au_mimeType := None;
                      au_sizeBytes := None;
                      au_cloudinaryPublicId := Some "clip" |} |} in
  let offer := {| MessageService.sg_roomId := 10;
                  MessageService.sg_senderModel := User;
                  MessageService.sg_senderId := 1;
                  MessageService.sg_type := "CALL_OFFER";
                  MessageService.sg_payload := [("sdp", "v=0")] |} in
  let s1 := snd (MessageService.sendText text Fixtures.invited3
                   Fixtures.store0) in
  let s2 := snd (MessageService.sendAudio clip Fixtures.parent1 s1) in
  let s3 := snd (MessageService.sendSignal offer Fixtures.parent1 s2) in
  (exists room',
     find (fun r => r_id r =? 10) (rooms s1) = Some room'
     /\ r_lastMessage room'
        = Some {| lm_text := Some "bonjour"; lm_senderModel := User;
                  lm_senderId := 3; lm_createdAt := 1000%N |})
  /\ (exists room',
        find (fun r => r_id r =? 10) (rooms s2) = Some room'
        /\ r_lastMessage room'
           = Some {| lm_text := Some "[Audio]"; lm_senderModel := User;
                     lm_senderId := 1; lm_createdAt := 1000%N |})
  /\ rooms s3 = rooms s2.
Proof.
  intros text clip offer s1 s2 s3.
  destruct lastMessage_written_by_text_and_audio_only
    as [Htext [Haudio Hsignal]].
  split; [|split].
  - destruct (Htext text Fixtures.invited3 Fixtures.store0
                (match fst (MessageService.sendText text Fixtures.invited3
                              Fixtures.store0) with
                 | Ok m => m
                 | Throw _ => Fixtures.message50
                 end) s1 eq_refl)
      as [room [room' [_ [Hfind [Hlm _]]]]].
    exists room'. split; [exact Hfind | exact Hlm].
  - destruct (Haudio clip Fixtures.parent1 s1
                (match fst (MessageService.sendAudio clip Fixtures.parent1 s1)
                 with
                 | Ok m => m
                 | Throw _ => Fixtures.message50
                 end) s2 eq_refl)
      as [room [room' [_ [Hfind [Hlm _]]]]].
    exists room'. split; [exact Hfind | exact Hlm].
  - apply (Hsignal offer Fixtures.parent1 s2
             (match fst (MessageService.sendSignal offer Fixtures.parent1 s2)
              with
              | Ok m => m
              | Throw _ => Fixtures.message50
              end) s3 eq_refl).
Defined.

(** The two boolean tests of [deleteMessage] say that the caller is the
    author. *)
Lemma isAuthor_tests (user : Principal) (message : MessageDocument) :
  (m_senderId message =? getUserId user)
  && MessageService.isSenderModelMatch user message = true
  <-> isAuthor user message.
Proof.
  unfold isAuthor, MessageService.isSenderModelMatch, isChildType.
  rewrite andb_true_iff, Nat.eqb_eq.
  destruct (p_type user); destruct (m_senderModel message); simpl;
    intuition (try discriminate; try congruence).
Qed.

(** C7.  For an existing message (of an existing room), [deleteMessage]
    succeeds only when the caller's (id, actor-type) is the message's
    (senderId, senderModel) and the caller passes [assertRoomAccess]; it
    does succeed then, and removes the message.  For every caller that is
    not the author, an administrator included, it throws Forbidden and
    the store, hence the message, is left as it was. *)
Theorem deleteMessage_only_by_author (s : Store) (messageId : ObjectId)
    (user : Principal) (message : MessageDocument) (room : RoomDocument) :
  find (fun m => m_id m =? messageId) (messages s) = Some message ->
  find (fun r => r_id r =? m_room message) (rooms s) = Some room ->
  (forall s', MessageService.deleteMessage messageId user s = (Ok tt, s') ->
     isAuthor user message
     /\ MessageService.assertRoomAccess room user = Ok tt)
  /\ (isAuthor user message ->
      MessageService.assertRoomAccess room user = Ok tt ->
      exists s', MessageService.deleteMessage messageId user s = (Ok tt, s')
                 /\ messages s'
                    = removeFirst (fun m => m_id m =? messageId) (messages s))
  /\ (~ isAuthor user message ->
      MessageService.deleteMessage messageId user s
      = (Throw ForbiddenException, s)
      /\ find (fun m => m_id m =? messageId)
           (messages (snd (MessageService.deleteMessage messageId user s)))
         = Some message).
Proof.
  intros Hmsg Hroom.
  pose proof (isAuthor_tests user message) as Hauth.
  unfold MessageService.deleteMessage, MessageService.findMessageById,
    MessageService.findRoomById, MessageService.setLastMessage,
    MessageService.deleteFile.
  run_service. rewrite Hmsg. simpl. rewrite Hroom. simpl.
  assert (Hacc : MessageService.assertRoomAccess room user = Ok tt
                 \/ MessageService.assertRoomAccess room user
                    = Throw ForbiddenException).
  { unfold MessageService.assertRoomAccess.
    repeat match goal with
           | |- context [if ?b then _ else _] => destruct b
           end; auto. }
  destruct Hacc as [Hacc|Hacc]; rewrite Hacc; simpl.
  - destruct (m_senderId message =? getUserId user) eqn:Eid; simpl.
    + destruct (MessageService.isSenderModelMatch user message) eqn:Emodel;
        simpl.
      * assert (Ha : isAuthor user message) by (apply Hauth; reflexivity).
        split; [intros; split; [exact Ha | reflexivity]|].
        split; [|intros Hn; contradiction].
        intros _ _.
        destruct (m_type message); simpl;
          try (destruct (m_audio message) as [au|]; simpl);
          try (destruct (au_cloudinaryPublicId au) as [pid|]; simpl);
          try (destruct (negb (String.eqb pid "")); simpl);
          match goal with
          | |- context [MessageService.latestMessage None ?l] =>
              destruct (MessageService.latestMessage None l); simpl
          end; eexists; split; reflexivity.
      * assert (Hn : ~ isAuthor user message).
        { intros Ha. apply Hauth in Ha. discriminate. }
        split; [intros s' H; discriminate|].
        split; [intros Ha; contradiction|].
        intros _. split; [reflexivity | exact Hmsg].
    + assert (Hn : ~ isAuthor user message).
      { intros Ha. apply Hauth in Ha. discriminate. }
      split; [intros s' H; discriminate|].
      split; [intros Ha; contradiction|].
      intros _. split; [reflexivity | exact Hmsg].
  - split; [intros s' H; discriminate|].
    split; [intros _ H; discriminate|].
    intros _. split; [reflexivity | exact Hmsg].
Qed.

Lemma deleteMessage_only_by_author_witness :
  (forall s',
      MessageService.deleteMessage 50 Fixtures.admin9 Fixtures.storeWithMessage
      = (Ok tt, s') ->
      isAuthor Fixtures.admin9 Fixtures.message50
      /\ MessageService.assertRoomAccess Fixtures.room10 Fixtures.admin9 = Ok tt)
  /\ (isAuthor Fixtures.admin9 Fixtures.message50 ->
      MessageService.assertRoomAccess Fixtures.room10 Fixtures.admin9 = Ok tt ->
      exists s',
        MessageService.deleteMessage 50 Fixtures.admin9
          Fixtures.storeWithMessage = (Ok tt, s')
        /\ messages s'
           = removeFirst (fun m => m_id m =? 50)
               (messages Fixtures.storeWithMessage))
  /\ (~ isAuthor Fixtures.admin9 Fixtures.message50 ->
      MessageService.deleteMessage 50 Fixtures.admin9 Fixtures.storeWithMessage
      = (Throw ForbiddenException, Fixtures.storeWithMessage)
      /\ find (fun m => m_id m =? 50)
           (messages (snd (MessageService.deleteMessage 50 Fixtures.admin9
                             Fixtures.storeWithMessage)))
         = Some Fixtures.message50).
Proof.
  apply (deleteMessage_only_by_author Fixtures.storeWithMessage 50
           Fixtures.admin9 Fixtures.message50 Fixtures.room10); reflexivity.
Defined.

(** The administrator is refused, the author is served. *)
Example deleteMessage_admin_refused :
  MessageService.deleteMessage 50 Fixtures.admin9 Fixtures.storeWithMessage
  = (Throw ForbiddenException, Fixtures.storeWithMessage).
Proof. reflexivity. Qed.

Example deleteMessage_author_served :
  fst (MessageService.deleteMessage 50 Fixtures.parent1
         Fixtures.storeWithMessage) = Ok tt
  /\ messages (snd (MessageService.deleteMessage 50 Fixtures.parent1
                      Fixtures.storeWithMessage)) = [].
Proof. split; reflexivity. Qed.

(* ------------------------------------------------------------------ *)
(** ** Real-time gateway                                                *)
(* ------------------------------------------------------------------ *)

Lemma newEmits_app (s s' : Store) (l : list Emit) :
  emitted s' = (emitted s ++ l)%list -> newEmits s s' = l.
Proof.
  intros H. unfold newEmits. rewrite H.
  rewrite skipn_app, skipn_all, Nat.sub_diag. reflexivity.
Qed.






(** The run of the witness: one message stored, one broadcast of it. *)
Example onSendText_text_run :
  let r := ChatGateway.onSendText Fixtures.parentSocket8 Fixtures.textBody
             Fixtures.storeWithSubscriber in
  exists msg,
    fst r = ChatGateway.AckMessage msg
    /\ messages (snd r) = [msg]
    /\ m_text msg = Some "on my way"
    /\ emitted (snd r)
       = [ {| e_target := ToRoom 10; e_event := EvNewMessage;
              e_payload := PMessage msg |} ].
Proof. simpl. eexists. repeat split. Qed.

(** A connection without a verified token stays connected and keeps no
    user. *)
Lemma handleConnection_unverified (client : Socket) (h : ChatGateway.Handshake) :
  (forall payload, h <> ChatGateway.ValidToken payload) ->
  ChatGateway.handleConnection client h = client.
Proof.
  intros H. destruct h; try reflexivity.
  exfalso. apply (H payload). reflexivity.
Qed.

(** The three guarded handlers refuse an unauthenticated socket and touch
    nothing. *)
Lemma guarded_handlers_refuse_unauthenticated (client : Socket) (s : Store) :
  sock_user client = None ->
  (forall roomId other,
      ChatGateway.onJoinRoom client
        {| ChatGateway.j_roomId := Some roomId; ChatGateway.j_room := other |} s
      = (ChatGateway.ErrUnauthorized, s))
  /\ (forall body,
      ChatGateway.onSendText client body s = (ChatGateway.ErrUnauthorized, s))
  /\ (forall body,
      ChatGateway.onSignal client body s = (ChatGateway.ErrUnauthorized, s)).
Proof.
  intros H. repeat split; intros;
    unfold ChatGateway.onJoinRoom, ChatGateway.onSendText,
      ChatGateway.onSignal; simpl; rewrite H; reflexivity.
Qed.

(** [onLeaveRoom] never looks at [client.data.user]: whoever the socket
    is, it is acknowledged and a presence event goes to the room. *)
Lemma onLeaveRoom_serves_any_socket (client : Socket) (roomId : ObjectId)
    (s : Store) :
  ChatGateway.onLeaveRoom client roomId s
  = (ChatGateway.OkRoom roomId,
     with_emitted
       (emitted s ++ [{| e_target := ToRoom roomId; e_event := EvPresence;
                         e_payload := PPresence (sock_id client) "left" roomId |}])
       (with_joined
          (filter (fun e => negb ((fst e =? sock_id client) && (snd e =? roomId)))
             (joined s)) s)).
Proof. reflexivity. Qed.

(** C9 fails on [leaveRoom].  Socket 7 never authenticated; its
    [leaveRoom] for room 10 is not rejected as unauthorized but
    acknowledged, and a presence event is emitted to the room, where the
    subscribed socket 8 receives it. *)
Theorem unauthenticated_leaveRoom_is_served :
  let r := ChatGateway.onLeaveRoom Fixtures.anonymous7 10
             Fixtures.storeWithSubscriber in
  sock_user Fixtures.anonymous7 = None
  /\ fst r = ChatGateway.OkRoom 10
  /\ fst r <> ChatGateway.ErrUnauthorized
  /\ newEmits Fixtures.storeWithSubscriber (snd r)
     = [ {| e_target := ToRoom 10; e_event := EvPresence;
            e_payload := PPresence 7 "left" 10 |} ]
  /\ ChatGateway.recipients (snd r) [7; 8] (ToRoom 10) = [8].
Proof.
  simpl. repeat split. discriminate.
Qed.

(* ------------------------------------------------------------------ *)
(** ** SOS escalation engine                                            *)
(* ------------------------------------------------------------------ *)

Lemma fresh_id_not_found (s : Store) :
  alertIdsFresh s ->
  find (fun a => a_id a =? nextId s) (alerts s) = None.
Proof.
  unfold alertIdsFresh. intros H.
  induction (alerts s) as [|a l IH]; simpl; [reflexivity|].
  inversion H as [|? ? Ha Hl]; subst.
  destruct (a_id a =? nextId s) eqn:E.
  - apply Nat.eqb_eq in E. lia.
  - auto.
Qed.

(** The guard of [checkCallStatus]: a resolved, cancelled or answered
    alert is left alone. *)
Lemma checkCallStatus_skips (s : Store) (alertId roomId : ObjectId)
    (alert : SosAlertDocument) :
  find (fun a => a_id a =? alertId) (alerts s) = Some alert ->
  a_status alert = RESOLVED \/ a_status alert = CANCELLED
  \/ a_status alert = PARENT_ANSWERED ->
  SosAlertService.checkCallStatus alertId roomId s = (Ok tt, s).
Proof.
  intros Hfind Hst.
  unfold SosAlertService.checkCallStatus, SosAlertService.findAlertById.
  run_service. rewrite Hfind.
  destruct Hst as [H|[H|H]]; rewrite H; reflexivity.
Qed.

(** The guard of [callEmergency]: a resolved or cancelled alert is left
    alone. *)
Lemma callEmergency_skips (s : Store) (alertId : ObjectId)
    (alert : SosAlertDocument) :
  find (fun a => a_id a =? alertId) (alerts s) = Some alert ->
  a_status alert = RESOLVED \/ a_status alert = CANCELLED ->
  SosAlertService.callEmergency alertId s = (Ok tt, s).
Proof.
  intros Hfind Hst.
  unfold SosAlertService.callEmergency, SosAlertService.findAlertById.
  run_service. rewrite Hfind.
  destruct Hst as [H|H]; rewrite H; reflexivity.
Qed.

(** A timer for an alert that no longer exists does nothing. *)
Lemma checkCallStatus_missing (s : Store) (alertId roomId : ObjectId) :
  find (fun a => a_id a =? alertId) (alerts s) = None ->
  SosAlertService.checkCallStatus alertId roomId s = (Ok tt, s).
Proof.
  intros Hfind.
  unfold SosAlertService.checkCallStatus, SosAlertService.findAlertById.
  run_service. rewrite Hfind. reflexivity.
Qed.

(** The update [callEmergency] applies to the alert, both writes
    together. *)
Lemma callEmergency_run (s : Store) (alertId : ObjectId)
    (alert : SosAlertDocument) (child : ChildDocument) :
  find (fun a => a_id a =? alertId) (alerts s) = Some alert ->
  a_status alert <> RESOLVED -> a_status alert <> CANCELLED ->
  find (fun c => c_id c =? a_child alert) (children s) = Some child ->
  SosAlertService.callEmergency alertId s
  = (Ok tt,
     with_alerts
       (updateFirst (fun a => a_id a =? alertId)
          (fun a =>
             SosAlertService.pushCallHistory
               {| ch_callSid := PHONE_DIALER_196;
                  ch_phoneNumber := SosAlertService.EMERGENCY_NUMBER;
                  ch_callType := CT_EMERGENCY;
                  ch_status := "dialer_opened";
                  ch_answered := false;
                  ch_timestamp := clock s |}
               (SosAlertService.setStatus EMERGENCY_CALLED
                  (SosAlertService.incEmergencyCallAttempts
                     (SosAlertService.setStatus CALLING_EMERGENCY a))))
          (alerts s))
       (with_emitted
          (emitted s ++
           [{| e_target := ToAll; e_event := EvSosEmergency (c_id child);
               e_payload := PSosEmergency alertId "OPEN_PHONE_DIALER"
                              SosAlertService.EMERGENCY_NUMBER (clock s) |}])
          s)).
Proof.
  intros Hfind Hr Hc Hchild.
  unfold SosAlertService.callEmergency, SosAlertService.findAlertById,
    SosAlertService.findChildById, SosAlertService.updateAlert.
  run_service. rewrite Hfind.
  destruct (a_status alert); try congruence;
    rewrite Hchild; simpl;
    rewrite updateFirst_twice by reflexivity; reflexivity.
Qed.

(** A retry of [checkCallStatus]: one more attempt, one more history
    entry, the call offer again, and the next timer. *)
Lemma checkCallStatus_retry_run (s : Store) (alertId roomId : ObjectId)
    (alert : SosAlertDocument) (child : ChildDocument) :
  find (fun a => a_id a =? alertId) (alerts s) = Some alert ->
  a_status alert <> RESOLVED -> a_status alert <> CANCELLED ->
  a_status alert <> PARENT_ANSWERED ->
  a_parentCallAttempts alert < SosAlertService.MAX_PARENT_CALL_ATTEMPTS ->
  find (fun c => c_id c =? a_child alert) (children s) = Some child ->
  SosAlertService.checkCallStatus alertId roomId s
  = (Ok tt,
     with_timers
       (timers s ++ [{| t_due := N.add (clock s) SosAlertService.CHECK_DELAY;
                        t_alertId := alertId; t_roomId := roomId |}])
       (with_emitted
          (emitted s ++
           [{| e_target := ToAll; e_event := EvRoom roomId;
               e_payload :=
                 PSosCallOffer roomId (a_child alert) alertId
                   (SosAlertService.childName child)
                   (Some (a_parentCallAttempts alert + 1)) (clock s) |}])
          (with_alerts
             (updateFirst (fun a => a_id a =? alertId)
                (fun a =>
                   SosAlertService.pushCallHistory
                     (retryCall (a_parentCallAttempts alert + 1) (clock s))
                     (SosAlertService.incParentCallAttempts a))
                (alerts s))
             s))).
Proof.
  intros Hfind Hr Hc Hp Hlt Hchild.
  apply Nat.ltb_lt in Hlt.
  unfold SosAlertService.checkCallStatus, SosAlertService.findAlertById,
    SosAlertService.findChildById, SosAlertService.findUserById,
    SosAlertService.updateAlert.
  run_service. rewrite Hfind.
  destruct (a_status alert); try congruence;
    rewrite Hlt; simpl; rewrite Hchild; reflexivity.
Qed.

(** Once the maximum is reached, [checkCallStatus] is [callEmergency]. *)
Lemma checkCallStatus_escalates (s : Store) (alertId roomId : ObjectId)
    (alert : SosAlertDocument) :
  find (fun a => a_id a =? alertId) (alerts s) = Some alert ->
  a_status alert <> RESOLVED -> a_status alert <> CANCELLED ->
  a_status alert <> PARENT_ANSWERED ->
  SosAlertService.MAX_PARENT_CALL_ATTEMPTS <= a_parentCallAttempts alert ->
  SosAlertService.checkCallStatus alertId roomId s
  = SosAlertService.callEmergency alertId s.
Proof.
  intros Hfind Hr Hc Hp Hge.
  apply Nat.ltb_ge in Hge.
  unfold SosAlertService.checkCallStatus, SosAlertService.findAlertById.
  run_service. rewrite Hfind.
  destruct (a_status alert); try congruence; rewrite Hge; reflexivity.
Qed.

(** C2 fails on the code.  Alert 70 is PARENT_ANSWERED, a terminal
    status; [callEmergency] on it is not a no-op: the alert ends
    EMERGENCY_CALLED with one emergency attempt and a third history
    entry, and the child's device is told to open the dialer. *)
Theorem callEmergency_dials_after_parent_answered :
  let s := Fixtures.storeWithAlert PARENT_ANSWERED in
  let r := SosAlertService.callEmergency 70 s in
  isTerminal PARENT_ANSWERED = true
  /\ fst r = Ok tt
  /\ (exists alert',
        find (fun a => a_id a =? 70) (alerts (snd r)) = Some alert'
        /\ a_status alert' = EMERGENCY_CALLED
        /\ a_emergencyCallAttempts alert' = 1
        /\ a_callHistory alert'
           = (a_callHistory (Fixtures.alert70 PARENT_ANSWERED)
              ++ [emergencyCall 1000%N])%list)
  /\ newEmits s (snd r)
     = [ {| e_target := ToAll; e_event := EvSosEmergency 2;
            e_payload := PSosEmergency 70 "OPEN_PHONE_DIALER" "196" 1000%N |} ].
Proof.
  simpl. repeat split. eexists. repeat split.
Qed.

(** The same happens when a re-check meets an alert that is already
    EMERGENCY_CALLED: the emergency step runs a second time. *)
Example checkCallStatus_redials_after_emergency_called :
  let s := Fixtures.storeWithAlert EMERGENCY_CALLED in
  let r := SosAlertService.checkCallStatus 70 10 s in
  isTerminal EMERGENCY_CALLED = true
  /\ fst r = Ok tt
  /\ (exists alert',
        find (fun a => a_id a =? 70) (alerts (snd r)) = Some alert'
        /\ a_emergencyCallAttempts alert' = 1
        /\ List.length (a_callHistory alert') = 3)
  /\ List.length (newEmits s (snd r)) = 1.
Proof.
  simpl. repeat split. eexists. repeat split.
Qed.

(** The statuses each timer step does guard: on those it writes and emits
    nothing. *)
Lemma timer_steps_inert_on_guarded_statuses (s : Store)
    (alertId roomId : ObjectId) (alert : SosAlertDocument) :
  find (fun a => a_id a =? alertId) (alerts s) = Some alert ->
  (a_status alert = RESOLVED \/ a_status alert = CANCELLED
   \/ a_status alert = PARENT_ANSWERED ->
   SosAlertService.checkCallStatus alertId roomId s = (Ok tt, s))
  /\ (a_status alert = RESOLVED \/ a_status alert = CANCELLED ->
      SosAlertService.callEmergency alertId s = (Ok tt, s)).
Proof.
  intros Hfind. split; intros Hst.
  - eapply checkCallStatus_skips; eauto.
  - eapply callEmergency_skips; eauto.
Qed.

(** A trigger while an active alert exists returns it and writes nothing. *)
Lemma triggerSos_existing_run (s : Store) (childId : ObjectId)
    (user : Principal) (child : ChildDocument) (parent : UserDocument)
    (room : RoomDocument) (existing : SosAlertDocument) :
  canTrigger s childId user child parent room ->
  find (fun a => (a_child a =? childId)
                 && SosAlertService.isActiveStatus (a_status a)) (alerts s)
  = Some existing ->
  SosAlertService.triggerSos childId user s
  = (Ok {| SosAlertService.tr_alert := existing;
           SosAlertService.tr_roomId := r_id room;
           SosAlertService.tr_action := "CALL_INITIATED" |}, s).
Proof.
  intros [Htype [Hid [Hchild [Hparent Hroom]]]] Hactive.
  unfold SosAlertService.triggerSos, SosAlertService.findChildById,
    SosAlertService.findUserById, SosAlertService.findActiveRoom,
    SosAlertService.findActiveAlert, isChildType.
  unfold getUserId in Hid. unfold getUserId.
  rewrite Htype, Hid, Nat.eqb_refl. run_service.
  rewrite Hchild. simpl. rewrite Hparent. simpl. rewrite Hroom. simpl.
  rewrite Hactive. reflexivity.
Qed.

(** A trigger with no active alert: the alert is created, the two
    notifications go out, the first call is recorded and the re-check is
    scheduled. *)
Lemma triggerSos_new_run (s : Store) (childId : ObjectId)
    (user : Principal) (child : ChildDocument) (parent : UserDocument)
    (room : RoomDocument) :
  canTrigger s childId user child parent room ->
  find (fun a => (a_child a =? childId)
                 && SosAlertService.isActiveStatus (a_status a)) (alerts s)
  = None ->
  SosAlertService.triggerSos childId user s
  = (Ok {| SosAlertService.tr_alert := createdAlert s childId child parent room;
           SosAlertService.tr_roomId := r_id room;
           SosAlertService.tr_action := "CALL_INITIATED" |},
     with_timers
       (timers s ++ [{| t_due := N.add (clock s) SosAlertService.CHECK_DELAY;
                        t_alertId := nextId s; t_roomId := r_id room |}])
       (with_alerts
          (updateFirst (fun a => a_id a =? nextId s)
             (SosAlertService.pushCallHistory (initialCall s parent))
             (alerts s ++ [createdAlert s childId child parent room]))
          (with_emitted
             ((emitted s ++
               [{| e_target := ToAll; e_event := EvRoom (r_id room);
                   e_payload :=
                     PSosCallOffer (r_id room) childId (nextId s)
                       (SosAlertService.childName child) None (clock s) |}])
              ++
              [{| e_target := ToAll; e_event := EvSosCall (u_id parent);
                  e_payload :=
                    PSosCall (r_id room) (nextId s) childId
                      (SosAlertService.childName child) (clock s) |}])
             (with_nextId (S (nextId s)) s)))).
Proof.
  intros [Htype [Hid [Hchild [Hparent Hroom]]]] Hactive.
  unfold SosAlertService.triggerSos, SosAlertService.findChildById,
    SosAlertService.findUserById, SosAlertService.findActiveRoom,
    SosAlertService.findActiveAlert, SosAlertService.updateAlert, isChildType.
  unfold getUserId in Hid. unfold getUserId.
  rewrite Htype, Hid, Nat.eqb_refl. run_service.
  rewrite Hchild. simpl. rewrite Hparent. simpl. rewrite Hroom. simpl.
  rewrite Hactive. reflexivity.
Qed.

(** Whatever its outcome, a trigger that throws has written nothing. *)
Lemma triggerSos_throw_inv (s s' : Store) (childId : ObjectId)
    (user : Principal) (e : Exception) :
  SosAlertService.triggerSos childId user s = (Throw e, s') -> s' = s.
Proof.
  unfold SosAlertService.triggerSos, SosAlertService.findChildById,
    SosAlertService.findUserById, SosAlertService.findActiveRoom,
    SosAlertService.findActiveAlert, SosAlertService.updateAlert, getUserId.
  run_service.
  destruct (isChildType user); simpl; [|intros H; inversion H; reflexivity].
  destruct (p_id user =? childId); simpl;
    [|intros H; inversion H; reflexivity].
  destruct (find (fun c => c_id c =? childId) (children s)) as [child|];
    simpl; [|intros H; inversion H; reflexivity].
  destruct (find (fun u => u_id u =? c_parent child) (users s)) as [parent|];
    simpl; [|intros H; inversion H; reflexivity].
  destruct (find _ (rooms s)) as [room|];
    simpl; [|intros H; inversion H; reflexivity].
  destruct (find _ (alerts s)); simpl; intros H; inversion H.
Qed.

Section ActiveCount.

Variable q : SosAlertDocument -> bool.

Lemma filter_updateFirst_length (p : SosAlertDocument -> bool)
    (f : SosAlertDocument -> SosAlertDocument) (l : list SosAlertDocument) :
  (forall x, q (f x) = q x) ->
  List.length (filter q (updateFirst p f l)) = List.length (filter q l).
Proof.
  intros Hq. induction l as [|x l IH]; simpl; [reflexivity|].
  destruct (p x); simpl.
  - rewrite Hq. destruct (q x); reflexivity.
  - destruct (q x); simpl; rewrite IH; reflexivity.
Qed.

Lemma filter_find_none (l : list SosAlertDocument) :
  find q l = None -> filter q l = [].
Proof.
  induction l as [|x l IH]; simpl; [reflexivity|].
  destruct (q x); [discriminate | exact IH].
Qed.

(** An update that leaves no more alerts selected than before. *)
Lemma filter_updateFirst_le (p : SosAlertDocument -> bool)
    (f : SosAlertDocument -> SosAlertDocument) (l : list SosAlertDocument) :
  (forall x, q (f x) = true -> q x = true) ->
  List.length (filter q (updateFirst p f l)) <= List.length (filter q l).
Proof.
  intros Hq. induction l as [|x l IH]; simpl; [lia|].
  destruct (p x); simpl.
  - destruct (q (f x)) eqn:E.
    + rewrite (Hq x E). simpl. lia.
    + destruct (q x); simpl; lia.
  - destruct (q x); simpl; lia.
Qed.

End ActiveCount.

(** [triggerSos] keeps the invariant, whoever calls it and whatever it
    returns. *)
Lemma triggerSos_preserves_atMostOneActive (s : Store) (childId : ObjectId)
    (user : Principal) :
  atMostOneActive s ->
  atMostOneActive (snd (SosAlertService.triggerSos childId user s)).
Proof.
  intros Hinv.
  destruct (SosAlertService.triggerSos childId user s) as [[r|e] s'] eqn:Erun;
    simpl; [|apply triggerSos_throw_inv in Erun; subst; exact Hinv].
  revert Erun.
  unfold SosAlertService.triggerSos, SosAlertService.findChildById,
    SosAlertService.findUserById, SosAlertService.findActiveRoom,
    SosAlertService.findActiveAlert, SosAlertService.updateAlert, getUserId.
  run_service.
  destruct (isChildType user); simpl; [|discriminate].
  destruct (p_id user =? childId); simpl; [|discriminate].
  destruct (find (fun c => c_id c =? childId) (children s)) as [child|];
    simpl; [|discriminate].
  destruct (find (fun u => u_id u =? c_parent child) (users s)) as [parent|];
    simpl; [|discriminate].
  destruct (find _ (rooms s)) as [room|]; simpl; [|discriminate].
  destruct (find _ (alerts s)) as [existing|] eqn:Eact; simpl;
    intros H; inversion H; subst; clear H; [exact Hinv|].
  intros c. simpl.
  rewrite filter_updateFirst_length by reflexivity.
  rewrite filter_app, length_app. simpl.
  destruct (childId =? c) eqn:Ec; simpl.
  - apply Nat.eqb_eq in Ec. subst c.
    rewrite (filter_find_none _ _ Eact). simpl. lia.
  - specialize (Hinv c). simpl. lia.
Qed.

(** One request at a time.  When the caller may trigger (the child
    itself, with its parent and their active room on record) and the
    request runs to completion before the next one starts: if an active
    alert (PENDING,
    CALLING_PARENT or CALLING_EMERGENCY) exists for the child,
    [triggerSos] returns that alert and leaves the whole store as it was
    (no new alert, no counter change, no history entry, no emission, no
    timer); otherwise it creates one alert with status CALLING_PARENT and
    parentCallAttempts 1, stored after the existing ones.  In every case
    [triggerSos] preserves "at most one active alert per child". *)
Theorem triggerSos_single_active_alert (s : Store) (childId : ObjectId)
    (user : Principal) (child : ChildDocument) (parent : UserDocument)
    (room : RoomDocument) :
  canTrigger s childId user child parent room ->
  (forall existing,
      find (fun a => (a_child a =? childId)
                     && SosAlertService.isActiveStatus (a_status a)) (alerts s)
      = Some existing ->
      SosAlertService.triggerSos childId user s
      = (Ok {| SosAlertService.tr_alert := existing;
               SosAlertService.tr_roomId := r_id room;
               SosAlertService.tr_action := "CALL_INITIATED" |}, s))
  /\ (find (fun a => (a_child a =? childId)
                     && SosAlertService.isActiveStatus (a_status a)) (alerts s)
      = None ->
      exists created s',
        SosAlertService.triggerSos childId user s
        = (Ok {| SosAlertService.tr_alert := created;
                 SosAlertService.tr_roomId := r_id room;
                 SosAlertService.tr_action := "CALL_INITIATED" |}, s')
        /\ a_child created = childId
        /\ a_status created = CALLING_PARENT
        /\ a_parentCallAttempts created = 1
        /\ (alertIdsFresh s ->
            alerts s'
            = (alerts s
               ++ [SosAlertService.pushCallHistory (initialCall s parent)
                     created])%list))
  /\ (atMostOneActive s ->
      atMostOneActive (snd (SosAlertService.triggerSos childId user s))).
Proof.
  intros Hcan. split; [|split].
  - intros existing Hact. eapply triggerSos_existing_run; eauto.
  - intros Hnone.
    exists (createdAlert s childId child parent room). eexists.
    split; [apply triggerSos_new_run; assumption|].
    repeat split.
    intros Hfresh. simpl.
    rewrite updateFirst_app_miss by (apply fresh_id_not_found; exact Hfresh).
    simpl. rewrite Nat.eqb_refl. reflexivity.
  - apply triggerSos_preserves_atMostOneActive.
Qed.

Lemma canTrigger_fixture :
  canTrigger Fixtures.store0 2 Fixtures.child2 Fixtures.childDoc2
    Fixtures.userDoc1 Fixtures.room10.
Proof. repeat split. Qed.

Lemma triggerSos_single_active_alert_witness :
  canTrigger Fixtures.store0 2 Fixtures.child2 Fixtures.childDoc2
    Fixtures.userDoc1 Fixtures.room10
  /\ exists created s',
       SosAlertService.triggerSos 2 Fixtures.child2 Fixtures.store0
       = (Ok {| SosAlertService.tr_alert := created;
                SosAlertService.tr_roomId := 10;
                SosAlertService.tr_action := "CALL_INITIATED" |}, s')
       /\ a_child created = 2
       /\ a_status created = CALLING_PARENT
       /\ a_parentCallAttempts created = 1
       /\ (alertIdsFresh Fixtures.store0 ->
           alerts s'
           = (alerts Fixtures.store0
              ++ [SosAlertService.pushCallHistory
                    (initialCall Fixtures.store0 Fixtures.userDoc1)
                    created])%list).
Proof.
  split; [exact canTrigger_fixture|].
  apply (triggerSos_single_active_alert Fixtures.store0 2 Fixtures.child2
           Fixtures.childDoc2 Fixtures.userDoc1 Fixtures.room10
           canTrigger_fixture).
  reflexivity.
Defined.

(** Scenario of the specification: the first trigger creates alert 100;
    a second trigger before resolution returns the same alert and leaves
    the store alone. *)
Example second_trigger_returns_same_alert :
  let first := SosAlertService.triggerSos 2 Fixtures.child2 Fixtures.store0 in
  let second := SosAlertService.triggerSos 2 Fixtures.child2 (snd first) in
  exists a1 a2,
    fst first = Ok {| SosAlertService.tr_alert := a1;
                      SosAlertService.tr_roomId := 10;
                      SosAlertService.tr_action := "CALL_INITIATED" |}
    /\ fst second = Ok {| SosAlertService.tr_alert := a2;
                          SosAlertService.tr_roomId := 10;
                          SosAlertService.tr_action := "CALL_INITIATED" |}
    /\ a_id a1 = 100 /\ a_id a2 = 100
    /\ a_parentCallAttempts a2 = 1
    /\ List.length (a_callHistory a2) = 1
    /\ snd second = snd first.
Proof.
  simpl. eexists. eexists. repeat split.
Qed.

(** The two halves of [triggerSos], run one after the other with nothing
    in between, are [triggerSos]. *)
Lemma triggerSos_read_then_resume (childId : ObjectId) (user : Principal)
    (s : Store) :
  SosAlertService.triggerSos childId user s
  = (rd <- SosAlertService.triggerSosRead childId user ;;
     SosAlertService.triggerSosResume childId rd) s.
Proof.
  unfold SosAlertService.triggerSos, SosAlertService.triggerSosRead,
    SosAlertService.triggerSosResume, SosAlertService.findChildById,
    SosAlertService.findUserById, SosAlertService.findActiveRoom,
    SosAlertService.findActiveAlert, SosAlertService.updateAlert.
  run_service.
  destruct (isChildType user); simpl; [|reflexivity].
  destruct (getUserId user =? childId); simpl; [|reflexivity].
  destruct (find (fun c => c_id c =? childId) (children s)) as [child|];
    simpl; [|reflexivity].
  destruct (find (fun u => u_id u =? c_parent child) (users s)) as [parent|];
    simpl; [|reflexivity].
  destruct (find (fun r => (r_parent r =? c_parent child)
                           && (r_child r =? childId) && r_isActive r)
              (rooms s)) as [room|]; simpl; [|reflexivity].
  destruct (find (fun a => (a_child a =? childId)
                           && SosAlertService.isActiveStatus (a_status a))
              (alerts s)); reflexivity.
Qed.

(** C1 fails on the code.  Child 2 sends two triggers that are in flight
    at once on a store without alerts: the second request performs its
    reads, the active-alert lookup of line 75 included, while the first
    is suspended between that lookup and the creation of line 90.  Both
    have read "no active alert", so both create one: alerts 100 and 101
    of child 2 are stored, both CALLING_PARENT, and "at most one active
    alert per child", true before, is false after. *)
Theorem concurrent_triggers_leave_two_active_alerts :
  exists readA readB resultA resultB sA sB,
    SosAlertService.triggerSosRead 2 Fixtures.child2 Fixtures.store0
    = (Ok readA, Fixtures.store0)
    /\ SosAlertService.triggerSosRead 2 Fixtures.child2 Fixtures.store0
       = (Ok readB, Fixtures.store0)
    /\ SosAlertService.tg_activeAlert readA = None
    /\ SosAlertService.tg_activeAlert readB = None
    /\ SosAlertService.triggerSosResume 2 readA Fixtures.store0
       = (Ok resultA, sA)
    /\ SosAlertService.triggerSosResume 2 readB sA = (Ok resultB, sB)
    /\ a_id (SosAlertService.tr_alert resultA) = 100
    /\ a_id (SosAlertService.tr_alert resultB) = 101
    /\ map (fun a => (a_id a, a_child a, a_status a)) (alerts sB)
       = [(100, 2, CALLING_PARENT); (101, 2, CALLING_PARENT)]
    /\ map (fun a => SosAlertService.isActiveStatus (a_status a)) (alerts sB)
       = [true; true]
    /\ atMostOneActive Fixtures.store0
    /\ ~ atMostOneActive sB.
Proof.
  eexists. eexists. eexists. eexists. eexists. eexists.
  split; [cbv; reflexivity|]. split; [cbv; reflexivity|].
  split; [reflexivity|]. split; [reflexivity|].
  split; [cbv; reflexivity|]. split; [cbv; reflexivity|].
  split; [reflexivity|]. split; [reflexivity|].
  split; [reflexivity|]. split; [reflexivity|].
  split.
  - intros c. simpl. lia.
  - intros H. specialize (H 2). simpl in H. lia.
Qed.

Local Arguments N.add : simpl never.
Local Arguments N.leb : simpl never.

(** The same run, evaluated: the alert after the two re-checks. *)
Example escalation_run :
  let s1 := snd (SosAlertService.triggerSos 2 Fixtures.child2 Fixtures.store0) in
  let s2 := option_map snd
              (SosAlertService.fireTimer (SosAlertService.advance 30000%N s1)) in
  let s3 := match s2 with
            | Some s2 => option_map snd
                (SosAlertService.fireTimer (SosAlertService.advance 30000%N s2))
            | None => None
            end in
  option_map (fun s3 => map (fun a => (a_status a, a_parentCallAttempts a,
                                       a_emergencyCallAttempts a,
                                       map ch_phoneNumber (a_callHistory a)))
                          (alerts s3)) s3
  = Some [ (EMERGENCY_CALLED, 2, 1, ["+21612345678"; "N/A"; "196"]) ].
Proof. vm_compute. reflexivity. Qed.

(** What the array-filtered update does to a call history: positions and
    length are kept, every unanswered PARENT entry becomes answered, and
    every other entry is left as it was. *)
Lemma answerFiltered_spec (h : list CallHistoryEntry) :
  List.length (SosAlertService.answerFiltered h) = List.length h
  /\ (forall i e, nth_error h i = Some e ->
        nth_error (SosAlertService.answerFiltered h) i
        = Some (if SosAlertService.unansweredParentCall e
                then SosAlertService.markAnswered e else e))
  /\ Forall (fun e => SosAlertService.unansweredParentCall e = false)
       (SosAlertService.answerFiltered h).
Proof.
  unfold SosAlertService.answerFiltered. split; [apply length_map|]. split.
  - intros i e H. rewrite nth_error_map, H. reflexivity.
  - apply Forall_forall. intros e He. apply in_map_iff in He.
    destruct He as [e0 [He0 _]]. subst e.
    destruct (SosAlertService.unansweredParentCall e0) eqn:E; [|exact E].
    unfold SosAlertService.unansweredParentCall, SosAlertService.markAnswered.
    simpl. destruct (ch_callType e0); reflexivity.
Qed.





(* ------------------------------------------------------------------ *)
(** ** The single-active-alert invariant along runs of the engine       *)
(* ------------------------------------------------------------------ *)

Lemma updateFirst_same {A : Type} (p : A -> bool) (l : list A) :
  updateFirst p (fun a => a) l = l.
Proof.
  induction l as [|x l IH]; simpl; [reflexivity|].
  destruct (p x); [reflexivity | rewrite IH; reflexivity].
Qed.

Lemma alertsEvolve_refl (s s' : Store) :
  children s' = children s -> nextId s' = nextId s ->
  alerts s' = alerts s -> alertsEvolve s s'.
Proof.
  intros Hc Hn Ha. split; [exact Hc|]. split; [exact Hn|].
  exists (fun _ => false), (fun a => a). split.
  - intros a. repeat split; auto.
  - rewrite updateFirst_same. exact Ha.
Qed.

(** A benign update keeps any property of alerts that only depends on
    what it preserves. *)
Lemma Forall_updateFirst (P : SosAlertDocument -> Prop)
    (p : SosAlertDocument -> bool) (f : SosAlertDocument -> SosAlertDocument)
    (l : list SosAlertDocument) :
  (forall a, P a -> P (f a)) ->
  Forall P l -> Forall P (updateFirst p f l).
Proof.
  intros Hf Hl. induction Hl as [|x l Hx Hl IH]; simpl.
  - constructor.
  - destruct (p x); constructor; auto.
Qed.

Lemma alertsEvolve_keeps (s s' : Store) :
  alertsEvolve s s' -> engineInvariant s -> engineInvariant s'.
Proof.
  intros [Hchildren [Hnext [p [f [Hf Halerts]]]]] [Hone [Hrec Hfresh]].
  split; [|split].
  - intros c. rewrite Halerts.
    eapply Nat.le_trans; [|apply (Hone c)].
    apply filter_updateFirst_le. intros x Hx.
    destruct (Hf x) as [_ [Hchild Hact]]. rewrite Hchild in Hx.
    apply andb_true_iff in Hx. destruct Hx as [Hx1 Hx2].
    rewrite Hx1, (Hact Hx2). reflexivity.
  - unfold alertChildrenOnRecord in *. rewrite Halerts, Hchildren.
    apply Forall_updateFirst; [|exact Hrec].
    intros a Ha. destruct (Hf a) as [_ [Hchild _]].
    rewrite Hchild. exact Ha.
  - unfold alertIdsFresh in *. rewrite Halerts, Hnext.
    apply Forall_updateFirst; [|exact Hfresh].
    intros a Ha. destruct (Hf a) as [Hid _]. rewrite Hid. exact Ha.
Qed.

Lemma found_alert_child (s : Store) (alertId : ObjectId)
    (alert : SosAlertDocument) :
  alertChildrenOnRecord s ->
  find (fun a => a_id a =? alertId) (alerts s) = Some alert ->
  exists c, find (fun c => c_id c =? a_child alert) (children s) = Some c.
Proof.
  intros Hrec Hfind. apply find_some_holds in Hfind.
  destruct Hfind as [_ Hin].
  unfold alertChildrenOnRecord in Hrec. rewrite Forall_forall in Hrec.
  apply Hrec. exact Hin.
Qed.

Ltac benign_update :=
  split; [reflexivity|]; split; [reflexivity|];
  eexists; eexists; split; [|reflexivity];
  intros ?; split; [reflexivity|];
  split; [reflexivity | simpl; try discriminate; auto].

Lemma checkCallStatus_evolves (s : Store) (alertId roomId : ObjectId) :
  alertChildrenOnRecord s ->
  alertsEvolve s (snd (SosAlertService.checkCallStatus alertId roomId s)).
Proof.
  intros Hrec.
  destruct (find (fun a => a_id a =? alertId) (alerts s)) as [alert|]
    eqn:Hfind.
  - destruct (found_alert_child s alertId alert Hrec Hfind) as [c Hc].
    destruct (Nat.lt_ge_cases (a_parentCallAttempts alert)
                SosAlertService.MAX_PARENT_CALL_ATTEMPTS) as [Hlt|Hge];
      destruct (a_status alert) eqn:Est;
      try (rewrite (checkCallStatus_skips s alertId roomId alert Hfind)
             by (rewrite Est; auto);
           apply alertsEvolve_refl; reflexivity).
    all: try (rewrite (checkCallStatus_retry_run s alertId roomId alert c)
                by (congruence || assumption);
              benign_update).
    all: rewrite (checkCallStatus_escalates s alertId roomId alert)
           by (congruence || assumption);
         rewrite (callEmergency_run s alertId alert c)
           by (congruence || assumption);
         benign_update.
  - rewrite checkCallStatus_missing by exact Hfind.
    apply alertsEvolve_refl; reflexivity.
Qed.

Lemma markParentAnswered_evolves (s : Store) (alertId : ObjectId)
    (user : Principal) :
  alertsEvolve s (snd (SosAlertService.markParentAnswered alertId user s)).
Proof.
  unfold SosAlertService.markParentAnswered, SosAlertService.findAlertById,
    SosAlertService.findUserById, SosAlertService.findChildById,
    SosAlertService.updateAlert.
  run_service.
  destruct (find (fun a => a_id a =? alertId) (alerts s)) as [alert|]; simpl;
    [|apply alertsEvolve_refl; reflexivity].
  destruct (find (fun u => u_id u =? a_parent alert) (users s)) as [parent|];
    simpl; [|apply alertsEvolve_refl; reflexivity].
  destruct (getUserId user =? u_id parent); simpl;
    [|apply alertsEvolve_refl; reflexivity].
  destruct (find (fun c => c_id c =? a_child alert) (children s)); simpl;
    benign_update.
Qed.

Lemma resolveAlert_evolves (s : Store) (alertId : ObjectId)
    (user : Principal) :
  alertsEvolve s (snd (SosAlertService.resolveAlert alertId user s)).
Proof.
  unfold SosAlertService.resolveAlert, SosAlertService.findAlertById,
    SosAlertService.findChildById, SosAlertService.updateAlert.
  run_service.
  destruct (find (fun a => a_id a =? alertId) (alerts s)) as [alert|]; simpl;
    [|apply alertsEvolve_refl; reflexivity].
  destruct (isChildType user); simpl.
  - destruct (find (fun c => c_id c =? a_child alert) (children s)) as [c|];
      simpl; [|apply alertsEvolve_refl; reflexivity].
    destruct (c_id c =? getUserId user); simpl;
      [benign_update | apply alertsEvolve_refl; reflexivity].
  - destruct (isAdminRole user); simpl; [benign_update|].
    destruct (find (fun c => c_id c =? a_child alert) (children s)) as [c|];
      simpl; [|apply alertsEvolve_refl; reflexivity].
    destruct (getUserId user =? c_parent c); simpl; [benign_update|].
    destruct (c_linkedParents c) as [linked|]; simpl;
      [|apply alertsEvolve_refl; reflexivity].
    destruct (existsb (fun p => p =? getUserId user) linked); simpl;
      [benign_update | apply alertsEvolve_refl; reflexivity].
Qed.

Lemma triggerSos_keeps_records (s : Store) (childId : ObjectId)
    (user : Principal) :
  alertChildrenOnRecord s /\ alertIdsFresh s ->
  alertChildrenOnRecord (snd (SosAlertService.triggerSos childId user s))
  /\ alertIdsFresh (snd (SosAlertService.triggerSos childId user s)).
Proof.
  intros [Hrec Hfresh].
  destruct (SosAlertService.triggerSos childId user s) as [[r|e] s'] eqn:Erun;
    simpl; [|apply triggerSos_throw_inv in Erun; subst; split; assumption].
  revert Erun.
  unfold SosAlertService.triggerSos, SosAlertService.findChildById,
    SosAlertService.findUserById, SosAlertService.findActiveRoom,
    SosAlertService.findActiveAlert, SosAlertService.updateAlert, getUserId.
  run_service.
  destruct (isChildType user); simpl; [|discriminate].
  destruct (p_id user =? childId); simpl; [|discriminate].
  destruct (find (fun c => c_id c =? childId) (children s)) as [child|]
    eqn:Hchild; simpl; [|discriminate].
  destruct (find (fun u => u_id u =? c_parent child) (users s)) as [parent|];
    simpl; [|discriminate].
  destruct (find _ (rooms s)) as [room|]; simpl; [|discriminate].
  destruct (find _ (alerts s)) as [existing|]; simpl;
    intros H; inversion H; subst; clear H; [split; assumption|].
  unfold alertChildrenOnRecord, alertIdsFresh in *. simpl. split.
  - apply Forall_updateFirst; [intros a Ha; exact Ha|].
    apply Forall_app. split; [exact Hrec|].
    constructor; [|constructor]. simpl. exists child. exact Hchild.
  - apply Forall_updateFirst; [intros a Ha; exact Ha|].
    apply Forall_app. split.
    + eapply Forall_impl; [|exact Hfresh]. simpl. intros a Ha. lia.
    + constructor; [|constructor]. simpl. lia.
Qed.

Lemma sosStep_keeps (s s' : Store) :
  sosStep s s' -> engineInvariant s -> engineInvariant s'.
Proof.
  intros Hstep Hinv. destruct Hstep.
  - destruct Hinv as [Hone Hrest]. split.
    + apply triggerSos_preserves_atMostOneActive. exact Hone.
    + apply triggerSos_keeps_records. exact Hrest.
  - unfold SosAlertService.fireTimer in H.
    destruct (timers s) as [|t rest]; [discriminate|].
    destruct (N.leb (t_due t) (clock s)); [|discriminate].
    inversion H as [Hrun].
    pose proof (checkCallStatus_evolves (with_timers rest s)
                  (t_alertId t) (t_roomId t) (proj1 (proj2 Hinv))) as Hev.
    rewrite Hrun in Hev. simpl in Hev.
    apply (alertsEvolve_keeps s s'); [exact Hev | exact Hinv].
  - apply (alertsEvolve_keeps s); [apply markParentAnswered_evolves|].
    exact Hinv.
  - apply (alertsEvolve_keeps s); [apply resolveAlert_evolves|].
    exact Hinv.
  - exact Hinv.
Qed.

(** Along every run of the engine (triggers, timer callbacks, answers,
    resolutions, time passing, each run to completion) that starts in a
    store with at most one active alert per child, every alert's child on
    record and no alert id ahead of the generator, every store has at
    most one active alert per child, and stored alert ids stay below the
    generator. *)
Lemma single_active_alert_along_runs (s0 s : Store) :
  engineInvariant s0 -> sosReachable s0 s ->
  atMostOneActive s /\ alertIdsFresh s.
Proof.
  intros Hinv Hreach.
  assert (H : engineInvariant s).
  { induction Hreach as [|s s' _ IH Hstep].
    - exact Hinv.
    - eapply sosStep_keeps; eauto. }
  destruct H as [Hone [_ Hfresh]]. split; assumption.
Qed.

(** A store without alerts satisfies the invariant. *)
Lemma engineInvariant_no_alerts (s : Store) :
  alerts s = [] -> engineInvariant s.
Proof.
  intros H. unfold engineInvariant, atMostOneActive, alertChildrenOnRecord,
    alertIdsFresh. rewrite H. simpl. repeat split; auto.
Qed.

(* ------------------------------------------------------------------ *)
(** ** Scenarios of the specification, evaluated                        *)
(* ------------------------------------------------------------------ *)

(** A message whose room is gone cannot be deleted by anyone: the lookup
    of the room fails first. *)
Lemma deleteMessage_orphan (s : Store) (messageId : ObjectId)
    (user : Principal) (message : MessageDocument) :
  find (fun m => m_id m =? messageId) (messages s) = Some message ->
  find (fun r => r_id r =? m_room message) (rooms s) = None ->
  MessageService.deleteMessage messageId user s = (Throw NotFoundException, s).
Proof.
  intros Hmsg Hroom.
  unfold MessageService.deleteMessage, MessageService.findMessageById,
    MessageService.findRoomById.
  run_service. rewrite Hmsg. simpl. rewrite Hroom. reflexivity.
Qed.

(** [sendText] goes through whenever the room exists, the caller has
    access and the sender is valid. *)
Lemma sendText_succeeds (dto : MessageService.SendTextDto) (user : Principal)
    (s : Store) (room : RoomDocument) :
  find (fun r => r_id r =? MessageService.st_roomId dto) (rooms s) = Some room ->
  MessageService.assertRoomAccess room user = Ok tt ->
  MessageService.validateSender room (MessageService.st_senderModel dto)
    (MessageService.st_senderId dto) s = (Ok tt, s) ->
  exists msg s', MessageService.sendText dto user s = (Ok msg, s').
Proof.
  intros Hroom Hacc Hval.
  unfold MessageService.sendText, MessageService.findRoomById,
    MessageService.setLastMessage, MessageService.createMessage.
  run_service. rewrite Hroom. simpl. rewrite Hacc. simpl. rewrite Hval. simpl.
  eexists. eexists. reflexivity.
Qed.

(** An invited parent sends a text: it is stored and projected.  A parent
    who is neither primary, invited nor linked is refused. *)
Example invited_parent_text_is_projected :
  let dto := {| MessageService.st_roomId := 10;
                MessageService.st_text := Some "bonjour";
                MessageService.st_senderModel := User;
                MessageService.st_senderId := 3 |} in
  let r := MessageService.sendText dto Fixtures.invited3 Fixtures.store0 in
  map m_text (messages (snd r)) = [Some "bonjour"]
  /\ map (fun room => option_map lm_text (r_lastMessage room)) (rooms (snd r))
     = [Some (Some "bonjour")].
Proof. split; reflexivity. Qed.

Example stranger_text_is_refused :
  let dto := {| MessageService.st_roomId := 10;
                MessageService.st_text := Some "bonjour";
                MessageService.st_senderModel := User;
                MessageService.st_senderId := 5 |} in
  MessageService.sendText dto Fixtures.stranger5 Fixtures.store0
  = (Throw ForbiddenException, Fixtures.store0)
  /\ MessageService.validateSender Fixtures.room10 User 5 Fixtures.store0
     = (Throw ForbiddenException, Fixtures.store0).
Proof. split; reflexivity. Qed.

(** A linked parent passes [validateSender] through the fallback but not
    [assertRoomAccess]. *)
Example linked_parent_valid_sender_without_access :
  MessageService.validateSender Fixtures.room10 User 4 Fixtures.store0
  = (Ok tt, Fixtures.store0)
  /\ MessageService.assertRoomAccess Fixtures.room10 Fixtures.linked4
     = Throw ForbiddenException.
Proof. split; reflexivity. Qed.

(** An ICE candidate without a [candidate] field is rejected before
    anything is stored. *)
Example ice_candidate_without_candidate_rejected :
  MessageService.sendSignal
    {| MessageService.sg_roomId := 10;
       MessageService.sg_senderModel := User;
       MessageService.sg_senderId := 1;
       MessageService.sg_type := "ICE_CANDIDATE";
       MessageService.sg_payload := [("sdpMid", "0")] |}
    Fixtures.parent1 Fixtures.store0
  = (Throw BadRequestException, Fixtures.store0).
Proof. reflexivity. Qed.

(** A signal of the parent is stored and leaves the room document as it
    was. *)
Example call_offer_keeps_projection :
  let r := MessageService.sendSignal
             {| MessageService.sg_roomId := 10;
                MessageService.sg_senderModel := User;
                MessageService.sg_senderId := 1;
                MessageService.sg_type := "CALL_OFFER";
                MessageService.sg_payload := [("sdp", "v=0")] |}
             Fixtures.parent1 Fixtures.store0 in
  map m_type (messages (snd r)) = [CALL_OFFER]
  /\ rooms (snd r) = rooms Fixtures.store0.
Proof. split; reflexivity. Qed.

(* ------------------------------------------------------------------ *)
(** ** Keyed collections                                                *)
(* ------------------------------------------------------------------ *)

Section Keyed.

Context {A : Type}.
Variable key : A -> nat.

Lemma find_key_unique (l : list A) (x : A) :
  NoDup (map key l) -> In x l ->
  find (fun y => key y =? key x) l = Some x.
Proof.
  induction l as [|y l IH]; simpl; intros Hnd Hin; [contradiction|].
  inversion Hnd as [|? ? Hnotin Hnd']; subst.
  destruct Hin as [Heq|Hin].
  - subst y. rewrite Nat.eqb_refl. reflexivity.
  - destruct (key y =? key x) eqn:E.
    + apply Nat.eqb_eq in E. exfalso. apply Hnotin. rewrite E.
      apply in_map. exact Hin.
    + apply IH; assumption.
Qed.

Lemma find_key_none (l : list A) (k : nat) :
  ~ In k (map key l) -> find (fun y => key y =? k) l = None.
Proof.
  induction l as [|y l IH]; simpl; intros Hn; [reflexivity|].
  destruct (key y =? k) eqn:E.
  - apply Nat.eqb_eq in E. exfalso. apply Hn. left. exact E.
  - apply IH. intros H. apply Hn. right. exact H.
Qed.

Lemma updateFirst_keeps_keys (p : A -> bool) (f : A -> A) (l : list A) :
  (forall x, key (f x) = key x) ->
  map key (updateFirst p f l) = map key l.
Proof.
  intros Hf. induction l as [|y l IH]; simpl; [reflexivity|].
  destruct (p y); simpl; [rewrite Hf | rewrite IH]; reflexivity.
Qed.

(** With distinct keys, updating by key rewrites exactly the document
    that carries the key. *)
Lemma updateFirst_by_key (f : A -> A) (l : list A) (k : nat) :
  NoDup (map key l) ->
  updateFirst (fun y => key y =? k) f l
  = map (fun y => if key y =? k then f y else y) l.
Proof.
  induction l as [|y l IH]; simpl; intros Hnd; [reflexivity|].
  inversion Hnd as [|? ? Hnotin Hnd']; subst.
  destruct (key y =? k) eqn:E.
  - apply Nat.eqb_eq in E. f_equal.
    rewrite <- (map_id l) at 1. apply map_ext_in.
    intros z Hz. destruct (key z =? k) eqn:Ez; [|reflexivity].
    apply Nat.eqb_eq in Ez. exfalso. apply Hnotin. rewrite E, <- Ez.
    apply in_map. exact Hz.
  - rewrite IH by assumption. reflexivity.
Qed.

End Keyed.

Section KeyedRemoval.

Context {A : Type}.
Variable key : A -> nat.

Lemma find_replaced (l : list A) (k : nat) (x y : A) :
  find (fun a => key a =? k) l = Some x -> key y = k ->
  find (fun a => key a =? k)
    (updateFirst (fun a => key a =? k) (fun _ => y) l) = Some y.
Proof.
  intros Hfind Hy. induction l as [|z l IH]; simpl in *; [discriminate|].
  destruct (key z =? k) eqn:E; simpl.
  - rewrite Hy, Nat.eqb_refl. reflexivity.
  - rewrite E. apply IH. exact Hfind.
Qed.

Lemma find_other_updateFirst (l : list A) (k k' : nat) (f : A -> A) :
  k' <> k -> (forall a, key (f a) = key a) ->
  find (fun a => key a =? k')
    (updateFirst (fun a => key a =? k) f l)
  = find (fun a => key a =? k') l.
Proof.
  intros Hk Hf. induction l as [|z l IH]; simpl; [reflexivity|].
  destruct (key z =? k) eqn:E; simpl.
  - rewrite Hf. apply Nat.eqb_eq in E.
    destruct (key z =? k') eqn:E'; [|reflexivity].
    apply Nat.eqb_eq in E'. congruence.
  - rewrite IH. reflexivity.
Qed.

Lemma find_removed (l : list A) (k : nat) :
  NoDup (map key l) ->
  find (fun a => key a =? k) (removeFirst (fun a => key a =? k) l) = None.
Proof.
  induction l as [|z l IH]; simpl; intros Hnd; [reflexivity|].
  inversion Hnd as [|? ? Hnotin Hnd']; subst.
  destruct (key z =? k) eqn:E; simpl.
  - apply Nat.eqb_eq in E. apply find_key_none. rewrite <- E. exact Hnotin.
  - rewrite E. apply IH. exact Hnd'.
Qed.

Lemma find_other_removed (l : list A) (k k' : nat) :
  k' <> k ->
  find (fun a => key a =? k') (removeFirst (fun a => key a =? k) l)
  = find (fun a => key a =? k') l.
Proof.
  intros Hk. induction l as [|z l IH]; simpl; [reflexivity|].
  destruct (key z =? k) eqn:E; simpl.
  - apply Nat.eqb_eq in E.
    destruct (key z =? k') eqn:E'; [|reflexivity].
    apply Nat.eqb_eq in E'. congruence.
  - rewrite IH. reflexivity.
Qed.

Lemma length_removed (l : list A) (k : nat) (x : A) :
  find (fun a => key a =? k) l = Some x ->
  S (List.length (removeFirst (fun a => key a =? k) l)) = List.length l.
Proof.
  induction l as [|z l IH]; simpl; intros Hfind; [discriminate|].
  destruct (key z =? k); simpl; [reflexivity|]. rewrite IH; auto.
Qed.

End KeyedRemoval.

Section Filtering.

Context {A : Type}.
Variable q : A -> bool.

Lemma find_map_kept (g : A -> A) (l : list A) :
  (forall x, q (g x) = q x) ->
  find q (map g l) = option_map g (find q l).
Proof.
  intros Hg. induction l as [|y l IH]; simpl; [reflexivity|].
  rewrite Hg. destruct (q y); [reflexivity | exact IH].
Qed.

Lemma filter_length_updateFirst (p : A -> bool) (f : A -> A) (l : list A) :
  (forall x, q (f x) = q x) ->
  List.length (filter q (updateFirst p f l)) = List.length (filter q l).
Proof.
  intros Hq. induction l as [|x l IH]; simpl; [reflexivity|].
  destruct (p x); simpl.
  - rewrite Hq. destruct (q x); reflexivity.
  - destruct (q x); simpl; rewrite IH; reflexivity.
Qed.

Lemma filter_nil_of_find (l : list A) :
  find q l = None -> filter q l = [].
Proof.
  induction l as [|x l IH]; simpl; [reflexivity|].
  destruct (q x); [discriminate | exact IH].
Qed.

Lemma find_of_filter_le_1 (l : list A) (x y : A) :
  List.length (filter q l) <= 1 -> In x l -> q x = true ->
  find q l = Some y -> x = y.
Proof.
  induction l as [|z l IH]; simpl; intros Hlen Hin Hq Hfind; [contradiction|].
  destruct (q z) eqn:Ez.
  - inversion Hfind; subst z. simpl in Hlen.
    destruct Hin as [Heq|Hin]; [symmetry; exact Heq|].
    assert (Hx : In x (filter q l)) by (apply filter_In; auto).
    destruct (filter q l); [contradiction | simpl in Hlen; lia].
  - destruct Hin as [Heq|Hin]; [subst z; congruence|].
    apply IH; assumption.
Qed.

End Filtering.

(* ------------------------------------------------------------------ *)
(** ** Room directory                                                   *)
(* ------------------------------------------------------------------ *)

Lemma findRoomOfPair_some (parentId childId : ObjectId) (s : Store)
    (room : RoomDocument) :
  MessageService.findRoomOfPair parentId childId s = Some room ->
  r_parent room = parentId /\ r_child room = childId /\ In room (rooms s).
Proof.
  unfold MessageService.findRoomOfPair. intros H.
  apply find_some in H. destruct H as [Hin Hq].
  apply andb_true_iff in Hq. destruct Hq as [Hp Hc].
  apply Nat.eqb_eq in Hp. apply Nat.eqb_eq in Hc. auto.
Qed.

Lemma fresh_room_id_unused (s : Store) :
  roomIdsFresh s -> ~ In (nextId s) (map r_id (rooms s)).
Proof.
  unfold roomIdsFresh. intros H Hin.
  apply in_map_iff in Hin. destruct Hin as [r [Hid Hr]].
  rewrite Forall_forall in H. specialize (H r Hr). lia.
Qed.

(** The outcomes of the function case by case, shared by the statements
    below. *)
Lemma getOrCreateRoom_cases (s : Store) (parentId childId : ObjectId) :
  roomsWellFormed s ->
  match find (fun c => c_id c =? childId) (children s) with
  | None =>
      MessageService.getOrCreateRoom parentId childId s
      = (MessageService.Failed (MessageService.Http NotFoundException), s)
  | Some child =>
      if MessageService.isLinked child parentId then
        exists room s',
          MessageService.getOrCreateRoom parentId childId s
          = (MessageService.Returned room, s')
          /\ r_parent room = parentId /\ r_child room = childId
          /\ r_isActive room = true
          /\ MessageService.findRoomOfPair parentId childId s' = Some room
          /\ children s' = children s
          /\ roomsWellFormed s'
          /\ match MessageService.findRoomOfPair parentId childId s with
             | Some old =>
                 room = MessageService.withIsActive true old
                 /\ map r_id (rooms s') = map r_id (rooms s)
             | None =>
                 rooms s'
                 = (rooms s
                    ++ [MessageService.newRoom (nextId s) parentId childId])%list
             end
      else
        MessageService.getOrCreateRoom parentId childId s
        = (MessageService.Failed (MessageService.Http ForbiddenException), s)
  end.
Proof.
  intros [Huniq [Hfresh Hpair]].
  unfold MessageService.getOrCreateRoom.
  destruct (find (fun c => c_id c =? childId) (children s)) as [child|];
    [|reflexivity].
  destruct (MessageService.isLinked child parentId); simpl; [|reflexivity].
  destruct (MessageService.findRoomOfPair parentId childId s) as [old|]
    eqn:Hold.
  - destruct (findRoomOfPair_some _ _ _ _ Hold) as [Hp [Hc Hin]].
    destruct (r_isActive old) eqn:Hact; simpl.
    + exists old, s. repeat split; auto.
      * destruct old; simpl in *. subst. reflexivity.
    + assert (Hupd : updateFirst (fun r => r_id r =? r_id old)
                       (MessageService.withIsActive true) (rooms s)
                     = map (fun r => if r_id r =? r_id old
                                     then MessageService.withIsActive true r
                                     else r) (rooms s)).
      { apply updateFirst_by_key. exact Huniq. }
      rewrite find_updateFirst by reflexivity.
      rewrite (find_key_unique r_id (rooms s) old Huniq Hin). simpl.
      eexists. eexists. split; [reflexivity|].
      repeat split; auto.
      * unfold MessageService.findRoomOfPair. simpl. rewrite Hupd.
        rewrite find_map_kept.
        -- unfold MessageService.findRoomOfPair in Hold. rewrite Hold.
           simpl. rewrite Nat.eqb_refl. reflexivity.
        -- intros x. destruct (r_id x =? r_id old); reflexivity.
      * unfold roomIdsUnique. simpl.
        rewrite updateFirst_keeps_keys by reflexivity. exact Huniq.
      * unfold roomIdsFresh in *. simpl.
        apply Forall_forall. intros r Hr.
        rewrite Hupd in Hr. apply in_map_iff in Hr.
        destruct Hr as [r0 [Hr0 Hin0]].
        rewrite Forall_forall in Hfresh. specialize (Hfresh r0 Hin0).
        destruct (r_id r0 =? r_id old); subst r; simpl; exact Hfresh.
      * intros p c. simpl.
        rewrite filter_length_updateFirst by reflexivity. apply Hpair.
      * simpl. apply updateFirst_keeps_keys. reflexivity.
  - unfold MessageService.findRoomOfPair in *. simpl.
    rewrite find_app_miss by exact Hold. simpl.
    rewrite !Nat.eqb_refl. simpl.
    eexists. eexists. split; [reflexivity|].
    repeat split; auto.
    + simpl. rewrite find_app_miss by exact Hold. simpl.
      rewrite !Nat.eqb_refl. reflexivity.
    + unfold roomIdsUnique in *. simpl. rewrite map_app. simpl.
      apply Permutation_NoDup with (l := nextId s :: map r_id (rooms s)).
      * apply Permutation_cons_append.
      * constructor; [apply fresh_room_id_unused; exact Hfresh | exact Huniq].
    + unfold roomIdsFresh in *. simpl. apply Forall_app. split.
      * eapply Forall_impl; [|exact Hfresh]. simpl. intros r Hr. lia.
      * constructor; [simpl; lia | constructor].
    + intros p c. simpl. rewrite filter_app, length_app. simpl.
      destruct ((parentId =? p) && (childId =? c)) eqn:E; simpl.
      * apply andb_true_iff in E. destruct E as [E1 E2].
        apply Nat.eqb_eq in E1. apply Nat.eqb_eq in E2. subst p c.
        rewrite (filter_nil_of_find _ _ Hold). simpl. lia.
      * specialize (Hpair p c). lia.
Qed.

(** X1.  [getOrCreateRoom] on a well-formed room collection: it fails
    NotFound when the child is unknown and Forbidden when the parent is
    neither the child's parent nor linked to it, writing nothing; else it
    returns an active room of the pair that is stored afterwards, creating
    one only when the pair had none (a room found inactive is switched
    back on in place).  The collection stays well-formed: distinct ids
    and at most one room per pair. *)
Theorem getOrCreateRoom_spec (s : Store) (parentId childId : ObjectId) :
  roomsWellFormed s ->
  match find (fun c => c_id c =? childId) (children s) with
  | None =>
      MessageService.getOrCreateRoom parentId childId s
      = (MessageService.Failed (MessageService.Http NotFoundException), s)
  | Some child =>
      if MessageService.isLinked child parentId then
        exists room s',
          MessageService.getOrCreateRoom parentId childId s
          = (MessageService.Returned room, s')
          /\ r_parent room = parentId /\ r_child room = childId
          /\ r_isActive room = true
          /\ MessageService.findRoomOfPair parentId childId s' = Some room
          /\ children s' = children s
          /\ roomsWellFormed s'
          /\ match MessageService.findRoomOfPair parentId childId s with
             | Some old =>
                 room = MessageService.withIsActive true old
                 /\ map r_id (rooms s') = map r_id (rooms s)
             | None =>
                 rooms s'
                 = (rooms s
                    ++ [MessageService.newRoom (nextId s) parentId childId])%list
             end
      else
        MessageService.getOrCreateRoom parentId childId s
        = (MessageService.Failed (MessageService.Http ForbiddenException), s)
  end.
Proof. exact (getOrCreateRoom_cases s parentId childId). Qed.

Lemma roomsWellFormed_fixture : roomsWellFormed Fixtures.store0.
Proof.
  split; [|split].
  - unfold roomIdsUnique. simpl. constructor; [intros []|constructor].
  - unfold roomIdsFresh. simpl. constructor; [simpl; lia|constructor].
  - intros p c. change (rooms Fixtures.store0) with [Fixtures.room10].
    simpl. destruct (_ && _); simpl; lia.
Qed.

(** The linked parent 4 asks for a room with child 2: none exists for
    that pair, so room 100 is created beside room 10. *)
Lemma getOrCreateRoom_spec_witness :
  roomsWellFormed Fixtures.store0
  /\ exists room s',
       MessageService.getOrCreateRoom 4 2 Fixtures.store0
       = (MessageService.Returned room, s')
       /\ r_parent room = 4 /\ r_child room = 2
       /\ r_isActive room = true
       /\ MessageService.findRoomOfPair 4 2 s' = Some room
       /\ children s' = children Fixtures.store0
       /\ roomsWellFormed s'
       /\ rooms s'
          = (rooms Fixtures.store0 ++ [MessageService.newRoom 100 4 2])%list.
Proof.
  split; [exact roomsWellFormed_fixture|].
  exact (getOrCreateRoom_spec Fixtures.store0 4 2 roomsWellFormed_fixture).
Defined.

(** X2.  [getOrCreateRoom] is idempotent: asked again for the same pair,
    it returns the same room and leaves the store as the first call left
    it. *)
Theorem getOrCreateRoom_idempotent (s s' : Store) (parentId childId : ObjectId)
    (room : RoomDocument) :
  roomsWellFormed s ->
  MessageService.getOrCreateRoom parentId childId s
  = (MessageService.Returned room, s') ->
  MessageService.getOrCreateRoom parentId childId s'
  = (MessageService.Returned room, s').
Proof.
  intros Hwf Hrun.
  pose proof (getOrCreateRoom_cases s parentId childId Hwf) as Hspec.
  destruct (find (fun c => c_id c =? childId) (children s)) as [child|]
    eqn:Hchild; [|rewrite Hspec in Hrun; discriminate].
  destruct (MessageService.isLinked child parentId) eqn:Hlinked;
    [|rewrite Hspec in Hrun; discriminate].
  destruct Hspec as [room0 [s0 [Hrun0 [_ [_ [Hact [Hfind [Hch _]]]]]]]].
  rewrite Hrun0 in Hrun. inversion Hrun; subst room0 s0; clear Hrun.
  unfold MessageService.getOrCreateRoom.
  rewrite Hch, Hchild, Hlinked. simpl. rewrite Hfind, Hact. reflexivity.
Qed.

Lemma getOrCreateRoom_idempotent_witness :
  MessageService.getOrCreateRoom 4 2
    (snd (MessageService.getOrCreateRoom 4 2 Fixtures.store0))
  = (MessageService.Returned (MessageService.newRoom 100 4 2),
     snd (MessageService.getOrCreateRoom 4 2 Fixtures.store0)).
Proof.
  apply (getOrCreateRoom_idempotent Fixtures.store0 _ 4 2 _
           roomsWellFormed_fixture).
  reflexivity.
Defined.

(** X3.  [getRoomForChild] serves exactly the child itself: any caller
    that is not a child, or asks for another child's room, is refused
    with Forbidden, and a child that is not on record with NotFound;
    nothing is written.  The child itself, once on record, always obtains
    an active room of its own.  When it has an active room, that is the
    first one stored for it, with whichever adult it is (the lookup does
    not name the parent), and the store is untouched; only when it has
    none is the room the one with its primary parent, created or switched
    back on. *)
Theorem getRoomForChild_serves_the_child (s : Store) (childId : ObjectId)
    (user : Principal) :
  roomsWellFormed s ->
  (p_type user <> TypeChild \/ getUserId user <> childId ->
   MessageService.getRoomForChild childId user s
   = (MessageService.Failed (MessageService.Http ForbiddenException), s))
  /\ (p_type user = TypeChild -> getUserId user = childId ->
      find (fun c => c_id c =? childId) (children s) = None ->
      MessageService.getRoomForChild childId user s
      = (MessageService.Failed (MessageService.Http NotFoundException), s))
  /\ (p_type user = TypeChild -> getUserId user = childId ->
      forall child,
        find (fun c => c_id c =? childId) (children s) = Some child ->
        exists room s',
          MessageService.getRoomForChild childId user s
          = (MessageService.Returned room, s')
          /\ r_child room = childId /\ r_isActive room = true
          /\ In room (rooms s')
          /\ match find (fun r => (r_child r =? childId) && r_isActive r)
                     (rooms s) with
             | Some first => room = first /\ s' = s
             | None => r_parent room = c_parent child
             end).
Proof.
  intros Hwf. unfold MessageService.getRoomForChild, isChildType.
  split; [|split].
  - intros [Hty|Hid].
    + destruct (p_type user); [congruence | reflexivity].
    + apply Nat.eqb_neq in Hid. rewrite Hid.
      destruct (p_type user); reflexivity.
  - intros Hty Hid Hchild.
    rewrite Hty, Hid, Nat.eqb_refl, Hchild. reflexivity.
  - intros Hty Hid child Hchild.
    rewrite Hty, Hid, Nat.eqb_refl, Hchild. simpl.
    destruct (find (fun r => (r_child r =? childId) && r_isActive r) (rooms s))
      as [room|] eqn:Hroom.
    + apply find_some in Hroom. destruct Hroom as [Hin Hq].
      apply andb_true_iff in Hq. destruct Hq as [Hc Ha].
      apply Nat.eqb_eq in Hc.
      exists room, s. repeat split; auto.
    + pose proof (getOrCreateRoom_cases s (c_parent child) childId Hwf)
        as Hspec.
      rewrite Hchild in Hspec.
      unfold MessageService.isLinked in Hspec.
      rewrite Nat.eqb_refl in Hspec. simpl in Hspec.
      destruct Hspec as [room [s' [Hrun [Hp [Hc [Ha [Hf _]]]]]]].
      exists room, s'. repeat split; auto.
      apply findRoomOfPair_some in Hf. tauto.
Qed.

Lemma roomsWellFormed_linked : roomsWellFormed MoreFixtures.storeLinkedRoom.
Proof.
  split; [|split].
  - unfold roomIdsUnique. simpl. constructor; [intros []|constructor].
  - unfold roomIdsFresh. simpl. constructor; [simpl; lia|constructor].
  - intros p c.
    change (rooms MoreFixtures.storeLinkedRoom) with [MoreFixtures.room12].
    simpl. destruct (_ && _); simpl; lia.
Qed.

(** Child 2, whose parent is 1, has its only active room with the linked
    parent 4: that room is what it obtains. *)
Lemma getRoomForChild_serves_the_child_witness :
  c_parent Fixtures.childDoc2 = 1
  /\ exists room s',
       MessageService.getRoomForChild 2 Fixtures.child2
         MoreFixtures.storeLinkedRoom
       = (MessageService.Returned room, s')
       /\ r_child room = 2 /\ r_isActive room = true
       /\ In room (rooms s')
       /\ room = MoreFixtures.room12 /\ r_parent room = 4
       /\ s' = MoreFixtures.storeLinkedRoom.
Proof.
  split; [reflexivity|].
  destruct (proj2 (proj2 (getRoomForChild_serves_the_child
                            MoreFixtures.storeLinkedRoom 2 Fixtures.child2
                            roomsWellFormed_linked))
              eq_refl eq_refl Fixtures.childDoc2 eq_refl)
    as [room [s' [Hrun [Hc [Ha [Hin [Hroom Hs']]]]]]].
  exists room, s'. repeat split; try assumption.
  rewrite Hroom. reflexivity.
Defined.

(* ------------------------------------------------------------------ *)
(** ** Invited parents                                                  *)
(* ------------------------------------------------------------------ *)

Arguments MessageService.addToSet : simpl never.
Arguments MessageService.pull : simpl never.

Lemma existsb_eqb_false (l : list ObjectId) (x : ObjectId) :
  existsb (fun p => p =? x) l = false <-> ~ In x l.
Proof.
  split.
  - intros H Hin. assert (existsb (fun p => p =? x) l = true).
    { apply existsb_exists. exists x. split; [exact Hin | apply Nat.eqb_refl]. }
    congruence.
  - intros H. destruct (existsb (fun p => p =? x) l) eqn:E; [|reflexivity].
    apply existsb_exists in E. destruct E as [y [Hy Heq]].
    apply Nat.eqb_eq in Heq. subst y. contradiction.
Qed.

Lemma filter_out_absent (l : list ObjectId) (x : ObjectId) :
  ~ In x l -> filter (fun p => negb (p =? x)) l = l.
Proof.
  induction l as [|y l IH]; simpl; intros H; [reflexivity|].
  destruct (y =? x) eqn:E; simpl.
  - apply Nat.eqb_eq in E. exfalso. apply H. left. exact E.
  - rewrite IH; [reflexivity|]. intros Hin. apply H. right. exact Hin.
Qed.

Lemma addToSet_absent (x : ObjectId) (r : RoomDocument) :
  ~ memberOf x (r_invitedParents r) ->
  MessageService.addToSet x (r_invitedParents r)
  = Some (invitedList r ++ [x])%list.
Proof.
  unfold MessageService.addToSet, invitedList, memberOf. intros H.
  destruct (r_invitedParents r) as [l|]; [|reflexivity].
  assert (Hn : ~ In x l) by (intros Hin; apply H; exists l; auto).
  apply existsb_eqb_false in Hn. rewrite Hn. reflexivity.
Qed.

(** The outcomes of the function case by case, shared by the statements
    below. *)
Lemma inviteParent_cases (s : Store) (roomId invitedParentId : ObjectId)
    (user : Principal) (room : RoomDocument) :
  find (fun r => r_id r =? roomId) (rooms s) = Some room ->
  (mayInvite s room user invitedParentId ->
   exists s',
     MessageService.inviteParent roomId invitedParentId user s
     = (Ok (MessageService.withInvitedParents
              (Some (invitedList room ++ [invitedParentId])%list) room), s')
     /\ find (fun r => r_id r =? roomId) (rooms s')
        = Some (MessageService.withInvitedParents
                  (Some (invitedList room ++ [invitedParentId])%list) room)
     /\ s' = with_rooms
               (updateFirst (fun r => r_id r =? roomId)
                  (fun r => MessageService.withInvitedParents
                              (MessageService.addToSet invitedParentId
                                 (r_invitedParents r)) r)
                  (rooms s)) s)
  /\ (~ mayInvite s room user invitedParentId ->
      exists e, MessageService.inviteParent roomId invitedParentId user s
                = (Throw e, s)
                /\ (e = ForbiddenException \/ e = NotFoundException)
                /\ (getUserId user <> r_parent room -> e = ForbiddenException)).
Proof.
  intros Hroom.
  unfold MessageService.inviteParent, MessageService.findRoomById,
    MessageService.findUserById, MessageService.updateRoom, mayInvite,
    MessageService.isParentRole.
  run_service. rewrite Hroom. simpl.
  destruct (r_parent room =? getUserId user) eqn:Emain; simpl.
  - apply Nat.eqb_eq in Emain.
    destruct (find (fun u => u_id u =? invitedParentId) (users s)) as [u|]
      eqn:Huser; simpl.
    + destruct (u_role u) eqn:Hrole; simpl.
      * split.
        -- intros [_ [[u' [Hu' Hr']] _]]. congruence.
        -- intros _. exists ForbiddenException. repeat split; auto.
      * destruct (r_parent room =? invitedParentId) eqn:Eself; simpl.
        -- apply Nat.eqb_eq in Eself. split.
           ++ intros [_ [_ [Hne _]]]. congruence.
           ++ intros _. exists ForbiddenException. repeat split; auto.
        -- apply Nat.eqb_neq in Eself.
           destruct (someEquals (r_invitedParents room) invitedParentId)
             eqn:Einv; simpl.
           ++ apply someEquals_memberOf in Einv. split.
              ** intros [_ [_ [_ Hn]]]. contradiction.
              ** intros _. exists ForbiddenException. repeat split; auto.
           ++ apply someEquals_not_memberOf in Einv.
              rewrite find_updateFirst by reflexivity.
              rewrite Hroom. simpl.
              rewrite (addToSet_absent invitedParentId room Einv).
              split.
              ** intros _. eexists. split; [reflexivity|].
                 split; [|reflexivity]. simpl.
                 rewrite find_updateFirst by reflexivity.
                 rewrite Hroom. simpl.
                 rewrite (addToSet_absent invitedParentId room Einv).
                 reflexivity.
              ** intros Hn. exfalso. apply Hn. repeat split; auto.
                 exists u. auto.
    + split.
      * intros [_ [[u' [Hu' _]] _]]. discriminate.
      * intros _. exists NotFoundException. repeat split; auto.
        intros Hne. symmetry in Emain. contradiction.
  - apply Nat.eqb_neq in Emain. split.
    + intros [Hid _]. congruence.
    + intros _. exists ForbiddenException. repeat split; auto.
Qed.

(** X4.  [inviteParent] on an existing room succeeds exactly when the
    caller is the room's main parent (the ADMIN role gives no bypass), the
    invited account exists with the PARENT role, is not the main parent
    and is not invited yet.  The room returned is then the stored one:
    its invited list is the former list with the account appended, its
    other fields are as before, and every other room, the number of rooms
    and the messages are untouched.  In every other case it throws and
    writes nothing. *)
Theorem inviteParent_spec (s : Store) (roomId invitedParentId : ObjectId)
    (user : Principal) (room : RoomDocument) :
  find (fun r => r_id r =? roomId) (rooms s) = Some room ->
  (mayInvite s room user invitedParentId ->
   exists room' s',
     MessageService.inviteParent roomId invitedParentId user s
     = (Ok room', s')
     /\ find (fun r => r_id r =? roomId) (rooms s') = Some room'
     /\ r_invitedParents room'
        = Some (invitedList room ++ [invitedParentId])%list
     /\ r_id room' = r_id room /\ r_parent room' = r_parent room
     /\ r_child room' = r_child room /\ r_isActive room' = r_isActive room
     /\ r_lastMessage room' = r_lastMessage room
     /\ (forall other, other <> roomId ->
           find (fun r => r_id r =? other) (rooms s')
           = find (fun r => r_id r =? other) (rooms s))
     /\ List.length (rooms s') = List.length (rooms s)
     /\ messages s' = messages s /\ users s' = users s)
  /\ (~ mayInvite s room user invitedParentId ->
      exists e, MessageService.inviteParent roomId invitedParentId user s
                = (Throw e, s)
                /\ (e = ForbiddenException \/ e = NotFoundException)
                /\ (getUserId user <> r_parent room -> e = ForbiddenException)).
Proof.
  intros Hroom.
  destruct (inviteParent_cases s roomId invitedParentId user room Hroom)
    as [Hok Hno].
  split; [|exact Hno].
  intros Hmay. destruct (Hok Hmay) as [s' [Hrun [Hfind Hs']]].
  eexists. exists s'. split; [exact Hrun|]. split; [exact Hfind|].
  do 6 (split; [reflexivity|]).
  rewrite Hs'. simpl.
  split; [|split; [apply updateFirst_length | split; reflexivity]].
  intros other Hother. apply find_updateFirst_apart.
  intros x Hx. apply Nat.eqb_eq in Hx. simpl.
  assert (E : (r_id x =? other) = false)
    by (apply Nat.eqb_neq; congruence).
  auto.
Qed.

Lemma mayInvite_fixture :
  mayInvite MoreFixtures.storeTwoParents Fixtures.room10 Fixtures.parent1 5.
Proof.
  repeat split.
  - exists MoreFixtures.userDoc5. split; reflexivity.
  - discriminate.
  - intros [l [Hl Hin]]. inversion Hl; subst l.
    destruct Hin as [H|[]]. discriminate.
Qed.

(** The parent 1 invites the account 5 to room 10, where 3 is invited
    already. *)
Lemma inviteParent_spec_witness :
  exists room' s',
    MessageService.inviteParent 10 5 Fixtures.parent1
      MoreFixtures.storeTwoParents
    = (Ok room', s')
    /\ find (fun r => r_id r =? 10) (rooms s') = Some room'
    /\ r_invitedParents room' = Some [3; 5]
    /\ r_id room' = 10 /\ r_parent room' = 1
    /\ r_child room' = 2 /\ r_isActive room' = true
    /\ r_lastMessage room' = None
    /\ (forall other, other <> 10 ->
          find (fun r => r_id r =? other) (rooms s')
          = find (fun r => r_id r =? other)
              (rooms MoreFixtures.storeTwoParents))
    /\ List.length (rooms s') = 1
    /\ messages s' = [] /\ users s' = users MoreFixtures.storeTwoParents.
Proof.
  apply (proj1 (inviteParent_spec MoreFixtures.storeTwoParents 10 5
                  Fixtures.parent1 Fixtures.room10 eq_refl)).
  exact mayInvite_fixture.
Defined.

Lemma mayInvite_decided (s : Store) (room : RoomDocument) (user : Principal)
    (invitedParentId : ObjectId) :
  mayInvite s room user invitedParentId
  \/ ~ mayInvite s room user invitedParentId.
Proof.
  unfold mayInvite.
  destruct (Nat.eq_dec (getUserId user) (r_parent room)) as [H1|H1];
    [|right; tauto].
  destruct (Nat.eq_dec invitedParentId (r_parent room)) as [H2|H2];
    [right; tauto|].
  destruct (someEquals (r_invitedParents room) invitedParentId) eqn:H3.
  { apply someEquals_memberOf in H3. right. tauto. }
  apply someEquals_not_memberOf in H3.
  destruct (find (fun u => u_id u =? invitedParentId) (users s)) as [u|]
    eqn:H4.
  - destruct (u_role u) eqn:H5.
    + right. intros [_ [[u' [Hu' Hr']] _]]. congruence.
    + left. repeat split; auto. exists u. auto.
  - right. intros [_ [[u' [Hu' _]] _]]. discriminate.
Qed.

(** A successful invitation was an allowed one. *)
Lemma inviteParent_ok_inv (s s' : Store) (roomId invitedParentId : ObjectId)
    (user : Principal) (room room' : RoomDocument) :
  find (fun r => r_id r =? roomId) (rooms s) = Some room ->
  MessageService.inviteParent roomId invitedParentId user s = (Ok room', s') ->
  mayInvite s room user invitedParentId
  /\ room' = MessageService.withInvitedParents
               (Some (invitedList room ++ [invitedParentId])%list) room.
Proof.
  intros Hroom Hrun.
  destruct (inviteParent_cases s roomId invitedParentId user room Hroom)
    as [Hyes Hno].
  destruct (mayInvite_decided s room user invitedParentId) as [Hm|Hm].
  - split; [exact Hm|].
    destruct (Hyes Hm) as [s0 [Hrun0 _]]. congruence.
  - destruct (Hno Hm) as [e [Hrun0 _]]. congruence.
Qed.

(** Membership of the invited list is what the three access checks read
    for a parent that is not the main parent. *)
Lemma invited_member_passes (s : Store) (room : RoomDocument)
    (user : Principal) :
  p_type user = TypeUser ->
  memberOf (getUserId user) (r_invitedParents room) ->
  MessageService.assertRoomAccess room user = Ok tt
  /\ MessageService.isRoomParticipant room User (getUserId user) = true
  /\ MessageService.validateSender room User (getUserId user) s = (Ok tt, s).
Proof.
  intros Hty Hmem. apply someEquals_memberOf in Hmem.
  unfold MessageService.assertRoomAccess, MessageService.isRoomParticipant,
    MessageService.validateSender, isChildType.
  rewrite Hty, Hmem.
  repeat split.
  - destruct (isAdminRole user); [reflexivity|].
    destruct (r_parent room =? getUserId user); reflexivity.
  - apply orb_true_r.
  - rewrite orb_true_r. reflexivity.
Qed.

(** X5.  An invitation opens the room: a parent account without the
    ADMIN role that is neither the main parent nor invited is refused by
    [assertRoomAccess]; once [inviteParent] has succeeded for it, the
    same principal passes [assertRoomAccess], [isRoomParticipant] and
    [validateSender] on the stored room, and its [sendText] to the room
    goes through. *)
Theorem invitation_opens_the_room (s s' : Store)
    (roomId invitedParentId : ObjectId) (owner guest : Principal)
    (room room' : RoomDocument) (text : option string) :
  find (fun r => r_id r =? roomId) (rooms s) = Some room ->
  MessageService.inviteParent roomId invitedParentId owner s = (Ok room', s') ->
  getUserId guest = invitedParentId ->
  p_type guest = TypeUser ->
  (isAdminRole guest = false ->
   MessageService.assertRoomAccess room guest = Throw ForbiddenException)
  /\ MessageService.assertRoomAccess room' guest = Ok tt
  /\ MessageService.isRoomParticipant room' User invitedParentId = true
  /\ MessageService.validateSender room' User invitedParentId s' = (Ok tt, s')
  /\ exists msg s'',
       MessageService.sendText (textDto roomId User invitedParentId text)
         guest s' = (Ok msg, s'')
       /\ m_senderId msg = invitedParentId /\ m_text msg = text.
Proof.
  intros Hroom Hrun Hguest Hty.
  destruct (inviteParent_ok_inv s s' roomId invitedParentId owner room room'
              Hroom Hrun) as [Hmay Hroom'].
  assert (Hstored : find (fun r => r_id r =? roomId) (rooms s') = Some room').
  { destruct (inviteParent_cases s roomId invitedParentId owner room Hroom)
      as [Hyes _].
    destruct (Hyes Hmay) as [s0 [Hrun0 [Hfind0 _]]].
    rewrite Hrun0 in Hrun. inversion Hrun; subst. exact Hfind0. }
  destruct Hmay as [Howner [_ [Hne Hnot]]].
  assert (Hmem : memberOf (getUserId guest) (r_invitedParents room')).
  { rewrite Hguest, Hroom'. simpl.
    exists (invitedList room ++ [invitedParentId])%list.
    split; [reflexivity|]. apply in_or_app. right. left. reflexivity. }
  destruct (invited_member_passes s' room' guest Hty Hmem) as [Ha [Hp Hv]].
  rewrite Hguest in Hp, Hv.
  split; [|split; [exact Ha | split; [exact Hp | split; [exact Hv|]]]].
  - intros Hadmin.
    unfold MessageService.assertRoomAccess, isChildType.
    rewrite Hadmin, Hty, Hguest.
    apply someEquals_not_memberOf in Hnot. rewrite Hnot.
    assert (E : (r_parent room =? invitedParentId) = false).
    { apply Nat.eqb_neq. congruence. }
    rewrite E. reflexivity.
  - destruct (sendText_succeeds (textDto roomId User invitedParentId text)
                guest s' room' Hstored Ha Hv) as [msg [s'' Hsend]].
    exists msg, s''. split; [exact Hsend|].
    apply sendText_ok_inv in Hsend.
    destruct Hsend as [r0 [_ [_ [_ [Hmsg _]]]]]. subst msg. split; reflexivity.
Qed.

Lemma invitation_opens_the_room_witness :
  let first := MessageService.inviteParent 10 5 Fixtures.parent1
                 MoreFixtures.storeTwoParents in
  let room' := MessageService.withInvitedParents (Some [3; 5]) Fixtures.room10 in
  (isAdminRole Fixtures.stranger5 = false ->
   MessageService.assertRoomAccess Fixtures.room10 Fixtures.stranger5
   = Throw ForbiddenException)
  /\ MessageService.assertRoomAccess room' Fixtures.stranger5 = Ok tt
  /\ MessageService.isRoomParticipant room' User 5 = true
  /\ MessageService.validateSender room' User 5 (snd first)
     = (Ok tt, snd first)
  /\ exists msg s'',
       MessageService.sendText (textDto 10 User 5 (Some "merci"))
         Fixtures.stranger5 (snd first) = (Ok msg, s'')
       /\ m_senderId msg = 5 /\ m_text msg = Some "merci".
Proof.
  intros first room'.
  apply (invitation_opens_the_room MoreFixtures.storeTwoParents (snd first)
           10 5 Fixtures.parent1 Fixtures.stranger5 Fixtures.room10 room'
           (Some "merci")); reflexivity.
Defined.

Lemma pull_removes (x : ObjectId) (l : option (list ObjectId)) :
  ~ memberOf x (MessageService.pull x l)
  /\ forall y, y <> x ->
       (memberOf y (MessageService.pull x l) <-> memberOf y l).
Proof.
  unfold MessageService.pull, memberOf. destruct l as [xs|].
  - split.
    + intros [l' [Hl' Hin]]. inversion Hl'; subst l'.
      apply filter_In in Hin. destruct Hin as [_ Hq].
      rewrite Nat.eqb_refl in Hq. discriminate.
    + intros y Hy. split.
      * intros [l' [Hl' Hin]]. inversion Hl'; subst l'.
        apply filter_In in Hin. exists xs. tauto.
      * intros [l' [Hl' Hin]]. inversion Hl'; subst l'.
        eexists. split; [reflexivity|]. apply filter_In. split; [exact Hin|].
        apply Nat.eqb_neq in Hy. rewrite Hy. reflexivity.
  - split.
    + intros [l' [Hl' _]]. discriminate.
    + intros y _. tauto.
Qed.

(** The outcomes of the function case by case, shared by the statements
    below. *)
Lemma removeInvitedParent_cases (s : Store) (roomId removedId : ObjectId)
    (user : Principal) (room : RoomDocument) :
  find (fun r => r_id r =? roomId) (rooms s) = Some room ->
  (getUserId user <> r_parent room ->
   MessageService.removeInvitedParent roomId removedId user s
   = (Throw ForbiddenException, s))
  /\ (getUserId user = r_parent room ->
      let room' := MessageService.withInvitedParents
                     (MessageService.pull removedId (r_invitedParents room))
                     room in
      exists s',
        MessageService.removeInvitedParent roomId removedId user s
        = (Ok room', s')
        /\ find (fun r => r_id r =? roomId) (rooms s') = Some room'
        /\ ~ memberOf removedId (r_invitedParents room')
        /\ (forall y, y <> removedId ->
              (memberOf y (r_invitedParents room')
               <-> memberOf y (r_invitedParents room)))
        /\ (forall guest,
              getUserId guest = removedId -> p_type guest = TypeUser ->
              isAdminRole guest = false -> removedId <> r_parent room ->
              MessageService.assertRoomAccess room' guest
              = Throw ForbiddenException
              /\ MessageService.isRoomParticipant room' User removedId
                 = false)).
Proof.
  intros Hroom.
  unfold MessageService.removeInvitedParent, MessageService.findRoomById,
    MessageService.updateRoom.
  run_service. rewrite Hroom. simpl. split.
  - intros Hne. apply Nat.eqb_neq in Hne. rewrite Nat.eqb_sym in Hne.
    rewrite Hne. reflexivity.
  - intros Heq. rewrite Heq, Nat.eqb_refl. simpl.
    rewrite find_updateFirst by reflexivity. rewrite Hroom. simpl.
    destruct (pull_removes removedId (r_invitedParents room)) as [Hgone Hkept].
    eexists. split; [reflexivity|].
    split; [simpl; rewrite find_updateFirst by reflexivity;
            rewrite Hroom; reflexivity|].
    split; [exact Hgone|]. split; [exact Hkept|].
    intros guest Hg Hty Hadmin Hne.
    apply someEquals_not_memberOf in Hgone.
    assert (E : (r_parent room =? removedId) = false).
    { apply Nat.eqb_neq. congruence. }
    unfold MessageService.assertRoomAccess, MessageService.isRoomParticipant,
      isChildType.
    rewrite Hadmin, Hty, Hg. simpl. rewrite E, Hgone. split; reflexivity.
Qed.

(** X6.  [removeInvitedParent] is reserved to the room's main parent:
    any other caller gets Forbidden and nothing is written.  For the main
    parent it always succeeds, whether or not the account was invited:
    afterwards the account is not in the invited list, every other
    account keeps its place, and a principal of that account without the
    ADMIN role, not being the main parent, no longer passes
    [assertRoomAccess] nor [isRoomParticipant]. *)
Theorem removeInvitedParent_spec (s : Store) (roomId removedId : ObjectId)
    (user : Principal) (room : RoomDocument) :
  find (fun r => r_id r =? roomId) (rooms s) = Some room ->
  (getUserId user <> r_parent room ->
   MessageService.removeInvitedParent roomId removedId user s
   = (Throw ForbiddenException, s))
  /\ (getUserId user = r_parent room ->
      let room' := MessageService.withInvitedParents
                     (MessageService.pull removedId (r_invitedParents room))
                     room in
      exists s',
        MessageService.removeInvitedParent roomId removedId user s
        = (Ok room', s')
        /\ find (fun r => r_id r =? roomId) (rooms s') = Some room'
        /\ ~ memberOf removedId (r_invitedParents room')
        /\ (forall y, y <> removedId ->
              (memberOf y (r_invitedParents room')
               <-> memberOf y (r_invitedParents room)))
        /\ (forall guest,
              getUserId guest = removedId -> p_type guest = TypeUser ->
              isAdminRole guest = false -> removedId <> r_parent room ->
              MessageService.assertRoomAccess room' guest
              = Throw ForbiddenException
              /\ MessageService.isRoomParticipant room' User removedId
                 = false)).
Proof. exact (removeInvitedParent_cases s roomId removedId user room). Qed.

Lemma removeInvitedParent_spec_witness :
  let room' := MessageService.withInvitedParents
                 (MessageService.pull 3 (r_invitedParents Fixtures.room10))
                 Fixtures.room10 in
  exists s',
    MessageService.removeInvitedParent 10 3 Fixtures.parent1 Fixtures.store0
    = (Ok room', s')
    /\ find (fun r => r_id r =? 10) (rooms s') = Some room'
    /\ ~ memberOf 3 (r_invitedParents room')
    /\ (forall y, y <> 3 ->
          (memberOf y (r_invitedParents room')
           <-> memberOf y (r_invitedParents Fixtures.room10)))
    /\ (forall guest,
          getUserId guest = 3 -> p_type guest = TypeUser ->
          isAdminRole guest = false -> 3 <> r_parent Fixtures.room10 ->
          MessageService.assertRoomAccess room' guest
          = Throw ForbiddenException
          /\ MessageService.isRoomParticipant room' User 3 = false).
Proof.
  apply (removeInvitedParent_spec Fixtures.store0 10 3 Fixtures.parent1
           Fixtures.room10 eq_refl).
  reflexivity.
Defined.

(** X7.  Inviting an account and removing it again restores the room:
    the invited list is the one before the invitation (an absent list
    comes back as the empty list) and no other field of the room has
    changed. *)
Theorem invite_then_remove_restores (s s1 s2 : Store)
    (roomId invitedParentId : ObjectId) (owner : Principal)
    (room room1 room2 : RoomDocument) :
  find (fun r => r_id r =? roomId) (rooms s) = Some room ->
  MessageService.inviteParent roomId invitedParentId owner s = (Ok room1, s1) ->
  MessageService.removeInvitedParent roomId invitedParentId owner s1
  = (Ok room2, s2) ->
  room2 = MessageService.withInvitedParents (Some (invitedList room)) room
  /\ find (fun r => r_id r =? roomId) (rooms s2) = Some room2.
Proof.
  intros Hroom Hinv Hrem.
  destruct (inviteParent_ok_inv s s1 roomId invitedParentId owner room room1
              Hroom Hinv) as [Hmay Hroom1].
  destruct (inviteParent_cases s roomId invitedParentId owner room Hroom)
    as [Hyes _].
  destruct (Hyes Hmay) as [s0 [Hrun0 [Hfind1 _]]].
  rewrite Hrun0 in Hinv. inversion Hinv; subst s0; clear Hinv.
  rewrite <- Hroom1 in Hfind1.
  destruct (removeInvitedParent_cases s1 roomId invitedParentId owner room1
              Hfind1) as [_ Hok].
  destruct Hmay as [Howner [_ [_ Hnot]]].
  assert (Hown1 : getUserId owner = r_parent room1)
    by (rewrite Hroom1; exact Howner).
  destruct (Hok Hown1) as [s3 [Hrun3 [Hfind3 _]]].
  rewrite Hrun3 in Hrem. inversion Hrem as [[Hr2 Hs2]]. clear Hrem.
  assert (Hn : ~ In invitedParentId (invitedList room)).
  { unfold invitedList. intros Hin. apply Hnot.
    destruct (r_invitedParents room) as [l|]; [|destruct Hin].
    exists l. auto. }
  assert (Heq : MessageService.withInvitedParents
                  (MessageService.pull invitedParentId (r_invitedParents room1))
                  room1
                = MessageService.withInvitedParents (Some (invitedList room))
                    room).
  { rewrite Hroom1. unfold MessageService.withInvitedParents,
      MessageService.pull. simpl.
    rewrite filter_app. simpl. rewrite Nat.eqb_refl. simpl.
    rewrite app_nil_r, filter_out_absent by exact Hn. reflexivity. }
  subst s3. split; [exact Heq | exact Hfind3].
Qed.

Lemma invite_then_remove_restores_witness :
  let s1 := snd (MessageService.inviteParent 10 5 Fixtures.parent1
                   MoreFixtures.storeTwoParents) in
  let s2 := snd (MessageService.removeInvitedParent 10 5 Fixtures.parent1 s1) in
  MessageService.withInvitedParents (Some [3]) Fixtures.room10
  = MessageService.withInvitedParents (Some (invitedList Fixtures.room10))
      Fixtures.room10
  /\ find (fun r => r_id r =? 10) (rooms s2)
     = Some (MessageService.withInvitedParents (Some [3]) Fixtures.room10).
Proof.
  intros s1 s2.
  apply (invite_then_remove_restores MoreFixtures.storeTwoParents s1 s2 10 5
           Fixtures.parent1 Fixtures.room10
           (MessageService.withInvitedParents (Some [3; 5]) Fixtures.room10)
           (MessageService.withInvitedParents (Some [3]) Fixtures.room10));
    reflexivity.
Defined.

Lemma removeInvitedParent_ok_inv (s s' : Store) (roomId removedId : ObjectId)
    (user : Principal) (room room' : RoomDocument) :
  find (fun r => r_id r =? roomId) (rooms s) = Some room ->
  MessageService.removeInvitedParent roomId removedId user s = (Ok room', s') ->
  room' = MessageService.withInvitedParents
            (MessageService.pull removedId (r_invitedParents room)) room.
Proof.
  intros Hroom Hrun.
  destruct (removeInvitedParent_cases s roomId removedId user room Hroom)
    as [Hno Hyes].
  destruct (Nat.eq_dec (getUserId user) (r_parent room)) as [Heq|Hne].
  - destruct (Hyes Heq) as [s0 [Hrun0 _]]. congruence.
  - rewrite (Hno Hne) in Hrun. discriminate.
Qed.

(** X8.  Invitations keep the invited list of a room well formed: if the
    list has no repetition and does not contain the room's main parent,
    the same holds of the room returned by a successful [inviteParent]
    and by a successful [removeInvitedParent]. *)
Theorem invited_list_stays_well_formed (s : Store) (roomId : ObjectId)
    (room : RoomDocument) :
  find (fun r => r_id r =? roomId) (rooms s) = Some room ->
  invitedWellFormed room ->
  (forall id user room' s',
      MessageService.inviteParent roomId id user s = (Ok room', s') ->
      invitedWellFormed room')
  /\ (forall id user room' s',
      MessageService.removeInvitedParent roomId id user s = (Ok room', s') ->
      invitedWellFormed room').
Proof.
  intros Hroom Hwf.
  assert (Hlist : NoDup (invitedList room) /\ ~ In (r_parent room) (invitedList room)).
  { unfold invitedWellFormed, invitedList in *.
    destruct (r_invitedParents room); [exact Hwf|].
    split; [constructor | intros []]. }
  destruct Hlist as [Hnd Hmain]. split.
  - intros id user room' s' Hrun.
    destruct (inviteParent_ok_inv s s' roomId id user room room' Hroom Hrun)
      as [[_ [_ [Hne Hnot]]] Hroom'].
    subst room'. unfold invitedWellFormed. simpl. split.
    + apply Permutation_NoDup with (l := id :: invitedList room).
      * apply Permutation_cons_append.
      * constructor; [|exact Hnd].
        unfold invitedList. intros Hin. apply Hnot.
        destruct (r_invitedParents room) as [l|]; [|destruct Hin].
        exists l. auto.
    + intros Hin. apply in_app_or in Hin.
      destruct Hin as [Hin|[Heq|[]]]; [contradiction | congruence].
  - intros id user room' s' Hrun.
    rewrite (removeInvitedParent_ok_inv s s' roomId id user room room'
               Hroom Hrun).
    unfold invitedWellFormed, MessageService.pull in *. simpl.
    destruct (r_invitedParents room) as [l|]; [|exact I].
    destruct Hwf as [Hnd' Hmain']. split.
    + apply NoDup_filter. exact Hnd'.
    + intros Hin. apply filter_In in Hin. tauto.
Qed.

Lemma invited_list_stays_well_formed_witness :
  (forall id user room' s',
      MessageService.inviteParent 10 id user MoreFixtures.storeTwoParents
      = (Ok room', s') ->
      invitedWellFormed room')
  /\ (forall id user room' s',
      MessageService.removeInvitedParent 10 id user MoreFixtures.storeTwoParents
      = (Ok room', s') ->
      invitedWellFormed room').
Proof.
  apply (invited_list_stays_well_formed MoreFixtures.storeTwoParents 10
           Fixtures.room10 eq_refl).
  simpl. split.
  - constructor; [intros []|constructor].
  - intros [H|[]]. discriminate.
Defined.

(* ------------------------------------------------------------------ *)
(** ** Listings                                                         *)
(* ------------------------------------------------------------------ *)

Section Sorting.

Context {A : Type}.
Variable before : A -> A -> bool.

Lemma insertSorted_perm (x : A) (l : list A) :
  Permutation (MessageService.insertSorted before x l) (x :: l).
Proof.
  induction l as [|y l IH]; simpl; [reflexivity|].
  destruct (before y x).
  - rewrite IH. apply perm_swap.
  - reflexivity.
Qed.

Lemma sortBy_perm (l : list A) :
  Permutation (MessageService.sortBy before l) l.
Proof.
  induction l as [|x l IH]; simpl; [constructor|].
  rewrite insertSorted_perm. constructor. exact IH.
Qed.

Lemma sortBy_In (l : list A) (x : A) :
  In x (MessageService.sortBy before l) <-> In x l.
Proof.
  split; apply Permutation_in;
    [apply sortBy_perm | symmetry; apply sortBy_perm].
Qed.

Lemma sortBy_length (l : list A) :
  List.length (MessageService.sortBy before l) = List.length l.
Proof. apply Permutation_length. apply sortBy_perm. Qed.

End Sorting.

Lemma firstn_plus {A : Type} (n m : nat) (l : list A) :
  firstn (n + m) l = (firstn n l ++ firstn m (skipn n l))%list.
Proof.
  revert l. induction n as [|n IH]; intros l; simpl; [reflexivity|].
  destruct l as [|x l]; simpl.
  - rewrite firstn_nil. reflexivity.
  - rewrite IH. reflexivity.
Qed.

Lemma firstn_subset {A : Type} (n : nat) (l : list A) (x : A) :
  In x (firstn n l) -> In x l.
Proof.
  intros H. rewrite <- (firstn_skipn n l). apply in_or_app. left. exact H.
Qed.

Section Descending.

Lemma descending_app (l1 l2 : list MessageDocument) :
  idsDescending (l1 ++ l2) <->
  idsDescending l1 /\ idsDescending l2
  /\ forall a b, In a l1 -> In b l2 -> m_id b < m_id a.
Proof.
  unfold idsDescending. induction l1 as [|x l1 IH]; simpl.
  - split.
    + intros H. repeat split; [constructor | exact H | intros a b []].
    + tauto.
  - split.
    + intros H. inversion H as [|? ? Hss Hall]; subst.
      apply IH in Hss. destruct Hss as [H1 [H2 H3]].
      rewrite Forall_app in Hall. destruct Hall as [Ha1 Ha2].
      repeat split; [constructor; assumption | exact H2 |].
      intros a b [Ha|Ha] Hb; [subst a|apply H3; assumption].
      rewrite Forall_forall in Ha2. apply Ha2. exact Hb.
    + intros [H1 [H2 H3]]. inversion H1 as [|? ? Hss Hall]; subst.
      constructor.
      * apply IH. repeat split; auto.
      * apply Forall_app. split; [exact Hall|].
        apply Forall_forall. intros b Hb. apply H3; auto.
Qed.

Lemma descending_unique (l1 l2 : list MessageDocument) :
  idsDescending l1 -> idsDescending l2 ->
  (forall m, In m l1 <-> In m l2) -> l1 = l2.
Proof.
  unfold idsDescending. revert l2.
  induction l1 as [|x l1 IH]; intros l2 H1 H2 Hsame.
  - destruct l2 as [|y l2]; [reflexivity|].
    exfalso. apply (Hsame y). left. reflexivity.
  - destruct l2 as [|y l2].
    + exfalso. apply (Hsame x). left. reflexivity.
    + inversion H1 as [|? ? Hs1 Ha1]; subst.
      inversion H2 as [|? ? Hs2 Ha2]; subst.
      rewrite Forall_forall in Ha1, Ha2.
      assert (Hxy : x = y).
      { destruct (proj1 (Hsame x) (or_introl eq_refl)) as [Hx|Hx];
          [symmetry; exact Hx|].
        destruct (proj2 (Hsame y) (or_introl eq_refl)) as [Hy|Hy];
          [exact Hy|].
        specialize (Ha2 x Hx). specialize (Ha1 y Hy). lia. }
      subst y. f_equal. apply IH; try assumption.
      intros m. split; intros Hm.
      * destruct (proj1 (Hsame m) (or_intror Hm)) as [Heq|Hin]; [|exact Hin].
        subst m. specialize (Ha1 x Hm). lia.
      * destruct (proj2 (Hsame m) (or_intror Hm)) as [Heq|Hin]; [|exact Hin].
        subst m. specialize (Ha2 x Hm). lia.
Qed.

Lemma insert_descending (x : MessageDocument) (l : list MessageDocument) :
  idsDescending l -> ~ In (m_id x) (map m_id l) ->
  idsDescending (MessageService.insertSorted MessageService.greaterId x l).
Proof.
  unfold idsDescending, MessageService.greaterId.
  induction l as [|y l IH]; simpl; intros Hs Hn.
  - constructor; constructor.
  - inversion Hs as [|? ? Hs' Hall]; subst.
    destruct (m_id x <? m_id y) eqn:E.
    + apply Nat.ltb_lt in E. constructor.
      * apply IH; [exact Hs'|]. intros H. apply Hn. right. exact H.
      * apply Forall_forall. intros b Hb.
        apply (Permutation_in _ (insertSorted_perm _ x l)) in Hb.
        destruct Hb as [Hb|Hb]; [subst b; exact E|].
        rewrite Forall_forall in Hall. apply Hall. exact Hb.
    + apply Nat.ltb_ge in E.
      assert (Hlt : m_id y < m_id x).
      { destruct (Nat.eq_dec (m_id y) (m_id x)) as [Heq|Hne]; [|lia].
        exfalso. apply Hn. left. exact Heq. }
      constructor; [exact Hs|].
      constructor; [exact Hlt|].
      eapply Forall_impl; [|exact Hall]. simpl. intros b Hb. lia.
Qed.

Lemma sortBy_descending (l : list MessageDocument) :
  NoDup (map m_id l) ->
  idsDescending (MessageService.sortBy MessageService.greaterId l).
Proof.
  induction l as [|x l IH]; simpl; intros Hnd.
  - constructor.
  - inversion Hnd as [|? ? Hnotin Hnd']; subst.
    apply insert_descending; [apply IH; exact Hnd'|].
    intros Hin. apply Hnotin.
    apply in_map_iff in Hin. destruct Hin as [m [Hid Hm]].
    apply sortBy_In in Hm. rewrite <- Hid. apply in_map. exact Hm.
Qed.

Lemma NoDup_map_filter (p : MessageDocument -> bool)
    (l : list MessageDocument) :
  NoDup (map m_id l) -> NoDup (map m_id (filter p l)).
Proof.
  induction l as [|x l IH]; simpl; intros Hnd; [constructor|].
  inversion Hnd as [|? ? Hnotin Hnd']; subst.
  destruct (p x); simpl; [|apply IH; exact Hnd'].
  constructor; [|apply IH; exact Hnd'].
  intros Hin. apply Hnotin.
  apply in_map_iff in Hin. destruct Hin as [m [Hid Hm]].
  apply filter_In in Hm. rewrite <- Hid. apply in_map. tauto.
Qed.

Lemma descending_firstn (n : nat) (l : list MessageDocument) :
  idsDescending l -> idsDescending (firstn n l).
Proof.
  intros H. rewrite <- (firstn_skipn n l) in H.
  apply descending_app in H. tauto.
Qed.

End Descending.

(** What a successful [listMessages] read. *)
Lemma listMessages_ok_inv (s s' : Store) (roomId : ObjectId)
    (user : Principal) (limit : option nat) (beforeId : option ObjectId)
    (page : list MessageDocument) :
  MessageService.listMessages roomId user limit beforeId s = (Ok page, s') ->
  s' = s
  /\ (exists room,
        find (fun r => r_id r =? roomId) (rooms s) = Some room
        /\ MessageService.assertRoomAccess room user = Ok tt)
  /\ page = MessageService.applyLimit
              (match limit with Some n => n | None => 50 end)
              (MessageService.sortBy MessageService.greaterId
                 (filter (MessageService.inPage roomId beforeId) (messages s))).
Proof.
  unfold MessageService.listMessages, MessageService.findRoomById.
  run_service.
  destruct (find (fun r => r_id r =? roomId) (rooms s)) as [room|];
    simpl; [|discriminate].
  destruct (MessageService.assertRoomAccess room user) as [[]|e] eqn:Eacc;
    simpl; [|discriminate].
  intros H. inversion H; subst. repeat split; auto.
  exists room. auto.
Qed.

(** X9.  A page returned by [listMessages] is read-only and well shaped:
    the store is unchanged; the page holds stored messages of the room
    only, each with an id below [beforeId] when one is given; with
    distinct message ids it is in strictly descending id order; and it
    has at most [limit] entries, where a missing limit means 50 and the
    limit 0 means no limit at all. *)
Theorem listMessages_page_shape (s s' : Store) (roomId : ObjectId)
    (user : Principal) (limit : option nat) (beforeId : option ObjectId)
    (page : list MessageDocument) :
  MessageService.listMessages roomId user limit beforeId s = (Ok page, s') ->
  s' = s
  /\ (forall m, In m page ->
        In m (messages s) /\ m_room m = roomId
        /\ forall b, beforeId = Some b -> m_id m < b)
  /\ (messageIdsUnique s -> idsDescending page)
  /\ (match limit with
      | Some 0 =>
          forall m, In m (messages s) ->
            MessageService.inPage roomId beforeId m = true -> In m page
      | Some n => List.length page <= n
      | None => List.length page <= 50
      end).
Proof.
  intros Hrun. apply listMessages_ok_inv in Hrun.
  destruct Hrun as [Hs [_ Hpage]]. split; [exact Hs|].
  set (full := MessageService.sortBy MessageService.greaterId
                 (filter (MessageService.inPage roomId beforeId)
                    (messages s))) in *.
  assert (Hsub : forall m, In m page -> In m full).
  { intros m Hm. subst page. unfold MessageService.applyLimit in Hm.
    destruct (_ =? 0); [exact Hm | eapply firstn_subset; exact Hm]. }
  split; [|split].
  - intros m Hm. apply Hsub in Hm. apply sortBy_In in Hm.
    apply filter_In in Hm. destruct Hm as [Hin Hq].
    unfold MessageService.inPage in Hq. apply andb_true_iff in Hq.
    destruct Hq as [Hr Hb]. apply Nat.eqb_eq in Hr.
    repeat split; auto.
    intros b Hbefore. subst beforeId. apply Nat.ltb_lt. exact Hb.
  - intros Huniq.
    assert (Hfull : idsDescending full).
    { apply sortBy_descending. apply NoDup_map_filter. exact Huniq. }
    subst page. unfold MessageService.applyLimit.
    destruct (_ =? 0); [exact Hfull | apply descending_firstn; exact Hfull].
  - subst page. destruct limit as [[|n]|]; simpl.
    + intros m Hin Hq. apply sortBy_In. apply filter_In. auto.
    + apply firstn_le_length.
    + apply firstn_le_length.
Qed.

Lemma messageIdsUnique_history :
  messageIdsUnique MoreFixtures.storeWithHistory.
Proof.
  unfold messageIdsUnique. simpl.
  repeat (constructor; [simpl; intuition discriminate|]). constructor.
Qed.

Lemma listMessages_page_shape_witness :
  let page := [ MoreFixtures.textMessage 53 10 1 "trois" 300%N;
                MoreFixtures.textMessage 52 10 1 "deux" 200%N ] in
  MessageService.listMessages 10 Fixtures.parent1 (Some 2) (Some 54)
    MoreFixtures.storeWithHistory
  = (Ok page, MoreFixtures.storeWithHistory)
  /\ (forall m, In m page ->
        In m (messages MoreFixtures.storeWithHistory) /\ m_room m = 10
        /\ forall b, Some 54 = Some b -> m_id m < b)
  /\ (messageIdsUnique MoreFixtures.storeWithHistory -> idsDescending page)
  /\ List.length page <= 2.
Proof.
  intros page.
  assert (Hrun : MessageService.listMessages 10 Fixtures.parent1 (Some 2)
                   (Some 54) MoreFixtures.storeWithHistory
                 = (Ok page, MoreFixtures.storeWithHistory))
    by reflexivity.
  split; [exact Hrun|].
  exact (proj2 (listMessages_page_shape _ _ _ _ _ _ _ Hrun)).
Defined.

(** X10.  Pages of [listMessages] tile the history of a room.  With
    distinct message ids and a limit n > 0: the first page followed by
    the page asked with [beforeId] set to the id of the first page's last
    message is the newest 2n messages of the room, in order, with no
    message repeated and none skipped. *)
Theorem listMessages_pages_tile (s : Store) (roomId : ObjectId)
    (user : Principal) (n : nat) (front page2 all : list MessageDocument)
    (lastMsg : MessageDocument) :
  messageIdsUnique s -> 0 < n ->
  MessageService.listMessages roomId user (Some n) None s
  = (Ok (front ++ [lastMsg])%list, s) ->
  MessageService.listMessages roomId user (Some n) (Some (m_id lastMsg)) s
  = (Ok page2, s) ->
  MessageService.listMessages roomId user (Some 0) None s = (Ok all, s) ->
  ((front ++ [lastMsg]) ++ page2)%list = firstn (2 * n) all.
Proof.
  intros Huniq Hn H1 H2 Hall.
  apply listMessages_ok_inv in H1. destruct H1 as [_ [_ H1]].
  apply listMessages_ok_inv in H2. destruct H2 as [_ [_ H2]].
  apply listMessages_ok_inv in Hall. destruct Hall as [_ [_ Hall]].
  unfold MessageService.applyLimit in *.
  assert (En : (n =? 0) = false) by (apply Nat.eqb_neq; lia).
  rewrite En in H1, H2. simpl in Hall.
  set (msgs := messages s) in *.
  assert (Hdesc : idsDescending all).
  { subst all. apply sortBy_descending. apply NoDup_map_filter. exact Huniq. }
  assert (Hsplit : idsDescending (firstn n all ++ skipn n all)).
  { rewrite firstn_skipn. exact Hdesc. }
  apply descending_app in Hsplit. destruct Hsplit as [Hd1 [Hd2 Hcross]].
  assert (Hpage1 : firstn n all = (front ++ [lastMsg])%list).
  { rewrite H1, Hall. reflexivity. }
  assert (Hrest : MessageService.sortBy MessageService.greaterId
                    (filter (MessageService.inPage roomId (Some (m_id lastMsg)))
                       msgs)
                  = skipn n all).
  { apply descending_unique.
    - apply sortBy_descending. apply NoDup_map_filter. exact Huniq.
    - exact Hd2.
    - intros m. rewrite sortBy_In, filter_In.
      assert (Hin_all : In m all <->
                In m msgs /\ MessageService.inPage roomId None m = true).
      { subst all. rewrite sortBy_In, filter_In. reflexivity. }
      unfold MessageService.inPage in *. split.
      + intros [Hm Hq]. apply andb_true_iff in Hq. destruct Hq as [Hr Hb].
        apply Nat.ltb_lt in Hb.
        assert (Hma : In m all).
        { apply Hin_all. split; [exact Hm|]. rewrite Hr. reflexivity. }
        rewrite <- (firstn_skipn n all) in Hma. apply in_app_or in Hma.
        destruct Hma as [Hma|Hma]; [|exact Hma].
        exfalso. rewrite Hpage1 in Hma, Hd1. apply in_app_or in Hma.
        destruct Hma as [Hma|[Hma|[]]].
        * apply descending_app in Hd1. destruct Hd1 as [_ [_ Hc]].
          specialize (Hc m lastMsg Hma (or_introl eq_refl)). lia.
        * subst m. lia.
      + intros Hm.
        assert (Hma : In m all).
        { rewrite <- (firstn_skipn n all). apply in_or_app. right. exact Hm. }
        apply Hin_all in Hma. destruct Hma as [Hmm Hq].
        split; [exact Hmm|].
        apply andb_true_iff in Hq. destruct Hq as [Hr _]. rewrite Hr. simpl.
        apply Nat.ltb_lt. apply (Hcross lastMsg m); [|exact Hm].
        rewrite Hpage1. apply in_or_app. right. left. reflexivity. }
  rewrite <- Hpage1, H2, Hrest.
  replace (2 * n) with (n + n) by lia. symmetry. apply firstn_plus.
Qed.

Lemma listMessages_pages_tile_witness :
  let m := MoreFixtures.textMessage in
  (([m 55 10 1 "cinq" 500%N] ++ [m 54 10 1 "quatre" 400%N])
   ++ [m 53 10 1 "trois" 300%N; m 52 10 1 "deux" 200%N])%list
  = firstn (2 * 2)
      [ m 55 10 1 "cinq" 500%N; m 54 10 1 "quatre" 400%N;
        m 53 10 1 "trois" 300%N; m 52 10 1 "deux" 200%N;
        m 51 10 1 "un" 100%N ].
Proof.
  intros m.
  apply (listMessages_pages_tile MoreFixtures.storeWithHistory 10
           Fixtures.parent1 2 [m 55 10 1 "cinq" 500%N]
           [m 53 10 1 "trois" 300%N; m 52 10 1 "deux" 200%N]
           _ (m 54 10 1 "quatre" 400%N) messageIdsUnique_history).
  - lia.
  - reflexivity.
  - reflexivity.
  - reflexivity.
Defined.

Section Ranked.

Context {A : Type}.
Variable rank : A -> N.
Variable before : A -> A -> bool.
Hypothesis before_rank : forall y x, before y x = N.ltb (rank x) (rank y).

Lemma insert_rankDescending (x : A) (l : list A) :
  rankDescending rank l ->
  rankDescending rank (MessageService.insertSorted before x l).
Proof.
  unfold rankDescending. induction l as [|y l IH]; simpl; intros Hs.
  - constructor; constructor.
  - inversion Hs as [|? ? Hs' Hall]; subst.
    rewrite before_rank. destruct (N.ltb (rank x) (rank y)) eqn:E.
    + apply N.ltb_lt in E. constructor; [apply IH; exact Hs'|].
      apply Forall_forall. intros b Hb.
      apply (Permutation_in _ (insertSorted_perm _ x l)) in Hb.
      destruct Hb as [Hb|Hb]; [subst b; lia|].
      rewrite Forall_forall in Hall. apply Hall. exact Hb.
    + apply N.ltb_ge in E. constructor; [exact Hs|].
      constructor; [exact E|].
      eapply Forall_impl; [|exact Hall]. simpl. intros b Hb. lia.
Qed.

Lemma sortBy_rankDescending (l : list A) :
  rankDescending rank (MessageService.sortBy before l).
Proof.
  induction l as [|x l IH]; simpl.
  - constructor.
  - apply insert_rankDescending. exact IH.
Qed.

End Ranked.

Lemma laterProjection_rank (y x : RoomDocument) :
  MessageService.laterProjection y x
  = N.ltb (projectionRank x) (projectionRank y).
Proof.
  unfold MessageService.laterProjection, projectionRank.
  destruct (r_lastMessage y) as [ly|]; destruct (r_lastMessage x) as [lx|].
  - destruct (N.ltb (lm_createdAt lx) (lm_createdAt ly)) eqn:E;
      symmetry; [apply N.ltb_lt; apply N.ltb_lt in E
                |apply N.ltb_ge; apply N.ltb_ge in E]; lia.
  - symmetry. apply N.ltb_lt. lia.
  - symmetry. apply N.ltb_ge. lia.
  - reflexivity.
Qed.

(** X11.  [listRoomsForParent] may be called by the parent itself or by
    an administrator; anyone else gets Forbidden.  It writes nothing and
    returns exactly the stored rooms that are active and have the parent
    as main or invited parent, each once per stored copy, ordered by the
    time of their last message, newest first, rooms never written to
    last. *)
Theorem listRoomsForParent_spec (s : Store) (parentId : ObjectId)
    (user : Principal) :
  (isAdminRole user = false -> getUserId user <> parentId ->
   MessageService.listRoomsForParent parentId user s
   = (Throw ForbiddenException, s))
  /\ (isAdminRole user = true \/ getUserId user = parentId ->
      exists l,
        MessageService.listRoomsForParent parentId user s = (Ok l, s)
        /\ (forall r, In r l <->
              In r (rooms s) /\ r_isActive r = true
              /\ (r_parent r = parentId
                  \/ memberOf parentId (r_invitedParents r)))
        /\ rankDescending projectionRank l
        /\ Permutation l
             (filter (fun r => r_isActive r
                               && ((r_parent r =? parentId)
                                   || someEquals (r_invitedParents r) parentId))
                (rooms s))).
Proof.
  unfold MessageService.listRoomsForParent. run_service. split.
  - intros Hadmin Hne. apply Nat.eqb_neq in Hne. rewrite Hadmin, Hne.
    reflexivity.
  - intros Hmay.
    assert (E : negb (isAdminRole user) && negb (getUserId user =? parentId)
                = false).
    { destruct Hmay as [H|H]; [rewrite H; reflexivity|].
      rewrite H, Nat.eqb_refl. apply andb_false_r. }
    rewrite E. eexists. split; [reflexivity|]. split; [|split].
    + intros r. rewrite sortBy_In, filter_In.
      rewrite orb_true_iff, !andb_true_iff, Nat.eqb_eq.
      rewrite someEquals_memberOf. tauto.
    + apply sortBy_rankDescending. apply laterProjection_rank.
    + rewrite sortBy_perm.
      erewrite filter_ext; [reflexivity|].
      intros r. simpl.
      destruct (r_parent r =? parentId);
        destruct (someEquals (r_invitedParents r) parentId);
        destruct (r_isActive r); reflexivity.
Qed.

Lemma listRoomsForParent_spec_witness :
  exists l,
    MessageService.listRoomsForParent 1 Fixtures.parent1 Fixtures.store0
    = (Ok l, Fixtures.store0)
    /\ (forall r, In r l <->
          In r (rooms Fixtures.store0) /\ r_isActive r = true
          /\ (r_parent r = 1 \/ memberOf 1 (r_invitedParents r)))
    /\ rankDescending projectionRank l
    /\ Permutation l
         (filter (fun r => r_isActive r
                           && ((r_parent r =? 1)
                               || someEquals (r_invitedParents r) 1))
            (rooms Fixtures.store0)).
Proof.
  apply (proj2 (listRoomsForParent_spec Fixtures.store0 1 Fixtures.parent1)).
  right. reflexivity.
Defined.

(** What a successful [listAudioMessages] read. *)
Lemma listAudioMessages_ok_inv (s s' : Store) (roomId : ObjectId)
    (user : Principal) (sender : option MessageService.SenderFilter)
    (l : list MessageDocument) :
  MessageService.listAudioMessages roomId user sender s = (Ok l, s') ->
  s' = s
  /\ exists room,
       find (fun r => r_id r =? roomId) (rooms s) = Some room
       /\ MessageService.assertRoomAccess room user = Ok tt
       /\ l = MessageService.sortBy MessageService.laterCreated
                (filter (MessageService.audioQuery room user sender)
                   (messages s)).
Proof.
  unfold MessageService.listAudioMessages, MessageService.findRoomById.
  run_service.
  destruct (find (fun r => r_id r =? roomId) (rooms s)) as [room|];
    simpl; [|discriminate].
  destruct (MessageService.assertRoomAccess room user) as [[]|e] eqn:Eacc;
    simpl; [|discriminate].
  intros H. inversion H; subst. split; [reflexivity|].
  exists room. auto.
Qed.

(** X12.  The voice listings of a room fit together.  The listing
    without a filter is the 'all' listing: the stored AUDIO messages of
    the room, newest first.  The 'parent' and 'child' listings split it
    in two without overlap.  The 'me' listing is the part of it sent
    under the caller's own id by a sender of the caller's kind. *)
Theorem listAudioMessages_partition (s : Store) (roomId : ObjectId)
    (user : Principal) (all parents kids mine : list MessageDocument) :
  MessageService.listAudioMessages roomId user
    (Some MessageService.SenderAll) s = (Ok all, s) ->
  MessageService.listAudioMessages roomId user
    (Some MessageService.SenderParent) s = (Ok parents, s) ->
  MessageService.listAudioMessages roomId user
    (Some MessageService.SenderChildOnly) s = (Ok kids, s) ->
  MessageService.listAudioMessages roomId user
    (Some MessageService.SenderMe) s = (Ok mine, s) ->
  MessageService.listAudioMessages roomId user None s = (Ok all, s)
  /\ (forall m, In m all <->
        In m (messages s) /\ m_room m = roomId /\ m_type m = AUDIO)
  /\ rankDescending m_createdAt all
  /\ (forall m, In m all <-> In m parents \/ In m kids)
  /\ (forall m, ~ (In m parents /\ In m kids))
  /\ (forall m, In m mine <->
        In m all /\ m_senderId m = getUserId user
        /\ m_senderModel m
           = (if isChildType user then Child else User)).
Proof.
  intros Hall Hpar Hkid Hme.
  apply listAudioMessages_ok_inv in Hall.
  destruct Hall as [_ [room [Hroom [Hacc Hall]]]].
  apply listAudioMessages_ok_inv in Hpar.
  destruct Hpar as [_ [room1 [Hroom1 [_ Hpar]]]].
  apply listAudioMessages_ok_inv in Hkid.
  destruct Hkid as [_ [room2 [Hroom2 [_ Hkid]]]].
  apply listAudioMessages_ok_inv in Hme.
  destruct Hme as [_ [room3 [Hroom3 [_ Hme]]]].
  assert (room1 = room) by congruence. assert (room2 = room) by congruence.
  assert (room3 = room) by congruence. subst room1 room2 room3.
  pose proof (find_some_holds _ _ _ Hroom) as [Hid _].
  apply Nat.eqb_eq in Hid.
  assert (Haudio : forall m, MessageService.isAudio m = true <-> m_type m = AUDIO).
  { intros m. unfold MessageService.isAudio.
    destruct (m_type m); split; intros H; congruence. }
  assert (Hmodel : forall a b, SenderModel_eqb a b = true <-> a = b).
  { intros [] []; simpl; split; intros H; congruence. }
  split; [|split; [|split; [|split; [|split]]]].
  - unfold MessageService.listAudioMessages, MessageService.findRoomById.
    run_service. rewrite Hroom. simpl. rewrite Hacc. simpl.
    rewrite Hall. reflexivity.
  - intros m. rewrite Hall, sortBy_In, filter_In.
    unfold MessageService.audioQuery.
    rewrite !andb_true_iff, Nat.eqb_eq, Haudio, Hid. intuition auto.
  - rewrite Hall.
    apply (sortBy_rankDescending m_createdAt MessageService.laterCreated).
    reflexivity.
  - intros m. rewrite Hall, Hpar, Hkid, !sortBy_In, !filter_In.
    unfold MessageService.audioQuery.
    rewrite !andb_true_iff, !Hmodel.
    destruct (m_senderModel m); intuition congruence.
  - intros m. rewrite Hpar, Hkid, !sortBy_In, !filter_In.
    unfold MessageService.audioQuery.
    rewrite !andb_true_iff, !Hmodel. intros [[_ [_ H1]] [_ [_ H2]]].
    congruence.
  - intros m. rewrite Hall, Hme, !sortBy_In, !filter_In.
    unfold MessageService.audioQuery.
    rewrite !andb_true_iff, !Hmodel, !Nat.eqb_eq. intuition auto.
Qed.

Lemma listAudioMessages_partition_witness :
  let a := MoreFixtures.audioMessage in
  let all := [a 64 10 User 3 400%N; a 62 10 Child 2 200%N;
              a 61 10 User 1 100%N] in
  let parents := [a 64 10 User 3 400%N; a 61 10 User 1 100%N] in
  let kids := [a 62 10 Child 2 200%N] in
  let mine := [a 61 10 User 1 100%N] in
  MessageService.listAudioMessages 10 Fixtures.parent1 None
    MoreFixtures.storeWithClips = (Ok all, MoreFixtures.storeWithClips)
  /\ (forall m, In m all <->
        In m (messages MoreFixtures.storeWithClips) /\ m_room m = 10
        /\ m_type m = AUDIO)
  /\ rankDescending m_createdAt all
  /\ (forall m, In m all <-> In m parents \/ In m kids)
  /\ (forall m, ~ (In m parents /\ In m kids))
  /\ (forall m, In m mine <->
        In m all /\ m_senderId m = getUserId Fixtures.parent1
        /\ m_senderModel m
           = (if isChildType Fixtures.parent1 then Child else User)).
Proof.
  intros a all parents kids mine.
  apply (listAudioMessages_partition MoreFixtures.storeWithClips 10
           Fixtures.parent1 all parents kids mine); reflexivity.
Defined.

(* ------------------------------------------------------------------ *)
(** ** Sending, identifiers, deletion                                   *)
(* ------------------------------------------------------------------ *)

Lemma assertRoomAccess_outcomes (room : RoomDocument) (user : Principal) :
  MessageService.assertRoomAccess room user = Ok tt
  \/ MessageService.assertRoomAccess room user = Throw ForbiddenException.
Proof.
  unfold MessageService.assertRoomAccess.
  repeat match goal with
         | |- context [if ?b then _ else _] => destruct b
         end; auto.
Qed.

(** The outcomes of the function case by case, shared by the statements
    below. *)
Lemma sendText_cases (dto : MessageService.SendTextDto)
    (user : Principal) (s : Store) :
  (find (fun r => r_id r =? MessageService.st_roomId dto) (rooms s) = None ->
   MessageService.sendText dto user s = (Throw NotFoundException, s))
  /\ forall room,
       find (fun r => r_id r =? MessageService.st_roomId dto) (rooms s)
       = Some room ->
       (MessageService.assertRoomAccess room user = Ok tt
        /\ authorizedSender s room (MessageService.st_senderModel dto)
             (MessageService.st_senderId dto) ->
        exists msg s',
          MessageService.sendText dto user s = (Ok msg, s')
          /\ messages s' = (messages s ++ [msg])%list
          /\ m_id msg = nextId s /\ nextId s' = S (nextId s)
          /\ m_type msg = TEXT /\ m_text msg = MessageService.st_text dto
          /\ m_senderModel msg = MessageService.st_senderModel dto
          /\ m_senderId msg = MessageService.st_senderId dto
          /\ m_room msg = MessageService.st_roomId dto)
       /\ (~ (MessageService.assertRoomAccess room user = Ok tt
              /\ authorizedSender s room (MessageService.st_senderModel dto)
                   (MessageService.st_senderId dto)) ->
           MessageService.sendText dto user s = (Throw ForbiddenException, s)).
Proof.
  split.
  - intros Hnone.
    unfold MessageService.sendText, MessageService.findRoomById.
    run_service. rewrite Hnone. reflexivity.
  - intros room Hroom.
    pose proof (find_some_holds _ _ _ Hroom) as [Hid _].
    apply Nat.eqb_eq in Hid.
    split.
    + intros [Hacc Hauth]. apply validateSender_ok_iff in Hauth.
      destruct (sendText_succeeds dto user s room Hroom Hacc Hauth)
        as [msg [s' Hrun]].
      exists msg, s'. split; [exact Hrun|].
      apply sendText_ok_inv in Hrun.
      destruct Hrun as [room0 [Hroom0 [_ [_ [Hmsg Hs']]]]].
      assert (room0 = room) by congruence. subst room0.
      subst msg s'. simpl. repeat split; auto.
    + intros Hnot.
      unfold MessageService.sendText, MessageService.findRoomById.
      run_service. rewrite Hroom. simpl.
      destruct (assertRoomAccess_outcomes room user) as [Hacc|Hacc];
        rewrite Hacc; simpl; [|reflexivity].
      destruct (validateSender_outcomes s room
                  (MessageService.st_senderModel dto)
                  (MessageService.st_senderId dto)) as [Hv|Hv];
        rewrite Hv; simpl; [|reflexivity].
      exfalso. apply Hnot. split; [exact Hacc|].
      apply validateSender_ok_iff. exact Hv.
Qed.

(** X13.  The outcome of [sendText], in the order the checks run: no
    room, NotFound; a caller without access to the room or a named sender
    that [validateSender] rejects, Forbidden; and in both cases nothing
    is written.  Otherwise exactly one TEXT message is appended, with a
    fresh id, and it is attributed to the sender named in the request,
    whoever the caller is. *)
Theorem sendText_outcome (dto : MessageService.SendTextDto)
    (user : Principal) (s : Store) :
  (find (fun r => r_id r =? MessageService.st_roomId dto) (rooms s) = None ->
   MessageService.sendText dto user s = (Throw NotFoundException, s))
  /\ forall room,
       find (fun r => r_id r =? MessageService.st_roomId dto) (rooms s)
       = Some room ->
       (MessageService.assertRoomAccess room user = Ok tt
        /\ authorizedSender s room (MessageService.st_senderModel dto)
             (MessageService.st_senderId dto) ->
        exists msg s',
          MessageService.sendText dto user s = (Ok msg, s')
          /\ messages s' = (messages s ++ [msg])%list
          /\ m_id msg = nextId s /\ nextId s' = S (nextId s)
          /\ m_type msg = TEXT /\ m_text msg = MessageService.st_text dto
          /\ m_senderModel msg = MessageService.st_senderModel dto
          /\ m_senderId msg = MessageService.st_senderId dto
          /\ m_room msg = MessageService.st_roomId dto)
       /\ (~ (MessageService.assertRoomAccess room user = Ok tt
              /\ authorizedSender s room (MessageService.st_senderModel dto)
                   (MessageService.st_senderId dto)) ->
           MessageService.sendText dto user s = (Throw ForbiddenException, s)).
Proof. exact (sendText_cases dto user s). Qed.

Lemma sendText_outcome_witness :
  exists msg s',
    MessageService.sendText (textDto 10 User 1 (Some "hello"))
      Fixtures.parent1 Fixtures.store0 = (Ok msg, s')
    /\ messages s' = (messages Fixtures.store0 ++ [msg])%list
    /\ m_id msg = 100 /\ nextId s' = 101
    /\ m_type msg = TEXT /\ m_text msg = Some "hello"
    /\ m_senderModel msg = User
    /\ m_senderId msg = 1
    /\ m_room msg = 10.
Proof.
  apply (proj1 (proj2 (sendText_outcome (textDto 10 User 1 (Some "hello"))
                         Fixtures.parent1 Fixtures.store0)
                  Fixtures.room10 eq_refl)).
  split; [reflexivity|]. right. split; [reflexivity|]. left. reflexivity.
Defined.

(** X14.  The linked-parent fallback of [validateSender] never lets a
    parent write under its own id: for a caller that is a user without
    the ADMIN role and names itself as the User sender, [sendText] goes
    through exactly when the caller is the room's main parent or one of
    its invited parents, whether or not the child record lists the caller
    as a linked parent. *)
Theorem sendText_own_id_needs_membership (user : Principal) (s : Store)
    (roomId : ObjectId) (room : RoomDocument) (text : option string) :
  p_type user = TypeUser -> isAdminRole user = false ->
  find (fun r => r_id r =? roomId) (rooms s) = Some room ->
  ((exists msg s',
      MessageService.sendText (textDto roomId User (getUserId user) text)
        user s = (Ok msg, s'))
   <-> r_parent room = getUserId user
       \/ memberOf (getUserId user) (r_invitedParents room))
  /\ (~ (r_parent room = getUserId user
         \/ memberOf (getUserId user) (r_invitedParents room)) ->
      MessageService.sendText (textDto roomId User (getUserId user) text)
        user s = (Throw ForbiddenException, s)).
Proof.
  intros Hty Hadmin Hroom.
  destruct (sendText_cases (textDto roomId User (getUserId user) text)
              user s) as [_ Hout].
  destruct (Hout room Hroom) as [Hyes Hno]. clear Hout.
  pose proof (assertRoomAccess_parent room user Hadmin Hty) as Hacc.
  assert (Hpart : MessageService.isRoomParticipant room User (getUserId user)
                  = true
                  <-> r_parent room = getUserId user
                      \/ memberOf (getUserId user) (r_invitedParents room)).
  { unfold MessageService.isRoomParticipant.
    rewrite orb_true_iff, Nat.eqb_eq, someEquals_memberOf. reflexivity. }
  split.
  - split.
    + intros [msg [s' Hrun]]. apply sendText_ok_inv in Hrun.
      destruct Hrun as [room0 [Hroom0 [Ha _]]]. simpl in Hroom0.
      assert (room0 = room) by congruence. subst room0.
      apply Hpart. rewrite Hacc in Ha.
      destruct (MessageService.isRoomParticipant room User (getUserId user));
        [reflexivity | discriminate].
    + intros Hmem. destruct Hyes as [msg [s' [Hrun _]]].
      * split.
        -- rewrite Hacc. apply Hpart in Hmem. rewrite Hmem. reflexivity.
        -- right. split; [reflexivity|].
           destruct Hmem as [H|H]; [left; symmetry; exact H | right; left; exact H].
      * exists msg, s'. exact Hrun.
  - intros Hnot. apply Hno. intros [Ha _]. apply Hnot. apply Hpart.
    rewrite Hacc in Ha.
    destruct (MessageService.isRoomParticipant room User (getUserId user));
      [reflexivity | discriminate].
Qed.

Lemma sendText_own_id_needs_membership_witness :
  ((exists msg s',
      MessageService.sendText
        (textDto 10 User (getUserId Fixtures.linked4) (Some "coucou"))
        Fixtures.linked4 Fixtures.store0 = (Ok msg, s'))
   <-> r_parent Fixtures.room10 = getUserId Fixtures.linked4
       \/ memberOf (getUserId Fixtures.linked4)
            (r_invitedParents Fixtures.room10))
  /\ (~ (r_parent Fixtures.room10 = getUserId Fixtures.linked4
         \/ memberOf (getUserId Fixtures.linked4)
              (r_invitedParents Fixtures.room10)) ->
      MessageService.sendText
        (textDto 10 User (getUserId Fixtures.linked4) (Some "coucou"))
        Fixtures.linked4 Fixtures.store0
      = (Throw ForbiddenException, Fixtures.store0)).
Proof.
  apply (sendText_own_id_needs_membership Fixtures.linked4 Fixtures.store0
           10 Fixtures.room10 (Some "coucou")); reflexivity.
Defined.

Lemma wellFormedSignal_decided (name : string) (type : MessageType)
    (payload : SignalPayload) :
  MessageService.signalType name = Some type
  /\ MessageService.payloadValid type payload = true
  <-> wellFormedSignal name type payload.
Proof.
  unfold wellFormedSignal. split.
  - intros [Hname Hvalid].
    assert (Hfield : forall field,
               truthy (payloadField payload field) = true ->
               exists value, payloadField payload field = Some value
                             /\ value <> "").
    { intros field Ht. destruct (payloadField payload field) as [v|];
        [|discriminate].
      exists v. split; [reflexivity|]. simpl in Ht.
      intros Hv. subst v. discriminate. }
    unfold MessageService.signalType in Hname.
    destruct (String.eqb name "CALL_OFFER") eqn:E1.
    { apply String.eqb_eq in E1. inversion Hname; subst.
      destruct (Hfield "sdp" Hvalid) as [v [Hv Hne]].
      exists "sdp", v. split; [constructor | auto]. }
    destruct (String.eqb name "CALL_ANSWER") eqn:E2.
    { apply String.eqb_eq in E2. inversion Hname; subst.
      destruct (Hfield "sdp" Hvalid) as [v [Hv Hne]].
      exists "sdp", v. split; [constructor | auto]. }
    destruct (String.eqb name "ICE_CANDIDATE") eqn:E3; [|discriminate].
    apply String.eqb_eq in E3. inversion Hname; subst.
    destruct (Hfield "candidate" Hvalid) as [v [Hv Hne]].
    exists "candidate", v. split; [constructor | auto].
  - intros [field [value [Hacc [Hfield Hne]]]].
    assert (Ht : truthy (payloadField payload field) = true).
    { rewrite Hfield. simpl. apply negb_true_iff.
      apply String.eqb_neq. exact Hne. }
    inversion Hacc; subst; split; try reflexivity; exact Ht.
Qed.

Lemma namedParticipant_decided (room : RoomDocument) (sm : SenderModel)
    (sid : ObjectId) :
  MessageService.isRoomParticipant room sm sid = true
  <-> namedParticipant room sm sid.
Proof.
  unfold MessageService.isRoomParticipant, MessageService.getChildId,
    namedParticipant.
  destruct sm.
  - rewrite orb_true_iff, Nat.eqb_eq, someEquals_memberOf. split.
    + intros [H|H]; right; split; auto.
    + intros [[H _]|[_ [H|H]]]; [discriminate | left; auto | right; auto].
  - rewrite Nat.eqb_eq. split.
    + intros H. left. auto.
    + intros [[_ H]|[H _]]; [auto | discriminate].
Qed.

(** X15.  The outcome of [sendSignal], whoever the authenticated caller
    is.  A request that does not name one of the three signals, or whose
    payload lacks a non-empty sdp (offer, answer) or candidate (ICE
    candidate), is a BadRequest, even when the room does not exist.  For
    a well-formed request, a missing room is NotFound, and a named sender
    that is neither the room's child, its main parent nor an invited
    parent is Forbidden.  All of these write nothing.  Otherwise exactly
    one message is appended: it has the signal's type, the payload as
    received, the named sender, the room's id, no text and a fresh id;
    the rooms are not touched. *)
Theorem sendSignal_outcome (dto : MessageService.SendSignalDto)
    (user : Principal) (s : Store) :
  (~ (exists type,
        wellFormedSignal (MessageService.sg_type dto) type
          (MessageService.sg_payload dto)) ->
   MessageService.sendSignal dto user s = (Throw BadRequestException, s))
  /\ (forall type,
        wellFormedSignal (MessageService.sg_type dto) type
          (MessageService.sg_payload dto) ->
        (find (fun r => r_id r =? MessageService.sg_roomId dto) (rooms s)
         = None ->
         MessageService.sendSignal dto user s = (Throw NotFoundException, s))
        /\ forall room,
             find (fun r => r_id r =? MessageService.sg_roomId dto) (rooms s)
             = Some room ->
             (~ namedParticipant room (MessageService.sg_senderModel dto)
                  (MessageService.sg_senderId dto) ->
              MessageService.sendSignal dto user s
              = (Throw ForbiddenException, s))
             /\ (namedParticipant room (MessageService.sg_senderModel dto)
                   (MessageService.sg_senderId dto) ->
                 exists msg s',
                   MessageService.sendSignal dto user s = (Ok msg, s')
                   /\ messages s' = (messages s ++ [msg])%list
                   /\ rooms s' = rooms s
                   /\ m_type msg = type
                   /\ m_signalingPayload msg
                      = Some (MessageService.sg_payload dto)
                   /\ m_senderModel msg = MessageService.sg_senderModel dto
                   /\ m_senderId msg = MessageService.sg_senderId dto
                   /\ m_room msg = MessageService.sg_roomId dto
                   /\ m_text msg = None
                   /\ m_id msg = nextId s /\ nextId s' = S (nextId s))).
Proof.
  unfold MessageService.sendSignal, MessageService.findRoomById,
    MessageService.createMessage.
  run_service. split.
  - intros Hno.
    destruct (MessageService.signalType (MessageService.sg_type dto))
      as [type|] eqn:Etype; simpl; [|reflexivity].
    destruct (MessageService.payloadValid type (MessageService.sg_payload dto))
      eqn:Evalid; simpl; [|reflexivity].
    exfalso. apply Hno. exists type.
    apply wellFormedSignal_decided. auto.
  - intros type Hwf. apply wellFormedSignal_decided in Hwf.
    destruct Hwf as [Etype Evalid]. rewrite Etype. simpl.
    rewrite Evalid. simpl. split.
    + intros Hnone. rewrite Hnone. reflexivity.
    + intros room Hroom. rewrite Hroom. simpl.
      pose proof (find_some_holds _ _ _ Hroom) as [Hid _].
      apply Nat.eqb_eq in Hid.
      destruct (MessageService.isRoomParticipant room
                  (MessageService.sg_senderModel dto)
                  (MessageService.sg_senderId dto)) eqn:Epart; simpl.
      * apply namedParticipant_decided in Epart.
        split; [intros Hn; contradiction|]. intros _.
        eexists. eexists. split; [reflexivity|]. simpl.
        repeat split. exact Hid.
      * split; [intros _; reflexivity|]. intros Hp.
        apply namedParticipant_decided in Hp. congruence.
Qed.

(** The stranger 5, who is in no room, sends a call offer to room 10 in
    the name of the parent 1: it is stored. *)
Lemma sendSignal_outcome_witness :
  MessageService.assertRoomAccess Fixtures.room10 Fixtures.stranger5
  = Throw ForbiddenException
  /\ exists msg s',
       MessageService.sendSignal (signalDto 10 User 1 "CALL_OFFER" [("sdp", "v=0")])
         Fixtures.stranger5 Fixtures.store0 = (Ok msg, s')
       /\ messages s' = (messages Fixtures.store0 ++ [msg])%list
       /\ rooms s' = rooms Fixtures.store0
       /\ m_type msg = CALL_OFFER
       /\ m_signalingPayload msg = Some [("sdp", "v=0")]
       /\ m_senderModel msg = User
       /\ m_senderId msg = 1
       /\ m_room msg = 10
       /\ m_text msg = None
       /\ m_id msg = 100 /\ nextId s' = 101.
Proof.
  split; [reflexivity|].
  apply (proj2 (proj2 (proj2 (sendSignal_outcome
                                (signalDto 10 User 1 "CALL_OFFER"
                                   [("sdp", "v=0")])
                                Fixtures.stranger5 Fixtures.store0)
                         CALL_OFFER
                         ltac:(exists "sdp", "v=0";
                               split; [constructor|];
                               split; [reflexivity | discriminate]))
                  Fixtures.room10 eq_refl)).
  right. split; [reflexivity|]. left. reflexivity.
Defined.

(** Appending a message with the generator's id keeps ids fresh and
    distinct, and the message can be read back by its id. *)
Lemma append_fresh_message (s s' : Store) (msg : MessageDocument) :
  messageIdsFresh s ->
  messages s' = (messages s ++ [msg])%list ->
  m_id msg = nextId s -> nextId s' = S (nextId s) ->
  MessageService.getMessageById (m_id msg) s' = (Ok (Some msg), s')
  /\ messageIdsFresh s'
  /\ (messageIdsUnique s -> messageIdsUnique s').
Proof.
  unfold messageIdsFresh, messageIdsUnique, MessageService.getMessageById,
    MessageService.findMessageById.
  intros Hfresh Hmsgs Hid Hnext. run_service.
  rewrite Hmsgs, Hnext.
  assert (Hunused : ~ In (nextId s) (map m_id (messages s))).
  { intros Hin. apply in_map_iff in Hin. destruct Hin as [m [Hm Hin]].
    rewrite Forall_forall in Hfresh. specialize (Hfresh m Hin). lia. }
  split; [|split].
  - rewrite find_app_miss.
    + rewrite Nat.eqb_refl. reflexivity.
    + rewrite Hid. apply (find_key_none m_id). exact Hunused.
  - apply Forall_app. split.
    + eapply Forall_impl; [|exact Hfresh]. simpl. intros m Hm. lia.
    + constructor; [lia | constructor].
  - intros Huniq. rewrite map_app. simpl.
    apply Permutation_NoDup with (l := m_id msg :: map m_id (messages s)).
    + apply Permutation_cons_append.
    + constructor; [rewrite Hid; exact Hunused | exact Huniq].
Qed.

(** X16.  A message that was sent can be read back.  In a store whose
    message ids are below the id generator, the message returned by a
    successful [sendText], [sendAudio] or [sendSignal] is the one
    [getMessageById] finds under its id afterwards; message ids stay
    below the generator, and distinct if they were. *)
Theorem sent_message_is_read_back (s s' : Store) (user : Principal)
    (msg : MessageDocument) :
  messageIdsFresh s ->
  (exists dto, MessageService.sendText dto user s = (Ok msg, s'))
  \/ (exists dto, MessageService.sendAudio dto user s = (Ok msg, s'))
  \/ (exists dto, MessageService.sendSignal dto user s = (Ok msg, s')) ->
  MessageService.getMessageById (m_id msg) s' = (Ok (Some msg), s')
  /\ messageIdsFresh s'
  /\ (messageIdsUnique s -> messageIdsUnique s').
Proof.
  intros Hfresh [[dto Hrun]|[[dto Hrun]|[dto Hrun]]].
  - apply sendText_ok_inv in Hrun.
    destruct Hrun as [room [_ [_ [_ [Hmsg Hs']]]]].
    apply (append_fresh_message s s' msg Hfresh); subst; reflexivity.
  - apply sendAudio_ok_inv in Hrun.
    destruct Hrun as [room [_ [_ [_ [Hmsg Hs']]]]].
    apply (append_fresh_message s s' msg Hfresh); subst; reflexivity.
  - apply sendSignal_ok_inv in Hrun.
    destruct Hrun as [room [type [_ [_ [_ [_ [Hmsg Hs']]]]]]].
    apply (append_fresh_message s s' msg Hfresh); subst; reflexivity.
Qed.

Lemma sent_message_is_read_back_witness :
  let r := MessageService.sendText (textDto 10 User 1 (Some "six"))
             Fixtures.parent1 MoreFixtures.storeWithHistory in
  exists msg,
    fst r = Ok msg
    /\ MessageService.getMessageById (m_id msg) (snd r) = (Ok (Some msg), snd r)
    /\ messageIdsFresh (snd r)
    /\ (messageIdsUnique MoreFixtures.storeWithHistory ->
        messageIdsUnique (snd r)).
Proof.
  intros r. eexists. split; [reflexivity|].
  apply (sent_message_is_read_back MoreFixtures.storeWithHistory (snd r)
           Fixtures.parent1).
  - unfold messageIdsFresh. simpl.
    repeat (constructor; [simpl; lia|]). constructor.
  - left. exists (textDto 10 User 1 (Some "six")). reflexivity.
Defined.

(** [latestMessage] picks a message with the greatest creation time. *)
Lemma latestMessage_spec (l : list MessageDocument)
    (best : option MessageDocument) :
  match MessageService.latestMessage best l with
  | None => best = None /\ l = []
  | Some m =>
      (best = Some m \/ In m l)
      /\ (forall m', In m' l -> (m_createdAt m' <= m_createdAt m)%N)
      /\ (forall b, best = Some b -> (m_createdAt b <= m_createdAt m)%N)
  end.
Proof.
  revert best. induction l as [|x l IH]; intros best; simpl.
  - destruct best as [b|]; [|auto].
    split; [left; reflexivity|]. split; [intros m' []|].
    intros b' Hb. inversion Hb; subst. lia.
  - destruct best as [b|].
    + destruct (N.ltb (m_createdAt b) (m_createdAt x)) eqn:E.
      * apply N.ltb_lt in E. specialize (IH (Some x)).
        destruct (MessageService.latestMessage (Some x) l) as [m|];
          [|destruct IH; discriminate].
        destruct IH as [Hin [Hall Hbest]]. split; [|split].
        -- right. destruct Hin as [Hin|Hin];
             [inversion Hin; left; reflexivity | right; exact Hin].
        -- intros m' [Hm'|Hm']; [subst m'; apply Hbest; reflexivity|].
           apply Hall. exact Hm'.
        -- intros b' Hb. inversion Hb; subst b'.
           specialize (Hbest x eq_refl). lia.
      * apply N.ltb_ge in E. specialize (IH (Some b)).
        destruct (MessageService.latestMessage (Some b) l) as [m|];
          [|destruct IH; discriminate].
        destruct IH as [Hin [Hall Hbest]]. split; [|split].
        -- destruct Hin as [Hin|Hin]; [left; exact Hin | right; right; exact Hin].
        -- intros m' [Hm'|Hm'].
           ++ subst m'. specialize (Hbest b eq_refl). lia.
           ++ apply Hall. exact Hm'.
        -- exact Hbest.
    + specialize (IH (Some x)).
      destruct (MessageService.latestMessage (Some x) l) as [m|];
        [|destruct IH; discriminate].
      destruct IH as [Hin [Hall Hbest]]. split; [|split].
      * right. destruct Hin as [Hin|Hin];
          [inversion Hin; left; reflexivity | right; exact Hin].
      * intros m' [Hm'|Hm']; [subst m'; apply Hbest; reflexivity|].
        apply Hall. exact Hm'.
      * intros b Hb. discriminate.
Qed.

(** What a successful [deleteMessage] wrote. *)
Lemma deleteMessage_ok_inv (s s' : Store) (messageId : ObjectId)
    (user : Principal) (message : MessageDocument) :
  find (fun m => m_id m =? messageId) (messages s) = Some message ->
  MessageService.deleteMessage messageId user s = (Ok tt, s') ->
  messages s' = removeFirst (fun m => m_id m =? messageId) (messages s)
  /\ cloudinaryDeletes s'
     = (cloudinaryDeletes s ++ mediaToDelete message)%list
  /\ rooms s'
     = updateFirst (fun r => r_id r =? m_room message)
         (MessageService.withLastMessage
            (option_map projectionOf
               (MessageService.latestMessage None
                  (filter (fun m => m_room m =? m_room message)
                     (removeFirst (fun m => m_id m =? messageId)
                        (messages s))))))
         (rooms s).
Proof.
  intros Hmsg.
  unfold MessageService.deleteMessage, MessageService.findMessageById,
    MessageService.findRoomById, MessageService.setLastMessage,
    MessageService.deleteFile, mediaToDelete.
  run_service. rewrite Hmsg. simpl.
  destruct (find (fun r => r_id r =? m_room message) (rooms s)) as [room|];
    simpl; [|discriminate].
  destruct (MessageService.assertRoomAccess room user) as [[]|e];
    simpl; [|discriminate].
  destruct (negb (m_senderId message =? getUserId user)
            || negb (MessageService.isSenderModelMatch user message));
    simpl; [discriminate|].
  destruct (m_type message); simpl;
    try (destruct (m_audio message) as [au|]; simpl);
    try (destruct (au_cloudinaryPublicId au) as [pid|]; simpl);
    try (destruct (negb (String.eqb pid "")); simpl);
    match goal with
    | |- context [MessageService.latestMessage None ?l] =>
        destruct (MessageService.latestMessage None l); simpl
    end;
    intros H; inversion H; subst; simpl;
    rewrite ?app_nil_r; repeat split.
Qed.

Lemma In_removeFirst_unique (l : list MessageDocument) (k : ObjectId)
    (m : MessageDocument) :
  NoDup (map m_id l) ->
  In m (removeFirst (fun x => m_id x =? k) l) <-> In m l /\ m_id m <> k.
Proof.
  induction l as [|x l IH]; simpl; intros Hnd; [tauto|].
  inversion Hnd as [|? ? Hnotin Hnd']; subst.
  destruct (m_id x =? k) eqn:E.
  - apply Nat.eqb_eq in E. split.
    + intros Hin. split; [right; exact Hin|].
      intros Hk. apply Hnotin. rewrite E, <- Hk. apply in_map. exact Hin.
    + intros [[Hx|Hin] Hk]; [subst x; contradiction | exact Hin].
  - apply Nat.eqb_neq in E. simpl. rewrite IH by exact Hnd'. split.
    + intros [Hx|[Hin Hk]]; [subst x; auto | auto].
    + intros [[Hx|Hin] Hk]; [left; exact Hx | right; auto].
Qed.

(** X17.  What [deleteMessage] leaves behind.  With distinct message ids,
    after a successful deletion the message is no longer found, every
    other message is still stored and none has been added; the storage
    was asked to delete the media file exactly when the message was an
    AUDIO message with a public id; and the stored room, otherwise as
    before, has its lastMessage recomputed from what remains in the
    room: absent when nothing remains, else taken from a remaining
    message of greatest creation time, whatever its type, with that
    message's sender and time and its text, or "[Audio]" when it has
    none. *)
Theorem deleteMessage_recomputes_projection (s s' : Store)
    (messageId : ObjectId) (user : Principal) (message : MessageDocument)
    (room : RoomDocument) :
  messageIdsUnique s ->
  find (fun m => m_id m =? messageId) (messages s) = Some message ->
  find (fun r => r_id r =? m_room message) (rooms s) = Some room ->
  MessageService.deleteMessage messageId user s = (Ok tt, s') ->
  let remaining := filter (fun m => m_room m =? m_room message) (messages s') in
  find (fun m => m_id m =? messageId) (messages s') = None
  /\ (forall m, In m (messages s') <->
                In m (messages s) /\ m_id m <> messageId)
  /\ cloudinaryDeletes s' = (cloudinaryDeletes s ++ mediaToDelete message)%list
  /\ exists room',
       find (fun r => r_id r =? m_room message) (rooms s') = Some room'
       /\ r_id room' = r_id room /\ r_parent room' = r_parent room
       /\ r_child room' = r_child room
       /\ r_invitedParents room' = r_invitedParents room
       /\ r_isActive room' = r_isActive room
       /\ match r_lastMessage room' with
          | None => remaining = []
          | Some lm =>
              exists m,
                In m remaining
                /\ (forall m', In m' remaining ->
                      (m_createdAt m' <= m_createdAt m)%N)
                /\ lm_text lm
                   = (if truthy (m_text m) then m_text m
                      else Some "[Audio]")
                /\ lm_senderModel lm = m_senderModel m
                /\ lm_senderId lm = m_senderId m
                /\ lm_createdAt lm = m_createdAt m
          end.
Proof.
  intros Huniq Hmsg Hroom Hrun remaining.
  destruct (deleteMessage_ok_inv s s' messageId user message Hmsg Hrun)
    as [Hmessages [Hmedia Hrooms]].
  split; [rewrite Hmessages; apply (find_removed m_id); exact Huniq|].
  split; [intros m; rewrite Hmessages;
          apply In_removeFirst_unique; exact Huniq|].
  split; [exact Hmedia|].
  subst remaining. rewrite Hmessages.
  set (rest := filter (fun m => m_room m =? m_room message)
                 (removeFirst (fun m => m_id m =? messageId) (messages s)))
    in *.
  destruct (setLastMessage_reads (rooms s) (m_room message)
              (option_map projectionOf (MessageService.latestMessage None rest))
              room Hroom)
    as [room' [Hfind [Hlm [H1 [H2 [H3 [H4 [H5 _]]]]]]]].
  exists room'. rewrite Hrooms.
  split; [exact Hfind|]. do 5 (split; [assumption|]).
  rewrite Hlm.
  pose proof (latestMessage_spec rest None) as Hlatest.
  destruct (MessageService.latestMessage None rest) as [m|]; simpl.
  - destruct Hlatest as [[Hin|Hin] [Hall _]]; [discriminate|].
    exists m. repeat split; auto.
  - tauto.
Qed.

(** The parent deletes its text; what remains in room 10 is a call
    offer, and that is what the projection is computed from. *)
Lemma deleteMessage_recomputes_projection_witness :
  let s' := snd (MessageService.deleteMessage 51 Fixtures.parent1
                   MoreFixtures.storeWithSignal) in
  find (fun m => m_id m =? 51) (messages s') = None
  /\ map m_id (messages s') = [52]
  /\ cloudinaryDeletes s' = []
  /\ exists room',
       find (fun r => r_id r =? 10) (rooms s') = Some room'
       /\ r_lastMessage room'
          = Some {| lm_text := Some "[Audio]"; lm_senderModel := User;
                    lm_senderId := 1; lm_createdAt := 200%N |}.
Proof.
  intros s'.
  destruct (deleteMessage_recomputes_projection MoreFixtures.storeWithSignal
              s' 51 Fixtures.parent1
              (MoreFixtures.textMessage 51 10 1 "un" 100%N) Fixtures.room10
              ltac:(repeat constructor; simpl; intuition discriminate)
              eq_refl eq_refl eq_refl)
    as [Hgone [_ [Hc [room' [Hfind _]]]]].
  split; [exact Hgone|]. split; [reflexivity|]. split; [exact Hc|].
  exists room'. split; [exact Hfind|].
  assert (Hfind' : find (fun r => r_id r =? 10) (rooms s') = Some room')
    by exact Hfind.
  assert (Hp : find (fun r => r_id r =? 10) (rooms s')
               = Some (MessageService.withLastMessage
                         (Some {| lm_text := Some "[Audio]";
                                  lm_senderModel := User; lm_senderId := 1;
                                  lm_createdAt := 200%N |}) Fixtures.room10))
    by reflexivity.
  rewrite Hp in Hfind'. inversion Hfind'. reflexivity.
Defined.

(* ------------------------------------------------------------------ *)
(** ** Room subscriptions and fan-out                                   *)
(* ------------------------------------------------------------------ *)

Lemma isMember_spec (k : SocketId) (roomId : ObjectId) (s : Store) :
  ChatGateway.isMember k roomId s = true <-> In (k, roomId) (joined s).
Proof.
  unfold ChatGateway.isMember. rewrite existsb_exists. split.
  - intros [[a b] [Hin Hq]]. simpl in Hq. apply andb_true_iff in Hq.
    destruct Hq as [Ha Hb]. apply Nat.eqb_eq in Ha. apply Nat.eqb_eq in Hb.
    subst. exact Hin.
  - intros Hin. exists (k, roomId). split; [exact Hin|].
    simpl. rewrite !Nat.eqb_refl. reflexivity.
Qed.

(** X18.  [joinRoom] is granted to every authenticated socket for every
    room id: the handler looks neither at the room collection nor at the
    access rules.  The socket becomes a subscriber, a presence event goes
    to the room, nothing else is written, and from then on the socket is
    among the recipients of whatever is broadcast to that room. *)
Theorem onJoinRoom_admits_any_authenticated (client : Socket)
    (user : Principal) (roomId : ObjectId) (alias : option ObjectId)
    (s : Store) :
  sock_user client = Some user ->
  exists s',
    ChatGateway.onJoinRoom client
      {| ChatGateway.j_roomId := Some roomId; ChatGateway.j_room := alias |} s
    = (ChatGateway.OkRoom roomId, s')
    /\ ChatGateway.isMember (sock_id client) roomId s' = true
    /\ rooms s' = rooms s /\ messages s' = messages s
    /\ newEmits s s'
       = [ {| e_target := ToRoom roomId; e_event := EvPresence;
              e_payload := PPresence (sock_id client) "joined" roomId |} ]
    /\ (forall k r, ChatGateway.isMember k r s = true ->
                    ChatGateway.isMember k r s' = true)
    /\ (forall connected,
          In (sock_id client) connected ->
          In (sock_id client)
            (ChatGateway.recipients s' connected (ToRoom roomId))).
Proof.
  intros Huser.
  unfold ChatGateway.onJoinRoom, ChatGateway.tryCatch, ChatGateway.join.
  simpl. rewrite Huser. run_service.
  eexists. split; [reflexivity|].
  assert (Hmem : ChatGateway.isMember (sock_id client) roomId
                   (if ChatGateway.isMember (sock_id client) roomId s
                    then s
                    else with_joined
                           (joined s ++ [(sock_id client, roomId)]) s)
                 = true).
  { destruct (ChatGateway.isMember (sock_id client) roomId s) eqn:E;
      [exact E|].
    apply isMember_spec. simpl. apply in_or_app. right. left. reflexivity. }
  assert (Hmem' : forall st : Store,
             joined st
             = joined (if ChatGateway.isMember (sock_id client) roomId s
                       then s
                       else with_joined
                              (joined s ++ [(sock_id client, roomId)]) s) ->
             ChatGateway.isMember (sock_id client) roomId st = true).
  { intros st Hj. unfold ChatGateway.isMember in *. rewrite Hj. exact Hmem. }
  split; [apply Hmem'; reflexivity|].
  split; [destruct (ChatGateway.isMember (sock_id client) roomId s);
          reflexivity|].
  split; [destruct (ChatGateway.isMember (sock_id client) roomId s);
          reflexivity|].
  split.
  { apply newEmits_app. simpl.
    destruct (ChatGateway.isMember (sock_id client) roomId s); reflexivity. }
  split.
  - intros k r Hk. apply isMember_spec. apply isMember_spec in Hk. simpl.
    destruct (ChatGateway.isMember (sock_id client) roomId s); simpl;
      [exact Hk | apply in_or_app; left; exact Hk].
  - intros connected Hin. simpl. apply filter_In. split; [exact Hin|].
    apply Hmem'. reflexivity.
Qed.

(** The stranger 5, who has no access to room 10, joins it. *)
Lemma onJoinRoom_admits_any_authenticated_witness :
  MessageService.assertRoomAccess Fixtures.room10 Fixtures.stranger5
  = Throw ForbiddenException
  /\ exists s',
       ChatGateway.onJoinRoom MoreFixtures.strangerSocket9
         {| ChatGateway.j_roomId := Some 10; ChatGateway.j_room := None |}
         Fixtures.storeWithSubscriber
       = (ChatGateway.OkRoom 10, s')
       /\ ChatGateway.isMember 9 10 s' = true
       /\ rooms s' = rooms Fixtures.storeWithSubscriber
       /\ messages s' = messages Fixtures.storeWithSubscriber
       /\ newEmits Fixtures.storeWithSubscriber s'
          = [ {| e_target := ToRoom 10; e_event := EvPresence;
                 e_payload := PPresence 9 "joined" 10 |} ]
       /\ (forall k r,
             ChatGateway.isMember k r Fixtures.storeWithSubscriber = true ->
             ChatGateway.isMember k r s' = true)
       /\ (forall connected,
             In 9 connected ->
             In 9 (ChatGateway.recipients s' connected (ToRoom 10))).
Proof.
  split; [reflexivity|].
  apply (onJoinRoom_admits_any_authenticated MoreFixtures.strangerSocket9
           Fixtures.stranger5 10 None Fixtures.storeWithSubscriber).
  reflexivity.
Defined.

Lemma filter_out_pair_absent (l : list (SocketId * ObjectId))
    (k : SocketId) (r : ObjectId) :
  ~ In (k, r) l ->
  filter (fun e => negb ((fst e =? k) && (snd e =? r))) l = l.
Proof.
  induction l as [|[a b] l IH]; simpl; intros H; [reflexivity|].
  destruct ((a =? k) && (b =? r)) eqn:E; simpl.
  - apply andb_true_iff in E. destruct E as [Ea Eb].
    apply Nat.eqb_eq in Ea. apply Nat.eqb_eq in Eb. subst.
    exfalso. apply H. left. reflexivity.
  - rewrite IH; [reflexivity|]. intros Hin. apply H. right. exact Hin.
Qed.

(** X19.  Subscriptions behave as a set.  For an authenticated socket:
    joining a room it is already in leaves the subscriptions as they
    are; leaving a room removes the socket from that room and from no
    other, and removes no other socket; joining and then leaving a room
    it was not in restores the subscriptions exactly. *)
Theorem join_leave_subscriptions (client : Socket) (user : Principal)
    (roomId : ObjectId) (s : Store) :
  sock_user client = Some user ->
  let data := {| ChatGateway.j_roomId := Some roomId;
                 ChatGateway.j_room := None |} in
  let joinedOnce := snd (ChatGateway.onJoinRoom client data s) in
  let left_ := snd (ChatGateway.onLeaveRoom client roomId joinedOnce) in
  joined (snd (ChatGateway.onJoinRoom client data joinedOnce))
  = joined joinedOnce
  /\ ChatGateway.isMember (sock_id client) roomId left_ = false
  /\ (forall k r, (k, r) <> (sock_id client, roomId) ->
        ChatGateway.isMember k r left_ = ChatGateway.isMember k r s)
  /\ (ChatGateway.isMember (sock_id client) roomId s = false ->
      joined left_ = joined s).
Proof.
  intros Huser data joinedOnce left_.
  subst left_ joinedOnce data.
  unfold ChatGateway.onJoinRoom, ChatGateway.onLeaveRoom, ChatGateway.tryCatch,
    ChatGateway.join, ChatGateway.leave.
  simpl. rewrite Huser. run_service.
  destruct (ChatGateway.isMember (sock_id client) roomId s) eqn:E; simpl.
  - unfold ChatGateway.isMember at 1. simpl.
    change (existsb _ (joined s)) with
      (ChatGateway.isMember (sock_id client) roomId s).
    rewrite E. simpl. split; [reflexivity|].
    split; [|split; [|discriminate]].
    + unfold ChatGateway.isMember. simpl.
      apply not_true_is_false. intros H. apply existsb_exists in H.
      destruct H as [[a b] [Hin Hq]]. apply filter_In in Hin.
      destruct Hin as [_ Hf]. simpl in *. rewrite Hq in Hf. discriminate.
    + intros k r Hne. unfold ChatGateway.isMember. simpl.
      apply eq_true_iff_eq. rewrite !existsb_exists. split.
      * intros [e [Hin Hq]]. apply filter_In in Hin. exists e. tauto.
      * intros [[a b] [Hin Hq]]. exists (a, b). split; [|exact Hq].
        apply filter_In. split; [exact Hin|]. simpl in *.
        apply andb_true_iff in Hq. destruct Hq as [Ha Hb].
        apply Nat.eqb_eq in Ha. apply Nat.eqb_eq in Hb. subst a b.
        destruct ((k =? sock_id client) && (r =? roomId)) eqn:Ek;
          [|reflexivity].
        apply andb_true_iff in Ek. destruct Ek as [E1 E2].
        apply Nat.eqb_eq in E1. apply Nat.eqb_eq in E2. subst. congruence.
  - assert (Habsent : ~ In (sock_id client, roomId) (joined s)).
    { intros Hin. apply isMember_spec in Hin. congruence. }
    unfold ChatGateway.isMember at 1. simpl.
    rewrite existsb_app. simpl. rewrite !Nat.eqb_refl. simpl.
    rewrite orb_true_r. simpl. split; [reflexivity|].
    rewrite filter_app. simpl. rewrite !Nat.eqb_refl. simpl.
    rewrite app_nil_r, filter_out_pair_absent by exact Habsent.
    split; [|split; [|reflexivity]].
    + unfold ChatGateway.isMember. simpl.
      change (existsb _ (joined s)) with
        (ChatGateway.isMember (sock_id client) roomId s). exact E.
    + intros k r _. reflexivity.
Qed.

Lemma join_leave_subscriptions_witness :
  let data := {| ChatGateway.j_roomId := Some 10;
                 ChatGateway.j_room := None |} in
  let joinedOnce :=
    snd (ChatGateway.onJoinRoom MoreFixtures.strangerSocket9 data
           Fixtures.storeWithSubscriber) in
  let left_ :=
    snd (ChatGateway.onLeaveRoom MoreFixtures.strangerSocket9 10 joinedOnce) in
  joined (snd (ChatGateway.onJoinRoom MoreFixtures.strangerSocket9 data
                 joinedOnce))
  = joined joinedOnce
  /\ ChatGateway.isMember 9 10 left_ = false
  /\ (forall k r, (k, r) <> (9, 10) ->
        ChatGateway.isMember k r left_
        = ChatGateway.isMember k r Fixtures.storeWithSubscriber)
  /\ (ChatGateway.isMember 9 10 Fixtures.storeWithSubscriber = false ->
      joined left_ = joined Fixtures.storeWithSubscriber).
Proof.
  apply (join_leave_subscriptions MoreFixtures.strangerSocket9
           Fixtures.stranger5 10 Fixtures.storeWithSubscriber).
  reflexivity.
Defined.

Lemma sendSignal_throw_inv (dto : MessageService.SendSignalDto)
    (user : Principal) (s s' : Store) (e : Exception) :
  MessageService.sendSignal dto user s = (Throw e, s') -> s' = s.
Proof.
  unfold MessageService.sendSignal, MessageService.findRoomById,
    MessageService.createMessage.
  run_service.
  destruct (MessageService.signalType (MessageService.sg_type dto));
    simpl; [|intros H; inversion H; reflexivity].
  destruct (MessageService.payloadValid _ _);
    simpl; [|intros H; inversion H; reflexivity].
  destruct (find _ (rooms s)) as [room|];
    simpl; [|intros H; inversion H; reflexivity].
  destruct (MessageService.isRoomParticipant _ _ _);
    simpl; intros H; inversion H; reflexivity.
Qed.

(** X20.  A signal goes to the others, after it was stored.  When
    [sendSignal] accepts the request of an authenticated socket, the
    handler emits one [signal] event carrying the stored message to the
    room minus the sending socket: the sender is never a recipient, every
    other connected subscriber of the room is.  When [sendSignal] throws,
    the error goes back to the caller alone: nothing is emitted and
    nothing is written. *)
Theorem onSignal_fans_out_to_the_others (client : Socket) (user : Principal)
    (body : ChatGateway.SignalBody) (s : Store) :
  sock_user client = Some user ->
  let dto := signalDto (ChatGateway.s_roomId body)
               (ChatGateway.s_senderModel body) (ChatGateway.s_senderId body)
               (ChatGateway.s_type body) (ChatGateway.s_payload body) in
  let target := ToRoomExcept (ChatGateway.s_roomId body) (sock_id client) in
  match MessageService.sendSignal dto user s with
  | (Ok msg, s1) =>
      exists s',
        ChatGateway.onSignal client body s = (ChatGateway.OkMessage msg, s')
        /\ In msg (messages s')
        /\ newEmits s s'
           = [ {| e_target := target; e_event := EvSignal;
                  e_payload := PSignal msg (ChatGateway.s_type body)
                                 (ChatGateway.s_senderId body) |} ]
        /\ forall connected,
             ~ In (sock_id client) (ChatGateway.recipients s' connected target)
             /\ forall k, k <> sock_id client -> In k connected ->
                  ChatGateway.isMember k (ChatGateway.s_roomId body) s' = true ->
                  In k (ChatGateway.recipients s' connected target)
  | (Throw e, _) =>
      ChatGateway.onSignal client body s = (ChatGateway.ErrException e, s)
  end.
Proof.
  intros Huser dto target.
  unfold ChatGateway.onSignal, ChatGateway.tryCatch. rewrite Huser.
  change {| MessageService.sg_roomId := ChatGateway.s_roomId body;
            MessageService.sg_senderModel := ChatGateway.s_senderModel body;
            MessageService.sg_senderId := ChatGateway.s_senderId body;
            MessageService.sg_type := ChatGateway.s_type body;
            MessageService.sg_payload := ChatGateway.s_payload body |}
    with dto.
  destruct (MessageService.sendSignal dto user s) as [[msg|e] s1] eqn:Hrun.
  - unfold bind. rewrite Hrun. run_service. eexists. split; [reflexivity|].
    apply sendSignal_ok_inv in Hrun.
    destruct Hrun as [room [type [_ [_ [_ [_ [Hmsg Hs1]]]]]]].
    split; [|split].
    + simpl. rewrite Hs1. simpl. apply in_or_app. right. left. reflexivity.
    + apply newEmits_app. simpl. rewrite Hs1. reflexivity.
    + intros connected. subst target. simpl. split.
      * intros Hin. apply filter_In in Hin. destruct Hin as [_ Hq].
        rewrite Nat.eqb_refl in Hq. simpl in Hq.
        rewrite andb_false_r in Hq. discriminate.
      * intros k Hne Hin Hmem. apply filter_In. split; [exact Hin|].
        unfold ChatGateway.isMember in *. simpl in *. rewrite Hmem.
        apply Nat.eqb_neq in Hne. rewrite Hne. reflexivity.
  - pose proof (sendSignal_throw_inv _ _ _ _ _ Hrun) as Hs1. subst s1.
    unfold bind. rewrite Hrun. reflexivity.
Qed.

Lemma onSignal_fans_out_to_the_others_witness :
  let body := {| ChatGateway.s_roomId := 10;
                 ChatGateway.s_senderModel := User;
                 ChatGateway.s_senderId := 1;
                 ChatGateway.s_type := "CALL_OFFER";
                 ChatGateway.s_payload := [("sdp", "v=0")] |} in
  let target := ToRoomExcept 10 8 in
  exists msg s',
    ChatGateway.onSignal Fixtures.parentSocket8 body
      Fixtures.storeWithSubscriber = (ChatGateway.OkMessage msg, s')
    /\ In msg (messages s')
    /\ newEmits Fixtures.storeWithSubscriber s'
       = [ {| e_target := target; e_event := EvSignal;
              e_payload := PSignal msg "CALL_OFFER" 1 |} ]
    /\ forall connected,
         ~ In 8 (ChatGateway.recipients s' connected target)
         /\ forall k, k <> 8 -> In k connected ->
              ChatGateway.isMember k 10 s' = true ->
              In k (ChatGateway.recipients s' connected target).
Proof.
  intros body target. eexists.
  exact (onSignal_fans_out_to_the_others Fixtures.parentSocket8
           Fixtures.parent1 body Fixtures.storeWithSubscriber eq_refl).
Defined.

(* ------------------------------------------------------------------ *)
(** ** Reading and resolving alerts                                     *)
(* ------------------------------------------------------------------ *)

Lemma existsb_memberOf (l : list ObjectId) (x : ObjectId) :
  existsb (fun p => p =? x) l = true <-> memberOf x (Some l).
Proof. apply (someEquals_memberOf (Some l) x). Qed.

Lemma checkViewAccess_ok_iff (s : Store) (childId : ObjectId)
    (user : Principal) :
  SosAlertService.checkViewAccess childId user s = (Ok tt, s)
  <-> mayView s childId user.
Proof.
  unfold SosAlertService.checkViewAccess, SosAlertService.findChildById,
    mayView, isChildType.
  run_service.
  destruct (p_type user) eqn:Hty; simpl.
  - destruct (getUserId user =? childId) eqn:Eid; simpl.
    + apply Nat.eqb_eq in Eid.
      destruct (find (fun c => c_id c =? childId) (children s)) as [c|];
        simpl.
      * split; [|reflexivity]. intros _. exists c. split; [reflexivity|].
        left. auto.
      * split; [discriminate|]. intros [c [Hc _]]. discriminate.
    + apply Nat.eqb_neq in Eid. split; [discriminate|].
      intros [c [_ [[_ H]|[H _]]]]; [contradiction | discriminate].
  - destruct (find (fun c => c_id c =? childId) (children s)) as [c|]; simpl.
    + destruct (isAdminRole user) eqn:Hadmin; simpl.
      * split; [|reflexivity]. intros _. exists c. split; [reflexivity|].
        right. auto.
      * destruct (getUserId user =? c_parent c) eqn:Ep; simpl.
        -- apply Nat.eqb_eq in Ep. split; [|reflexivity]. intros _.
           exists c. split; [reflexivity|]. right. auto.
        -- apply Nat.eqb_neq in Ep.
           destruct (c_linkedParents c) as [l|] eqn:Hl; simpl.
           ++ destruct (existsb (fun p => p =? getUserId user) l) eqn:El;
                simpl.
              ** apply existsb_memberOf in El. split; [|reflexivity].
                 intros _. exists c. split; [reflexivity|]. right.
                 split; [reflexivity|]. right. right. rewrite Hl. exact El.
              ** split; [discriminate|].
                 intros [c' [Hc' [[H _]|[_ [H|[H|H]]]]]];
                   inversion Hc'; subst c'; try discriminate;
                   try contradiction.
                 rewrite Hl in H. apply existsb_memberOf in H. congruence.
           ++ split; [discriminate|].
              intros [c' [Hc' [[H _]|[_ [H|[H|H]]]]]];
                inversion Hc'; subst c'; try discriminate;
                try contradiction.
              rewrite Hl in H. destruct H as [l [Hn _]]. discriminate.
    + split; [discriminate|]. intros [c [Hc _]]. discriminate.
Qed.

Lemma checkViewAccess_outcomes (s : Store) (childId : ObjectId)
    (user : Principal) :
  SosAlertService.checkViewAccess childId user s = (Ok tt, s)
  \/ exists e, SosAlertService.checkViewAccess childId user s = (Throw e, s).
Proof.
  unfold SosAlertService.checkViewAccess, SosAlertService.findChildById.
  run_service.
  destruct (isChildType user && negb (getUserId user =? childId)); simpl;
    [right; eexists; reflexivity|].
  destruct (find (fun c => c_id c =? childId) (children s)) as [c|]; simpl;
    [|right; eexists; reflexivity].
  destruct (negb (isChildType user) && negb (isAdminRole user)); simpl;
    [|left; reflexivity].
  destruct (negb (getUserId user =? c_parent c)); simpl; [|left; reflexivity].
  destruct (c_linkedParents c) as [l|]; simpl; [|right; eexists; reflexivity].
  destruct (negb (existsb (fun p => p =? getUserId user) l)); simpl;
    [right; eexists; reflexivity | left; reflexivity].
Qed.

Local Arguments firstn : simpl never.

(** X21.  Reading a child's alerts.  [getActiveAlert] and
    [getAlertHistory] answer exactly the child itself, an administrator,
    the child's parent and its linked parents, when the child is on
    record; every other caller gets an exception.  Neither writes
    anything.  The history is the beginning of the child's stored alerts
    taken most recently created first, at most 50 of them and all of
    them when there are no more than 50; the active alert
    returned, if any, is a stored alert of that child in an active
    status, and none is returned only when the child has no active
    alert. *)
Theorem alert_readers_spec (s : Store) (childId : ObjectId)
    (user : Principal) :
  (mayView s childId user ->
   exists active history,
     SosAlertService.getActiveAlert childId user s = (Ok active, s)
     /\ SosAlertService.getAlertHistory childId user s = (Ok history, s)
     /\ (forall a, In a history -> In a (alerts s) /\ a_child a = childId)
     /\ List.length history <= 50
     /\ (List.length (filter (fun a => a_child a =? childId) (alerts s)) <= 50 ->
         history = rev (filter (fun a => a_child a =? childId) (alerts s)))
     /\ (exists older,
           rev (filter (fun a => a_child a =? childId) (alerts s))
           = (history ++ older)%list)
     /\ match active with
        | Some a =>
            In a (alerts s) /\ a_child a = childId
            /\ SosAlertService.isActiveStatus (a_status a) = true
        | None =>
            forall a, In a (alerts s) -> a_child a = childId ->
              SosAlertService.isActiveStatus (a_status a) = false
        end)
  /\ (~ mayView s childId user ->
      exists e1 e2,
        SosAlertService.getActiveAlert childId user s = (Throw e1, s)
        /\ SosAlertService.getAlertHistory childId user s = (Throw e2, s)).
Proof.
  unfold SosAlertService.getActiveAlert, SosAlertService.getAlertHistory.
  split.
  - intros Hview. apply checkViewAccess_ok_iff in Hview.
    unfold bind. rewrite Hview. run_service.
    eexists. eexists. split; [reflexivity|]. split; [reflexivity|].
    split; [|split; [|split; [|split]]].
    + intros a Ha. apply firstn_subset in Ha. apply in_rev in Ha.
      apply filter_In in Ha. destruct Ha as [Hin Hq].
      apply Nat.eqb_eq in Hq. auto.
    + apply firstn_le_length.
    + intros Hlen. apply firstn_all2. rewrite length_rev. exact Hlen.
    + eexists. symmetry. apply firstn_skipn.
    + destruct (find _ (rev (alerts s))) as [a|] eqn:Hfind.
      * apply find_some in Hfind. destruct Hfind as [Hin Hq].
        apply in_rev in Hin. apply andb_true_iff in Hq.
        destruct Hq as [Hc Ha]. apply Nat.eqb_eq in Hc. auto.
      * intros a Hin Hc.
        pose proof (find_none _ _ Hfind a (proj1 (in_rev _ _) Hin)) as Hq.
        simpl in Hq. rewrite Hc, Nat.eqb_refl in Hq. exact Hq.
  - intros Hno.
    destruct (checkViewAccess_outcomes s childId user) as [Hok|[e He]].
    + exfalso. apply Hno. apply checkViewAccess_ok_iff. exact Hok.
    + exists e, e. unfold bind. rewrite He. split; reflexivity.
Qed.

Lemma alert_readers_spec_witness :
  exists active history,
    SosAlertService.getActiveAlert 2 Fixtures.linked4
      (Fixtures.storeWithAlert CALLING_PARENT)
    = (Ok active, Fixtures.storeWithAlert CALLING_PARENT)
    /\ SosAlertService.getAlertHistory 2 Fixtures.linked4
         (Fixtures.storeWithAlert CALLING_PARENT)
       = (Ok history, Fixtures.storeWithAlert CALLING_PARENT)
    /\ (forall a, In a history ->
          In a (alerts (Fixtures.storeWithAlert CALLING_PARENT))
          /\ a_child a = 2)
    /\ List.length history <= 50
    /\ (List.length
          (filter (fun a => a_child a =? 2)
             (alerts (Fixtures.storeWithAlert CALLING_PARENT))) <= 50 ->
        history
        = rev (filter (fun a => a_child a =? 2)
                 (alerts (Fixtures.storeWithAlert CALLING_PARENT))))
    /\ (exists older,
          rev (filter (fun a => a_child a =? 2)
                 (alerts (Fixtures.storeWithAlert CALLING_PARENT)))
          = (history ++ older)%list)
    /\ match active with
       | Some a =>
           In a (alerts (Fixtures.storeWithAlert CALLING_PARENT))
           /\ a_child a = 2
           /\ SosAlertService.isActiveStatus (a_status a) = true
       | None =>
           forall a, In a (alerts (Fixtures.storeWithAlert CALLING_PARENT)) ->
             a_child a = 2 ->
             SosAlertService.isActiveStatus (a_status a) = false
       end.
Proof.
  apply (proj1 (alert_readers_spec (Fixtures.storeWithAlert CALLING_PARENT)
                  2 Fixtures.linked4)).
  exists Fixtures.childDoc2. split; [reflexivity|]. right.
  split; [reflexivity|]. right. right. exists [4].
  split; [reflexivity|]. simpl. auto.
Defined.

(* ------------------------------------------------------------------ *)
(** ** Triggering, resolving and the attempt counters                   *)
(* ------------------------------------------------------------------ *)

Lemma find_rev_unique {A : Type} (q : A -> bool) (l : list A) :
  List.length (filter q l) <= 1 -> find q (rev l) = find q l.
Proof.
  intros Hone.
  destruct (find q l) as [y|] eqn:Hl.
  - destruct (find q (rev l)) as [z|] eqn:Hr.
    + apply find_some in Hr. destruct Hr as [Hin Hq].
      apply in_rev in Hin.
      f_equal. apply (find_of_filter_le_1 q l z y); assumption.
    + apply find_some in Hl. destruct Hl as [Hin Hq].
      pose proof (find_none _ _ Hr y (proj1 (in_rev _ _) Hin)) as Hn.
      congruence.
  - destruct (find q (rev l)) as [z|] eqn:Hr; [|reflexivity].
    apply find_some in Hr. destruct Hr as [Hin Hq].
    apply in_rev in Hin.
    pose proof (find_none _ _ Hl z Hin) as Hn. congruence.
Qed.

Lemma child_mayView (s : Store) (childId : ObjectId) (user : Principal)
    (child : ChildDocument) :
  p_type user = TypeChild -> getUserId user = childId ->
  find (fun c => c_id c =? childId) (children s) = Some child ->
  mayView s childId user.
Proof. intros Hty Hid Hc. exists child. split; [exact Hc|]. left. auto. Qed.

(** X22.  What the child is shown after pressing SOS.  In a store with
    at most one active alert per child and fresh ids, a trigger by a
    child that may trigger succeeds, and [getActiveAlert] for that child
    then returns the stored alert with the id the trigger returned.  When
    an active alert existed before, the trigger wrote nothing and both
    calls return that very alert. *)
Theorem getActiveAlert_after_trigger (s : Store) (childId : ObjectId)
    (user : Principal) (child : ChildDocument) (parent : UserDocument)
    (room : RoomDocument) :
  atMostOneActive s -> alertIdsFresh s ->
  canTrigger s childId user child parent room ->
  exists tr s' shown,
    SosAlertService.triggerSos childId user s = (Ok tr, s')
    /\ SosAlertService.getActiveAlert childId user s' = (Ok (Some shown), s')
    /\ a_id shown = a_id (SosAlertService.tr_alert tr)
    /\ In shown (alerts s')
    /\ (forall existing,
          find (fun a => (a_child a =? childId)
                         && SosAlertService.isActiveStatus (a_status a))
            (alerts s) = Some existing ->
          s' = s /\ SosAlertService.tr_alert tr = existing
          /\ shown = existing).
Proof.
  intros Hone Hfresh Hcan.
  pose proof Hcan as [Hty [Hid [Hchild _]]].
  destruct (find (fun a => (a_child a =? childId)
                           && SosAlertService.isActiveStatus (a_status a))
              (alerts s)) as [existing|] eqn:Hact.
  - eexists. exists s, existing.
    split; [apply (triggerSos_existing_run s childId user child parent room
                     existing); assumption|].
    assert (Hview : mayView s childId user)
      by (apply (child_mayView s childId user child); assumption).
    apply checkViewAccess_ok_iff in Hview.
    unfold SosAlertService.getActiveAlert, bind. rewrite Hview.
    unfold gets. rewrite (find_rev_unique _ _ (Hone childId)), Hact.
    split; [reflexivity|]. split; [reflexivity|].
    split; [apply find_some in Hact; tauto|].
    intros e He. inversion He. auto.
  - eexists. eexists. eexists.
    split; [apply (triggerSos_new_run s childId user child parent room);
            assumption|].
    rewrite updateFirst_app_miss by (apply fresh_id_not_found; exact Hfresh).
    simpl. rewrite Nat.eqb_refl.
    match goal with
    | |- SosAlertService.getActiveAlert _ _ ?st = _ /\ _ =>
        assert (Hview : mayView st childId user)
          by (apply (child_mayView st childId user child); assumption)
    end.
    apply checkViewAccess_ok_iff in Hview.
    unfold SosAlertService.getActiveAlert, bind. rewrite Hview.
    unfold gets. simpl. rewrite rev_app_distr. simpl.
    rewrite Nat.eqb_refl. simpl.
    split; [reflexivity|]. split; [reflexivity|].
    split; [apply in_or_app; right; left; reflexivity|].
    intros e He. discriminate.
Qed.

Lemma getActiveAlert_after_trigger_witness :
  exists tr s' shown,
    SosAlertService.triggerSos 2 Fixtures.child2
      (Fixtures.storeWithAlert CALLING_PARENT) = (Ok tr, s')
    /\ SosAlertService.getActiveAlert 2 Fixtures.child2 s'
       = (Ok (Some shown), s')
    /\ a_id shown = a_id (SosAlertService.tr_alert tr)
    /\ In shown (alerts s')
    /\ (forall existing,
          find (fun a => (a_child a =? 2)
                         && SosAlertService.isActiveStatus (a_status a))
            (alerts (Fixtures.storeWithAlert CALLING_PARENT)) = Some existing ->
          s' = Fixtures.storeWithAlert CALLING_PARENT
          /\ SosAlertService.tr_alert tr = existing
          /\ shown = existing).
Proof.
  apply (getActiveAlert_after_trigger (Fixtures.storeWithAlert CALLING_PARENT)
           2 Fixtures.child2 Fixtures.childDoc2 Fixtures.userDoc1
           Fixtures.room10).
  - intros c.
    change (alerts (Fixtures.storeWithAlert CALLING_PARENT))
      with [Fixtures.alert70 CALLING_PARENT].
    simpl. destruct (_ && _); simpl; lia.
  - unfold alertIdsFresh.
    change (alerts (Fixtures.storeWithAlert CALLING_PARENT))
      with [Fixtures.alert70 CALLING_PARENT].
    constructor; [simpl; lia | constructor].
  - repeat split.
Defined.

Lemma find_updateFirst_id (alertId : ObjectId)
    (f : SosAlertDocument -> SosAlertDocument) (l : list SosAlertDocument) :
  (forall a, a_id (f a) = a_id a) ->
  find (fun a => a_id a =? alertId)
    (updateFirst (fun a => a_id a =? alertId) f l)
  = option_map f (find (fun a => a_id a =? alertId) l).
Proof.
  intros Hid. apply find_updateFirst. intros x. rewrite Hid. reflexivity.
Qed.

(** The two outcomes of [resolveAlert] on a stored alert. *)
Lemma resolveAlert_cases (s : Store) (alertId : ObjectId) (user : Principal)
    (alert : SosAlertDocument) :
  find (fun a => a_id a =? alertId) (alerts s) = Some alert ->
  (mayResolve s alert user
   /\ SosAlertService.resolveAlert alertId user s
      = (Ok (Some (SosAlertService.setResolved (clock s) (getUserId user)
                     (SosAlertService.setStatus RESOLVED alert))),
         with_alerts
           (updateFirst (fun a => a_id a =? alertId)
              (fun a => SosAlertService.setResolved (clock s) (getUserId user)
                          (SosAlertService.setStatus RESOLVED a))
              (alerts s)) s))
  \/ (~ mayResolve s alert user
      /\ exists e,
           SosAlertService.resolveAlert alertId user s = (Throw e, s)
           /\ (e = ForbiddenException \/ e = TypeError)).
Proof.
  intros Hfind.
  assert (Hok :
            find (fun a => a_id a =? alertId)
              (updateFirst (fun a => a_id a =? alertId)
                 (fun a => SosAlertService.setResolved (clock s)
                             (getUserId user)
                             (SosAlertService.setStatus RESOLVED a))
                 (alerts s))
            = Some (SosAlertService.setResolved (clock s) (getUserId user)
                      (SosAlertService.setStatus RESOLVED alert))).
  { rewrite find_updateFirst_id, Hfind by reflexivity. reflexivity. }
  unfold SosAlertService.resolveAlert, SosAlertService.findAlertById,
    SosAlertService.findChildById, SosAlertService.updateAlert, mayResolve,
    isChildType.
  run_service. rewrite Hfind. simpl.
  destruct (p_type user) eqn:Hty; simpl.
  - destruct (find (fun c => c_id c =? a_child alert) (children s))
      as [c|] eqn:Hc; simpl.
    + pose proof (find_some _ _ Hc) as [_ Hcid]. apply Nat.eqb_eq in Hcid.
      destruct (c_id c =? getUserId user) eqn:E; simpl.
      * apply Nat.eqb_eq in E. left. split.
        -- left. split; [reflexivity|]. split; [congruence|].
           exists c. reflexivity.
        -- rewrite Hok. reflexivity.
      * apply Nat.eqb_neq in E. right. split.
        -- intros [[_ [Hu _]]|[[H _]|[H _]]]; try discriminate. congruence.
        -- eexists. split; [reflexivity|]. auto.
    + right. split.
      * intros [[_ [_ [c Hc']]]|[[H _]|[H _]]]; discriminate.
      * eexists. split; [reflexivity|]. auto.
  - destruct (isAdminRole user) eqn:Hadmin; simpl.
    + left. split; [right; left; auto|].
      rewrite Hok. reflexivity.
    + destruct (find (fun c => c_id c =? a_child alert) (children s))
        as [c|] eqn:Hc; simpl.
      * destruct (getUserId user =? c_parent c) eqn:Ep; simpl.
        -- apply Nat.eqb_eq in Ep. left. split.
           ++ right. right. split; [reflexivity|]. split; [reflexivity|].
              exists c. auto.
           ++ rewrite Hok. reflexivity.
        -- apply Nat.eqb_neq in Ep.
           destruct (c_linkedParents c) as [l|] eqn:Hl; simpl.
           ++ destruct (existsb (fun p => p =? getUserId user) l) eqn:El;
                simpl.
              ** left. split.
                 --- right. right. split; [reflexivity|].
                     split; [reflexivity|]. exists c.
                     split; [reflexivity|]. right. rewrite Hl.
                     apply existsb_memberOf. exact El.
                 --- rewrite Hok. reflexivity.
              ** right. split.
                 --- intros [[H _]|[[_ H]|[_ [_ [c' [Hc' [H|H]]]]]]];
                       try discriminate; inversion Hc'; subst c';
                       [contradiction|].
                     rewrite Hl in H. apply existsb_memberOf in H.
                     congruence.
                 --- eexists. split; [reflexivity|]. auto.
           ++ right. split.
              ** intros [[H _]|[[_ H]|[_ [_ [c' [Hc' [H|H]]]]]]];
                   try discriminate; inversion Hc'; subst c';
                   [contradiction|].
                 rewrite Hl in H. destruct H as [l [Hn _]]. discriminate.
              ** eexists. split; [reflexivity|]. auto.
      * right. split.
        -- intros [[H _]|[[_ H]|[_ [_ [c' [Hc' _]]]]]]; discriminate.
        -- eexists. split; [reflexivity|]. auto.
Qed.

Lemma resolveAlert_missing (s : Store) (alertId : ObjectId)
    (user : Principal) :
  find (fun a => a_id a =? alertId) (alerts s) = None ->
  SosAlertService.resolveAlert alertId user s = (Throw NotFoundException, s).
Proof.
  intros Hfind.
  unfold SosAlertService.resolveAlert, SosAlertService.findAlertById.
  run_service. rewrite Hfind. reflexivity.
Qed.

(** X23.  Who may resolve an alert, and what resolving does.  On a stored
    alert [resolveAlert] succeeds exactly for the child of the alert, an
    administrator, the child's parent and its linked parents.  It then
    sets the status to RESOLVED whatever the status was, stamps the
    resolver and the time, keeps the call history and both counters,
    emits nothing and leaves the pending timers in place.  Every other
    caller gets ForbiddenException or a TypeError and nothing is
    written. *)
Theorem resolveAlert_spec (s : Store) (alertId : ObjectId) (user : Principal)
    (alert : SosAlertDocument) :
  find (fun a => a_id a =? alertId) (alerts s) = Some alert ->
  (mayResolve s alert user ->
   exists resolved s',
     SosAlertService.resolveAlert alertId user s = (Ok (Some resolved), s')
     /\ find (fun a => a_id a =? alertId) (alerts s') = Some resolved
     /\ a_status resolved = RESOLVED
     /\ a_resolvedBy resolved = Some (getUserId user)
     /\ a_resolvedAt resolved = Some (clock s)
     /\ a_callHistory resolved = a_callHistory alert
     /\ a_parentCallAttempts resolved = a_parentCallAttempts alert
     /\ a_emergencyCallAttempts resolved = a_emergencyCallAttempts alert
     /\ emitted s' = emitted s
     /\ timers s' = timers s
     /\ List.length (alerts s') = List.length (alerts s))
  /\ (~ mayResolve s alert user ->
      exists e,
        SosAlertService.resolveAlert alertId user s = (Throw e, s)
        /\ (e = ForbiddenException \/ e = TypeError)).
Proof.
  intros Hfind.
  destruct (resolveAlert_cases s alertId user alert Hfind)
    as [[Hmay Hrun]|[Hno Hrun]].
  - split; [|intros H; contradiction].
    intros _. eexists. eexists. split; [exact Hrun|].
    simpl. rewrite find_updateFirst_id, Hfind by reflexivity.
    repeat split.
    clear. induction (alerts s) as [|x l IH]; simpl; [reflexivity|].
    destruct (a_id x =? alertId); simpl; congruence.
  - split; [intros H; contradiction|]. intros _. exact Hrun.
Qed.

Lemma resolveAlert_spec_witness :
  exists resolved s',
    SosAlertService.resolveAlert 70 Fixtures.linked4
      (Fixtures.storeWithAlert EMERGENCY_CALLED) = (Ok (Some resolved), s')
    /\ find (fun a => a_id a =? 70) (alerts s') = Some resolved
    /\ a_status resolved = RESOLVED
    /\ a_resolvedBy resolved = Some 4
    /\ a_resolvedAt resolved = Some 1000%N
    /\ a_callHistory resolved
       = a_callHistory (Fixtures.alert70 EMERGENCY_CALLED)
    /\ a_parentCallAttempts resolved = 2
    /\ a_emergencyCallAttempts resolved = 0
    /\ emitted s' = []
    /\ timers s' = []
    /\ List.length (alerts s') = 1.
Proof.
  apply (proj1 (resolveAlert_spec (Fixtures.storeWithAlert EMERGENCY_CALLED)
                  70 Fixtures.linked4 (Fixtures.alert70 EMERGENCY_CALLED)
                  eq_refl)).
  right. right. split; [reflexivity|]. split; [reflexivity|].
  exists Fixtures.childDoc2. split; [reflexivity|].
  right. exists [4]. split; [reflexivity|]. simpl. auto.
Defined.

Lemma resolveAlert_ok_inv (s s' : Store) (alertId : ObjectId)
    (user : Principal) (r : option SosAlertDocument) :
  SosAlertService.resolveAlert alertId user s = (Ok r, s') ->
  exists resolved,
    find (fun a => a_id a =? alertId) (alerts s') = Some resolved
    /\ a_status resolved = RESOLVED
    /\ timers s' = timers s.
Proof.
  intros Hrun.
  destruct (find (fun a => a_id a =? alertId) (alerts s)) as [alert|]
    eqn:Hfind.
  - destruct (resolveAlert_cases s alertId user alert Hfind)
      as [[_ Hok]|[_ [e [He _]]]]; [|congruence].
    rewrite Hok in Hrun. inversion Hrun; subst.
    eexists. simpl. rewrite find_updateFirst_id, Hfind by reflexivity.
    simpl. repeat split.
  - rewrite resolveAlert_missing in Hrun by exact Hfind. discriminate.
Qed.

Lemma markParentAnswered_ok_inv (s s' : Store) (alertId : ObjectId)
    (user : Principal) (r : option SosAlertDocument) :
  SosAlertService.markParentAnswered alertId user s = (Ok r, s') ->
  exists answered,
    find (fun a => a_id a =? alertId) (alerts s') = Some answered
    /\ a_status answered = PARENT_ANSWERED
    /\ timers s' = timers s.
Proof.
  unfold SosAlertService.markParentAnswered, SosAlertService.findAlertById,
    SosAlertService.findUserById, SosAlertService.findChildById,
    SosAlertService.updateAlert.
  run_service.
  destruct (find (fun a => a_id a =? alertId) (alerts s)) as [alert|]
    eqn:Hfind; simpl; [|discriminate].
  destruct (find (fun u => u_id u =? a_parent alert) (users s)) as [parent|];
    simpl; [|discriminate].
  destruct (getUserId user =? u_id parent); simpl; [|discriminate].
  destruct (find (fun c => c_id c =? a_child alert) (children s)); simpl;
    intros H; inversion H; subst; simpl;
    rewrite find_updateFirst_id, Hfind by reflexivity;
    eexists; simpl; repeat split.
Qed.

(** X24.  An answered or resolved alert is no longer re-checked.  After a
    successful [markParentAnswered] or [resolveAlert] the timers that were
    pending are still pending, and the re-check they run,
    [checkCallStatus] for that alert, writes and emits nothing.  After a
    successful [resolveAlert], [callEmergency] for that alert does
    nothing either. *)
Theorem answered_or_resolved_stops_rechecks (s s' : Store)
    (alertId : ObjectId) (user : Principal) (r : option SosAlertDocument) :
  SosAlertService.resolveAlert alertId user s = (Ok r, s')
  \/ SosAlertService.markParentAnswered alertId user s = (Ok r, s') ->
  timers s' = timers s
  /\ (forall roomId,
        SosAlertService.checkCallStatus alertId roomId s' = (Ok tt, s'))
  /\ (SosAlertService.resolveAlert alertId user s = (Ok r, s') ->
      SosAlertService.callEmergency alertId s' = (Ok tt, s')).
Proof.
  intros Hrun.
  assert (H : exists a,
             find (fun a => a_id a =? alertId) (alerts s') = Some a
             /\ (a_status a = RESOLVED \/ a_status a = PARENT_ANSWERED)
             /\ timers s' = timers s).
  { destruct Hrun as [Hrun|Hrun].
    - destruct (resolveAlert_ok_inv _ _ _ _ _ Hrun) as [a [Ha [Hst Ht]]].
      exists a. auto.
    - destruct (markParentAnswered_ok_inv _ _ _ _ _ Hrun)
        as [a [Ha [Hst Ht]]].
      exists a. auto. }
  destruct H as [a [Ha [Hst Ht]]].
  split; [exact Ht|]. split.
  - intros roomId. apply (checkCallStatus_skips s' alertId roomId a Ha).
    tauto.
  - intros Hres.
    destruct (resolveAlert_ok_inv _ _ _ _ _ Hres) as [a' [Ha' [Hst' _]]].
    apply (callEmergency_skips s' alertId a' Ha'). auto.
Qed.

Lemma answered_or_resolved_stops_rechecks_witness :
  let run := SosAlertService.markParentAnswered 70 Fixtures.parent1
               (Fixtures.storeWithAlert CALLING_PARENT) in
  (exists r, fst run = Ok r)
  /\ timers (snd run) = []
  /\ (forall roomId,
        SosAlertService.checkCallStatus 70 roomId (snd run)
        = (Ok tt, snd run)).
Proof.
  intros run. split; [eexists; reflexivity|].
  destruct (answered_or_resolved_stops_rechecks
              (Fixtures.storeWithAlert CALLING_PARENT) (snd run) 70
              Fixtures.parent1
              (match fst run with Ok r => r | Throw _ => None end)
              (or_intror eq_refl)) as [Ht [Hc _]].
  split; [exact Ht | exact Hc].
Defined.

(** X25.  The outcomes of [triggerSos].  It succeeds exactly when the
    caller is the child itself and the child, its parent's account and an
    active room of the two are on record.  It then answers with the id of
    a stored active room of the child and its parent and with an alert of
    that child; rooms and messages are left as they were: the engine
    never creates the room.  In every other case it
    throws and writes nothing: ForbiddenException exactly when the caller
    is not that child, NotFoundException otherwise. *)
Theorem triggerSos_outcome (s : Store) (childId : ObjectId)
    (user : Principal) :
  ((exists child parent room, canTrigger s childId user child parent room) ->
   exists tr s',
     SosAlertService.triggerSos childId user s = (Ok tr, s')
     /\ a_child (SosAlertService.tr_alert tr) = childId
     /\ SosAlertService.isActiveStatus
          (a_status (SosAlertService.tr_alert tr)) = true
     /\ (exists child room,
           find (fun c => c_id c =? childId) (children s) = Some child
           /\ In room (rooms s) /\ r_parent room = c_parent child
           /\ r_child room = childId
           /\ r_isActive room = true
           /\ SosAlertService.tr_roomId tr = r_id room)
     /\ rooms s' = rooms s /\ messages s' = messages s
     /\ children s' = children s /\ users s' = users s)
  /\ (~ (exists child parent room,
           canTrigger s childId user child parent room) ->
      exists e,
        SosAlertService.triggerSos childId user s = (Throw e, s)
        /\ (e = ForbiddenException \/ e = NotFoundException)
        /\ (e = ForbiddenException <->
            ~ (p_type user = TypeChild /\ getUserId user = childId))).
Proof.
  split.
  - intros [child [parent [room Hcan]]].
    pose proof Hcan as [_ [_ [Hchild [_ Hroom]]]].
    apply find_some in Hroom. destruct Hroom as [Hin Hq].
    apply andb_true_iff in Hq. destruct Hq as [Hq Hactive].
    apply andb_true_iff in Hq. destruct Hq as [Hrp Hrc].
    apply Nat.eqb_eq in Hrc. apply Nat.eqb_eq in Hrp.
    destruct (find (fun a => (a_child a =? childId)
                             && SosAlertService.isActiveStatus (a_status a))
                (alerts s)) as [existing|] eqn:Hact.
    + eexists. exists s.
      split; [apply (triggerSos_existing_run s childId user child parent room
                       existing); assumption|].
      apply find_some in Hact. destruct Hact as [_ Hq].
      apply andb_true_iff in Hq. destruct Hq as [Hc Ha].
      apply Nat.eqb_eq in Hc. simpl.
      split; [exact Hc|]. split; [exact Ha|].
      split; [exists child, room; auto 10|]. auto.
    + eexists. eexists.
      split; [apply (triggerSos_new_run s childId user child parent room);
              assumption|].
      simpl. split; [reflexivity|]. split; [reflexivity|].
      split; [exists child, room; auto 10|]. auto.
  - intros Hno.
    unfold SosAlertService.triggerSos, SosAlertService.findChildById,
      SosAlertService.findUserById, SosAlertService.findActiveRoom,
      SosAlertService.findActiveAlert, isChildType.
    run_service.
    destruct (p_type user) eqn:Hty; simpl.
    + destruct (getUserId user =? childId) eqn:Eid; simpl.
      * apply Nat.eqb_eq in Eid.
        assert (Hnf :
                  (NotFoundException = ForbiddenException
                   \/ NotFoundException = NotFoundException)
                  /\ (NotFoundException = ForbiddenException <->
                      ~ (TypeChild = TypeChild /\ getUserId user = childId))).
        { split; [auto|]. split; [discriminate|]. intros H.
          exfalso. apply H. auto. }
        destruct (find (fun c => c_id c =? childId) (children s))
          as [child|] eqn:Hchild; simpl;
          [|eexists; split; [reflexivity | exact Hnf]].
        destruct (find (fun u => u_id u =? c_parent child) (users s))
          as [parent|] eqn:Hparent; simpl;
          [|eexists; split; [reflexivity | exact Hnf]].
        destruct (find (fun r => (r_parent r =? c_parent child)
                                 && (r_child r =? childId) && r_isActive r)
                    (rooms s)) as [room|] eqn:Hroom; simpl;
          [|eexists; split; [reflexivity | exact Hnf]].
        exfalso. apply Hno. exists child, parent, room.
        repeat split; assumption.
      * apply Nat.eqb_neq in Eid. eexists. split; [reflexivity|].
        split; [auto|]. split; [|reflexivity]. intros _ [_ H]. contradiction.
    + eexists. split; [reflexivity|]. split; [auto|].
      split; [|reflexivity]. intros _ [H _]. discriminate.
Qed.

Lemma triggerSos_outcome_witness :
  exists tr s',
    SosAlertService.triggerSos 2 Fixtures.child2 Fixtures.store0
    = (Ok tr, s')
    /\ a_child (SosAlertService.tr_alert tr) = 2
    /\ SosAlertService.isActiveStatus
         (a_status (SosAlertService.tr_alert tr)) = true
    /\ (exists child room,
          find (fun c => c_id c =? 2) (children Fixtures.store0) = Some child
          /\ In room (rooms Fixtures.store0)
          /\ r_parent room = c_parent child /\ r_child room = 2
          /\ r_isActive room = true
          /\ SosAlertService.tr_roomId tr = r_id room)
    /\ rooms s' = rooms Fixtures.store0
    /\ messages s' = messages Fixtures.store0
    /\ children s' = children Fixtures.store0
    /\ users s' = users Fixtures.store0.
Proof.
  apply (proj1 (triggerSos_outcome Fixtures.store0 2 Fixtures.child2)).
  exists Fixtures.childDoc2, Fixtures.userDoc1, Fixtures.room10.
  repeat split.
Defined.

(* ------------------------------------------------------------------ *)
(** ** The attempt counters along runs of the engine                    *)
(* ------------------------------------------------------------------ *)

Lemma Forall_updateFirst_found {A : Type} (P : A -> Prop) (p : A -> bool)
    (f : A -> A) (l : list A) :
  (forall x, find p l = Some x -> P x -> P (f x)) ->
  Forall P l -> Forall P (updateFirst p f l).
Proof.
  intros Hf Hl. induction Hl as [|x l Hx Hl IH]; simpl.
  - constructor.
  - simpl in Hf. destruct (p x) eqn:E.
    + constructor; [apply Hf; auto | exact Hl].
    + constructor; [exact Hx | apply IH; exact Hf].
Qed.

Lemma parentCalls_answerFiltered (h : list CallHistoryEntry) :
  filter isParentCall (SosAlertService.answerFiltered h)
  = SosAlertService.answerFiltered (filter isParentCall h).
Proof.
  unfold SosAlertService.answerFiltered.
  induction h as [|e h IH]; simpl; [reflexivity|].
  assert (He : isParentCall
                 (if SosAlertService.unansweredParentCall e
                  then SosAlertService.markAnswered e else e)
               = isParentCall e)
    by (destruct (SosAlertService.unansweredParentCall e); reflexivity).
  rewrite He. destruct (isParentCall e); simpl; rewrite IH; reflexivity.
Qed.

Lemma triggerSos_ok_canTrigger (s s' : Store) (childId : ObjectId)
    (user : Principal) (tr : SosAlertService.TriggerResult) :
  SosAlertService.triggerSos childId user s = (Ok tr, s') ->
  exists child parent room, canTrigger s childId user child parent room.
Proof.
  unfold SosAlertService.triggerSos, SosAlertService.findChildById,
    SosAlertService.findUserById, SosAlertService.findActiveRoom,
    canTrigger, isChildType, getUserId.
  run_service.
  destruct (p_type user); simpl; [|discriminate].
  destruct (p_id user =? childId) eqn:E; simpl; [|discriminate].
  apply Nat.eqb_eq in E.
  destruct (find (fun c => c_id c =? childId) (children s)) as [child|]
    eqn:Hchild; simpl; [|discriminate].
  destruct (find (fun u => u_id u =? c_parent child) (users s))
    as [parent|] eqn:Hparent; simpl; [|discriminate].
  destruct (find (fun r => (r_parent r =? c_parent child)
                           && (r_child r =? childId) && r_isActive r)
              (rooms s)) as [room|] eqn:Hroom; simpl; [|discriminate].
  intros _. exists child, parent, room. repeat split; assumption.
Qed.

Section PerAlert.

(** A property of single alerts that every update of the engine keeps,
    given what the engine knows when it applies the update. *)
Variable P : SosAlertDocument -> Prop.

Hypothesis P_status : forall st a, P a -> P (SosAlertService.setStatus st a).
Hypothesis P_resolved :
  forall t u a, P a -> P (SosAlertService.setResolved t u a).
Hypothesis P_emergency :
  forall a, P a -> P (SosAlertService.incEmergencyCallAttempts a).
Hypothesis P_answered :
  forall a, P a ->
    P (SosAlertService.setCallHistory
         (SosAlertService.answerFiltered (a_callHistory a)) a).
Hypothesis P_dialer :
  forall e a, ch_callType e = CT_EMERGENCY -> P a ->
    P (SosAlertService.pushCallHistory e a).
Hypothesis P_retry :
  forall e a, ch_callType e = CT_PARENT -> P a ->
    a_parentCallAttempts a < SosAlertService.MAX_PARENT_CALL_ATTEMPTS ->
    P (SosAlertService.pushCallHistory e
         (SosAlertService.incParentCallAttempts a)).

Lemma callEmergency_keeps_alerts (s : Store) (alertId : ObjectId) :
  Forall P (alerts s) ->
  Forall P (alerts (snd (SosAlertService.callEmergency alertId s))).
Proof.
  intros HP.
  assert (Hfirst :
            Forall P (updateFirst (fun a => a_id a =? alertId)
                        (fun a => SosAlertService.incEmergencyCallAttempts
                                    (SosAlertService.setStatus
                                       CALLING_EMERGENCY a))
                        (alerts s))).
  { apply Forall_updateFirst; [|exact HP]. intros a Pa.
    apply P_emergency, P_status, Pa. }
  assert (Hsecond :
            forall e, ch_callType e = CT_EMERGENCY ->
            Forall P
              (updateFirst (fun a => a_id a =? alertId)
                 (fun a => SosAlertService.pushCallHistory e
                             (SosAlertService.setStatus EMERGENCY_CALLED a))
                 (updateFirst (fun a => a_id a =? alertId)
                    (fun a => SosAlertService.incEmergencyCallAttempts
                                (SosAlertService.setStatus
                                   CALLING_EMERGENCY a))
                    (alerts s)))).
  { intros e He. apply Forall_updateFirst; [|exact Hfirst]. intros a Pa.
    apply P_dialer; [exact He|]. apply P_status, Pa. }
  unfold SosAlertService.callEmergency, SosAlertService.findAlertById,
    SosAlertService.findChildById, SosAlertService.updateAlert.
  run_service.
  destruct (find (fun a => a_id a =? alertId) (alerts s)) as [alert|];
    simpl; [|exact HP].
  destruct (a_status alert); simpl; try exact HP;
    destruct (find (fun c => c_id c =? a_child alert) (children s)); simpl;
    first [ apply Hsecond; reflexivity | exact Hfirst ].
Qed.

Lemma checkCallStatus_keeps_alerts (s : Store) (alertId roomId : ObjectId) :
  Forall P (alerts s) ->
  Forall P (alerts (snd (SosAlertService.checkCallStatus alertId roomId s))).
Proof.
  intros HP.
  destruct (find (fun a => a_id a =? alertId) (alerts s)) as [alert|]
    eqn:Hfind;
    [|rewrite checkCallStatus_missing by exact Hfind; exact HP].
  destruct (Nat.lt_ge_cases (a_parentCallAttempts alert)
              SosAlertService.MAX_PARENT_CALL_ATTEMPTS) as [Hlt|Hge].
  - assert (Hretry :
              forall e, ch_callType e = CT_PARENT ->
              Forall P (updateFirst (fun a => a_id a =? alertId)
                          (fun a => SosAlertService.pushCallHistory e
                                      (SosAlertService.incParentCallAttempts
                                         a))
                          (alerts s))).
    { intros e He. apply Forall_updateFirst_found; [|exact HP].
      intros x Hx Px. rewrite Hfind in Hx. inversion Hx; subst x.
      apply P_retry; [exact He | exact Px | exact Hlt]. }
    apply Nat.ltb_lt in Hlt.
    unfold SosAlertService.checkCallStatus, SosAlertService.findAlertById,
      SosAlertService.findChildById, SosAlertService.findUserById,
      SosAlertService.updateAlert.
    run_service. rewrite Hfind.
    destruct (a_status alert); simpl; try exact HP; rewrite Hlt; simpl;
      destruct (find (fun c => c_id c =? a_child alert) (children s)); simpl;
      apply Hretry; reflexivity.
  - destruct (a_status alert) eqn:Est;
      try (rewrite (checkCallStatus_skips s alertId roomId alert Hfind)
             by (rewrite Est; auto);
           exact HP);
      rewrite (checkCallStatus_escalates s alertId roomId alert)
        by (congruence || assumption);
      apply callEmergency_keeps_alerts; exact HP.
Qed.

Lemma answered_keeps_alerts (s : Store) (alertId : ObjectId)
    (user : Principal) :
  Forall P (alerts s) ->
  Forall P (alerts (snd (SosAlertService.markParentAnswered alertId user s))).
Proof.
  intros HP.
  unfold SosAlertService.markParentAnswered, SosAlertService.findAlertById,
    SosAlertService.findUserById, SosAlertService.findChildById,
    SosAlertService.updateAlert.
  run_service.
  destruct (find (fun a => a_id a =? alertId) (alerts s)) as [alert|]; simpl;
    [|exact HP].
  destruct (find (fun u => u_id u =? a_parent alert) (users s)) as [parent|];
    simpl; [|exact HP].
  destruct (getUserId user =? u_id parent); simpl; [|exact HP].
  destruct (find (fun c => c_id c =? a_child alert) (children s)); simpl;
    (apply Forall_updateFirst; [|exact HP]); intros a Pa;
    apply (P_answered
             (SosAlertService.setResolved (clock s) (u_id parent)
                (SosAlertService.setStatus PARENT_ANSWERED a)));
    apply P_resolved, P_status, Pa.
Qed.

Lemma resolved_keeps_alerts (s : Store) (alertId : ObjectId)
    (user : Principal) :
  Forall P (alerts s) ->
  Forall P (alerts (snd (SosAlertService.resolveAlert alertId user s))).
Proof.
  intros HP.
  destruct (find (fun a => a_id a =? alertId) (alerts s)) as [alert|]
    eqn:Hfind.
  - destruct (resolveAlert_cases s alertId user alert Hfind)
      as [[_ Hok]|[_ [e [He _]]]].
    + rewrite Hok. simpl. apply Forall_updateFirst; [|exact HP].
      intros a Pa. apply P_resolved, P_status, Pa.
    + rewrite He. exact HP.
  - rewrite resolveAlert_missing by exact Hfind. exact HP.
Qed.

(** The created alert, with its first call logged, has the property. *)
Hypothesis P_created :
  forall s childId child parent room,
    P (SosAlertService.pushCallHistory (initialCall s parent)
         (createdAlert s childId child parent room)).

Lemma trigger_keeps_alerts (s : Store) (childId : ObjectId)
    (user : Principal) :
  alertIdsFresh s ->
  Forall P (alerts s) ->
  Forall P (alerts (snd (SosAlertService.triggerSos childId user s))).
Proof.
  intros Hfresh HP.
  destruct (SosAlertService.triggerSos childId user s) as [[tr|e] s']
    eqn:Hrun; simpl.
  - pose proof (triggerSos_ok_canTrigger _ _ _ _ _ Hrun) as Hcan.
    destruct Hcan as [child [parent [room Hcan]]].
    destruct (find (fun a => (a_child a =? childId)
                             && SosAlertService.isActiveStatus (a_status a))
                (alerts s)) as [existing|] eqn:Hact.
    + rewrite (triggerSos_existing_run s childId user child parent room
                 existing Hcan Hact) in Hrun.
      inversion Hrun; subst. exact HP.
    + rewrite (triggerSos_new_run s childId user child parent room Hcan Hact)
        in Hrun.
      inversion Hrun; subst. simpl.
      rewrite updateFirst_app_miss by (apply fresh_id_not_found; exact Hfresh).
      simpl. rewrite Nat.eqb_refl.
      apply Forall_app. split; [exact HP|].
      constructor; [apply P_created | constructor].
  - rewrite (triggerSos_throw_inv s s' childId user e Hrun). exact HP.
Qed.

Lemma sosStep_keeps_alerts (s s' : Store) :
  sosStep s s' -> alertIdsFresh s -> Forall P (alerts s) ->
  Forall P (alerts s').
Proof.
  intros Hstep Hfresh HP. destruct Hstep.
  - apply trigger_keeps_alerts; assumption.
  - unfold SosAlertService.fireTimer in H.
    destruct (timers s) as [|t rest]; [discriminate|].
    destruct (N.leb (t_due t) (clock s)); [|discriminate].
    inversion H as [Hrun].
    pose proof (checkCallStatus_keeps_alerts (with_timers rest s)
                  (t_alertId t) (t_roomId t) HP) as Hk.
    rewrite Hrun in Hk. exact Hk.
  - apply answered_keeps_alerts. exact HP.
  - apply resolved_keeps_alerts. exact HP.
  - exact HP.
Qed.

Lemma sosReachable_keeps_alerts (s0 s : Store) :
  engineInvariant s0 -> Forall P (alerts s0) -> sosReachable s0 s ->
  engineInvariant s /\ Forall P (alerts s).
Proof.
  intros Hinv HP Hreach.
  induction Hreach as [|s s' _ IH Hstep]; [auto|].
  destruct IH as [Hi Hp]. split.
  - eapply sosStep_keeps; eauto.
  - eapply sosStep_keeps_alerts; eauto. apply Hi.
Qed.

End PerAlert.

(** X26.  The parent is rung at most twice per alert, and every ring is
    on record.  Along every run of the engine (triggers, timer callbacks,
    answers, resolutions, time passing) from a store that satisfies the
    engine's invariant and in which every alert's attempt counter is at
    most MAX_PARENT_CALL_ATTEMPTS and equals the number of PARENT entries
    of its call history, both stay true of every alert. *)
Theorem parent_calls_bounded_and_logged (s0 s : Store) :
  engineInvariant s0 ->
  attemptsWithinLimit s0 -> attemptsLogged s0 ->
  sosReachable s0 s ->
  attemptsWithinLimit s /\ attemptsLogged s.
Proof.
  intros Hinv Hlim Hlog Hreach.
  unfold attemptsWithinLimit, attemptsLogged in *.
  assert (H0 : Forall (fun a =>
                 a_parentCallAttempts a
                 <= SosAlertService.MAX_PARENT_CALL_ATTEMPTS
                 /\ parentCallsLogged a = a_parentCallAttempts a)
                 (alerts s0)).
  { rewrite Forall_forall in *. intros a Ha. split; auto. }
  assert (H : Forall (fun a =>
                 a_parentCallAttempts a
                 <= SosAlertService.MAX_PARENT_CALL_ATTEMPTS
                 /\ parentCallsLogged a = a_parentCallAttempts a)
                 (alerts s)).
  { apply (fun h1 h2 h3 h4 h5 h6 h7 =>
             proj2 (sosReachable_keeps_alerts _ h1 h2 h3 h4 h5 h6 h7 s0 s
                      Hinv H0 Hreach)).
    - intros st a Pa. exact Pa.
    - intros t u a Pa. exact Pa.
    - intros a Pa. exact Pa.
    - intros a [Ha Hl]. split; [exact Ha|].
      unfold parentCallsLogged in *. simpl.
      rewrite parentCalls_answerFiltered.
      unfold SosAlertService.answerFiltered. rewrite length_map. exact Hl.
    - intros e a He [Ha Hl]. split; [exact Ha|].
      unfold parentCallsLogged in *. simpl.
      rewrite filter_app. simpl. unfold isParentCall at 2. rewrite He.
      rewrite app_nil_r. exact Hl.
    - intros e a He [Ha Hl] Hlt. unfold parentCallsLogged in *. simpl.
      unfold SosAlertService.MAX_PARENT_CALL_ATTEMPTS in *.
      split; [lia|].
      rewrite filter_app. simpl. unfold isParentCall at 2. rewrite He.
      rewrite length_app. simpl. lia.
    - intros st childId child parent room. unfold parentCallsLogged.
      simpl. unfold SosAlertService.MAX_PARENT_CALL_ATTEMPTS. auto. }
  split; apply Forall_forall; intros a Ha;
    apply (proj1 (Forall_forall _ _) H a Ha).
Qed.

Lemma parent_calls_bounded_and_logged_witness :
  let s1 := snd (SosAlertService.triggerSos 2 Fixtures.child2
                   Fixtures.store0) in
  let s2 := SosAlertService.advance 30000%N s1 in
  let s3 := match SosAlertService.fireTimer s2 with
            | Some (_, s) => s
            | None => s2
            end in
  List.length (alerts s3) = 1
  /\ attemptsWithinLimit s3 /\ attemptsLogged s3.
Proof.
  intros s1 s2 s3. split; [reflexivity|].
  apply (parent_calls_bounded_and_logged Fixtures.store0 s3).
  - apply engineInvariant_no_alerts. reflexivity.
  - constructor.
  - constructor.
  - apply (reach_step _ s2 s3).
    + apply (reach_step _ s1 s2).
      * apply (reach_step _ Fixtures.store0 s1); [apply reach_start|].
        apply step_trigger.
      * apply step_advance.
    + apply (step_timer s2 s3 (Ok tt)). reflexivity.
Defined.

(* ------------------------------------------------------------------ *)
(** ** Todo lists                                                       *)
(* ------------------------------------------------------------------ *)

Section UpdateNth.

Context {A : Type}.
Variable f : A -> A.

Lemma updateNth_length (i : nat) (l : list A) :
  List.length (TodoService.updateNth i f l) = List.length l.
Proof.
  revert i. induction l as [|x l IH]; intros [|i]; simpl; auto.
Qed.

Lemma updateNth_at (i : nat) (l : list A) :
  nth_error (TodoService.updateNth i f l) i
  = option_map f (nth_error l i).
Proof.
  revert i. induction l as [|x l IH]; intros [|i]; simpl; auto.
Qed.

Lemma updateNth_elsewhere (i j : nat) (l : list A) :
  j <> i ->
  nth_error (TodoService.updateNth i f l) j = nth_error l j.
Proof.
  revert i j. induction l as [|x l IH]; intros [|i] [|j] H; simpl; auto.
  congruence.
Qed.

Lemma updateNth_twice (g : A -> A) (i : nat) (l : list A) :
  TodoService.updateNth i g (TodoService.updateNth i f l)
  = TodoService.updateNth i (fun x => g (f x)) l.
Proof.
  revert i. induction l as [|x l IH]; intros [|i]; simpl; auto.
  rewrite IH. reflexivity.
Qed.

End UpdateNth.

Lemma updateNth_ext {A : Type} (f g : A -> A) (i : nat) (l : list A) :
  (forall x, f x = g x) ->
  TodoService.updateNth i f l = TodoService.updateNth i g l.
Proof.
  intros H. revert i. induction l as [|x l IH]; intros [|i]; simpl; auto.
  - rewrite H. reflexivity.
  - rewrite IH. reflexivity.
Qed.

Lemma mayTick_decided (todo : TodoService.TodoDocument) (i : Z)
    (user : Principal) :
  p_type user = TypeChild ->
  TodoService.td_child todo = p_id user ->
  ((i <? 0)%Z
   || (Z.of_nat (List.length (TodoService.td_tasks todo)) <=? i)%Z) = false
  <-> mayTick todo i user.
Proof.
  intros Hty Hc. unfold mayTick. rewrite orb_false_iff, Z.ltb_ge, Z.leb_gt.
  tauto.
Qed.

(** X27.  Ticking a task.  On a stored list [updateTaskStatus] succeeds
    exactly when the caller is the child the list belongs to and the
    index names one of its tasks.  The saved list is then the stored one
    with that single task changed: completed as asked, with the
    completion time set when completed and cleared when reopened; title,
    description, owner, creator, the number of tasks, every other task
    and every other list are as before.  In every other case nothing is
    written: BadRequestException when only the index is wrong,
    ForbiddenException otherwise. *)
Theorem updateTaskStatus_spec (s : TodoService.TodoStore)
    (todoId : ObjectId) (i : Z) (isCompleted : bool) (user : Principal)
    (todo : TodoService.TodoDocument) :
  TodoService.findTodoById todoId s = Some todo ->
  (mayTick todo i user ->
   exists saved s' task,
     TodoService.updateTaskStatus todoId i isCompleted user s = (Ok saved, s')
     /\ TodoService.findTodoById todoId s' = Some saved
     /\ TodoService.withTasks (TodoService.td_tasks todo) saved = todo
     /\ List.length (TodoService.td_tasks saved)
        = List.length (TodoService.td_tasks todo)
     /\ nth_error (TodoService.td_tasks todo) (Z.to_nat i) = Some task
     /\ nth_error (TodoService.td_tasks saved) (Z.to_nat i)
        = Some {| TodoService.tk_title := TodoService.tk_title task;
                  TodoService.tk_description :=
                    TodoService.tk_description task;
                  TodoService.tk_isCompleted := isCompleted;
                  TodoService.tk_completedAt :=
                    if isCompleted
                    then Some (clock (TodoService.db s)) else None |}
     /\ (forall j, j <> Z.to_nat i ->
           nth_error (TodoService.td_tasks saved) j
           = nth_error (TodoService.td_tasks todo) j)
     /\ (forall other, other <> todoId ->
           TodoService.findTodoById other s'
           = TodoService.findTodoById other s)
     /\ TodoService.db s' = TodoService.db s)
  /\ (~ mayTick todo i user ->
      exists e,
        TodoService.updateTaskStatus todoId i isCompleted user s
        = (Throw e, s)
        /\ (e = BadRequestException \/ e = ForbiddenException)
        /\ (e = BadRequestException <->
            p_type user = TypeChild
            /\ TodoService.td_child todo = p_id user)).
Proof.
  intros Hfind.
  pose proof (find_some _ _ Hfind) as [_ Hid]. apply Nat.eqb_eq in Hid.
  unfold TodoService.updateTaskStatus. rewrite Hfind. split.
  - intros Hmay. pose proof Hmay as [Hty [Hc Hrange]].
    rewrite Hty, Hc, Nat.eqb_refl. simpl.
    rewrite (proj2 (mayTick_decided todo i user Hty Hc) Hmay).
    assert (Hlt : Z.to_nat i < List.length (TodoService.td_tasks todo))
      by lia.
    destruct (nth_error (TodoService.td_tasks todo) (Z.to_nat i))
      as [task|] eqn:Hnth;
      [|apply nth_error_None in Hnth; lia].
    eexists. eexists. exists task.
    split; [reflexivity|].
    unfold TodoService.findTodoById. simpl.
    split; [apply (find_replaced TodoService.td_id _ todoId todo);
            [exact Hfind | exact Hid]|].
    split; [destruct todo; reflexivity|].
    split; [apply updateNth_length|].
    split; [reflexivity|].
    split; [rewrite updateNth_at, Hnth; reflexivity|].
    split; [intros j Hj; apply updateNth_elsewhere; exact Hj|].
    split; [|reflexivity].
    intros other Hother.
    assert (Hsame :
              updateFirst (fun t => TodoService.td_id t =? todoId)
                (fun _ => TodoService.withTasks
                            (TodoService.updateNth (Z.to_nat i)
                               (TodoService.setTaskStatus isCompleted
                                  (clock (TodoService.db s)))
                               (TodoService.td_tasks todo)) todo)
                (TodoService.todos s)
              = updateFirst (fun t => TodoService.td_id t =? todoId)
                  (fun t => if TodoService.td_id t =? todoId
                            then TodoService.withTasks
                                   (TodoService.updateNth (Z.to_nat i)
                                      (TodoService.setTaskStatus isCompleted
                                         (clock (TodoService.db s)))
                                      (TodoService.td_tasks todo)) todo
                            else t)
                  (TodoService.todos s)).
    { clear. induction (TodoService.todos s) as [|z l IH]; simpl;
        [reflexivity|].
      destruct (TodoService.td_id z =? todoId); [reflexivity|].
      rewrite IH. reflexivity. }
    rewrite Hsame.
    apply (find_other_updateFirst TodoService.td_id); [exact Hother|].
    intros a. destruct (TodoService.td_id a =? todoId) eqn:E;
      [|reflexivity].
    apply Nat.eqb_eq in E. simpl. congruence.
  - intros Hno.
    destruct (p_type user) eqn:Hty.
    + destruct (TodoService.td_child todo =? p_id user) eqn:Ec; simpl.
      * apply Nat.eqb_eq in Ec.
        destruct ((i <? 0)%Z
                  || (Z.of_nat (List.length (TodoService.td_tasks todo))
                      <=? i)%Z) eqn:Er.
        -- eexists. split; [reflexivity|]. split; [auto|].
           split; auto.
        -- exfalso. apply Hno.
           apply (mayTick_decided todo i user Hty Ec). exact Er.
      * apply Nat.eqb_neq in Ec. eexists. split; [reflexivity|].
        split; [auto|]. split; [discriminate|]. intros [_ H].
        contradiction.
    + eexists. split; [reflexivity|]. split; [auto|].
      split; [discriminate|]. intros [H _]. discriminate.
Qed.

Lemma updateTaskStatus_spec_witness :
  exists saved s' task,
    TodoService.updateTaskStatus 80 1 false Fixtures.child2
      TodoFixtures.todoStore = (Ok saved, s')
    /\ TodoService.findTodoById 80 s' = Some saved
    /\ TodoService.withTasks (TodoService.td_tasks TodoFixtures.todo80) saved
       = TodoFixtures.todo80
    /\ List.length (TodoService.td_tasks saved) = 2
    /\ nth_error (TodoService.td_tasks TodoFixtures.todo80) 1 = Some task
    /\ nth_error (TodoService.td_tasks saved) 1
       = Some {| TodoService.tk_title := TodoService.tk_title task;
                 TodoService.tk_description :=
                   TodoService.tk_description task;
                 TodoService.tk_isCompleted := false;
                 TodoService.tk_completedAt := None |}
    /\ (forall j, j <> 1 ->
          nth_error (TodoService.td_tasks saved) j
          = nth_error (TodoService.td_tasks TodoFixtures.todo80) j)
    /\ (forall other, other <> 80 ->
          TodoService.findTodoById other s'
          = TodoService.findTodoById other TodoFixtures.todoStore)
    /\ TodoService.db s' = Fixtures.store0.
Proof.
  apply (proj1 (updateTaskStatus_spec TodoFixtures.todoStore 80 1%Z false
                  Fixtures.child2 TodoFixtures.todo80 eq_refl)).
  repeat split; simpl; lia.
Defined.

Lemma updateTaskStatus_ok_inv (s s' : TodoService.TodoStore)
    (todoId : ObjectId) (i : Z) (b : bool) (user : Principal)
    (saved : TodoService.TodoDocument) :
  TodoService.updateTaskStatus todoId i b user s = (Ok saved, s') ->
  exists todo,
    TodoService.findTodoById todoId s = Some todo
    /\ mayTick todo i user
    /\ saved = TodoService.withTasks
                 (TodoService.updateNth (Z.to_nat i)
                    (TodoService.setTaskStatus b (clock (TodoService.db s)))
                    (TodoService.td_tasks todo)) todo
    /\ s' = TodoService.with_todos
              (updateFirst (fun t => TodoService.td_id t =? todoId)
                 (fun _ => saved) (TodoService.todos s)) s.
Proof.
  unfold TodoService.updateTaskStatus.
  destruct (p_type user) eqn:Hty; [|discriminate].
  destruct (TodoService.findTodoById todoId s) as [todo|]; [|discriminate].
  destruct (TodoService.td_child todo =? p_id user) eqn:Ec; simpl;
    [|discriminate].
  apply Nat.eqb_eq in Ec.
  destruct ((i <? 0)%Z
            || (Z.of_nat (List.length (TodoService.td_tasks todo)) <=? i)%Z)
    eqn:Er; [discriminate|].
  intros H. inversion H; subst. exists todo.
  split; [reflexivity|].
  split; [apply (mayTick_decided todo i user Hty Ec); exact Er|].
  split; reflexivity.
Qed.

Lemma updateFirst_replaced_twice {A : Type} (p : A -> bool) (x y : A)
    (l : list A) :
  p x = true ->
  updateFirst p (fun _ => y) (updateFirst p (fun _ => x) l)
  = updateFirst p (fun _ => y) l.
Proof.
  intros Hx. induction l as [|z l IH]; simpl; [reflexivity|].
  destruct (p z) eqn:E; simpl.
  - rewrite Hx. reflexivity.
  - rewrite E, IH. reflexivity.
Qed.

(** X28.  The last tick wins.  After a successful [updateTaskStatus], a
    later update of the same task by the same child answers and leaves
    the store exactly as if the first update had not taken place: a
    reopened task has no completion time, a task completed again carries
    the time of the last completion. *)
Theorem updateTaskStatus_last_write_wins (s s1 : TodoService.TodoStore)
    (todoId : ObjectId) (i : Z) (b1 b2 : bool) (user : Principal)
    (saved1 : TodoService.TodoDocument) (ms : N) :
  TodoService.updateTaskStatus todoId i b1 user s = (Ok saved1, s1) ->
  TodoService.updateTaskStatus todoId i b2 user (laterTodoStore ms s1)
  = TodoService.updateTaskStatus todoId i b2 user (laterTodoStore ms s).
Proof.
  intros Hrun.
  destruct (updateTaskStatus_ok_inv _ _ _ _ _ _ _ Hrun)
    as [todo [Hfind [Hmay [Hsaved Hs1]]]].
  pose proof Hmay as [Hty [Hc Hrange]].
  pose proof (find_some _ _ Hfind) as [_ Hid]. apply Nat.eqb_eq in Hid.
  assert (Hid1 : TodoService.td_id saved1 = todoId)
    by (rewrite Hsaved; exact Hid).
  assert (Hfind1 : TodoService.findTodoById todoId (laterTodoStore ms s1)
                   = Some saved1).
  { rewrite Hs1. unfold TodoService.findTodoById, laterTodoStore. simpl.
    apply (find_replaced TodoService.td_id _ todoId todo);
      [exact Hfind | exact Hid1]. }
  assert (Hfind0 : TodoService.findTodoById todoId (laterTodoStore ms s)
                   = Some todo) by exact Hfind.
  unfold TodoService.updateTaskStatus.
  rewrite Hfind1, Hfind0, Hty.
  assert (Hc1 : TodoService.td_child saved1 = p_id user)
    by (rewrite Hsaved; exact Hc).
  rewrite Hc, Hc1, Nat.eqb_refl. simpl negb. cbv iota.
  assert (Hlen : List.length (TodoService.td_tasks saved1)
                 = List.length (TodoService.td_tasks todo))
    by (rewrite Hsaved; simpl; apply updateNth_length).
  rewrite Hlen.
  rewrite (proj2 (mayTick_decided todo i user Hty Hc) Hmay).
  assert (Htasks :
            TodoService.updateNth (Z.to_nat i)
              (TodoService.setTaskStatus b2
                 (clock (TodoService.db (laterTodoStore ms s1))))
              (TodoService.td_tasks saved1)
            = TodoService.updateNth (Z.to_nat i)
                (TodoService.setTaskStatus b2
                   (clock (TodoService.db (laterTodoStore ms s))))
                (TodoService.td_tasks todo)).
  { rewrite Hs1, Hsaved. simpl. rewrite updateNth_twice.
    apply updateNth_ext. intros x. reflexivity. }
  rewrite Htasks.
  assert (Hdoc : forall tasks,
             TodoService.withTasks tasks saved1
             = TodoService.withTasks tasks todo)
    by (intros tasks; rewrite Hsaved; reflexivity).
  rewrite Hdoc. f_equal.
  rewrite Hs1. unfold laterTodoStore, TodoService.with_todos. simpl.
  f_equal.
  apply updateFirst_replaced_twice. rewrite Hid1. apply Nat.eqb_refl.
Qed.

Lemma updateTaskStatus_last_write_wins_witness :
  let s1 := snd (TodoService.updateTaskStatus 80 0 true Fixtures.child2
                   TodoFixtures.todoStore) in
  TodoService.updateTaskStatus 80 0 false Fixtures.child2
    (laterTodoStore 60000%N s1)
  = TodoService.updateTaskStatus 80 0 false Fixtures.child2
      (laterTodoStore 60000%N TodoFixtures.todoStore).
Proof.
  intros s1.
  apply (updateTaskStatus_last_write_wins TodoFixtures.todoStore s1 80 0%Z
           true false Fixtures.child2
           (match fst (TodoService.updateTaskStatus 80 0 true Fixtures.child2
                         TodoFixtures.todoStore) with
            | Ok t => t
            | Throw _ => TodoFixtures.todo80
            end)).
  reflexivity.
Defined.

Lemma checkModifyPermission_ok_iff (s : TodoService.TodoStore)
    (todo : TodoService.TodoDocument) (user : Principal) :
  TodoService.checkModifyPermission todo user s = Ok tt
  <-> mayModifyTodo s todo user.
Proof.
  unfold TodoService.checkModifyPermission, mayModifyTodo.
  destruct (isAdminRole user) eqn:Hadmin; [tauto|].
  destruct (find (fun c => c_id c =? TodoService.td_child todo)
              (children (TodoService.db s))) as [child|] eqn:Hchild.
  2:{ split; [discriminate|].
      intros [H|[c [l [H _]]]]; discriminate. }
  destruct (c_linkedParents child) as [linked|] eqn:Hl.
  2:{ split; [discriminate|].
      intros [H|[c [l [Hc [Hl' _]]]]]; [discriminate|].
      inversion Hc; subst c. congruence. }
  destruct (TodoService.td_createdBy todo =? p_id user) eqn:Ecr; simpl.
  - apply Nat.eqb_eq in Ecr. split; [|reflexivity]. intros _. right.
    exists child, linked. auto.
  - apply Nat.eqb_neq in Ecr.
    destruct (c_parent child =? p_id user) eqn:Ep; simpl.
    + apply Nat.eqb_eq in Ep. split; [|reflexivity]. intros _. right.
      exists child, linked. auto.
    + apply Nat.eqb_neq in Ep.
      destruct (existsb (fun p => p =? p_id user) linked) eqn:El; simpl.
      * split; [|reflexivity]. intros _. right. exists child, linked.
        split; [reflexivity|]. split; [exact Hl|]. right. right.
        apply existsb_exists in El. destruct El as [x [Hin Hx]].
        apply Nat.eqb_eq in Hx. subst x. exact Hin.
      * split; [discriminate|].
        intros [H|[c [l [Hc [Hl' [H|[H|H]]]]]]]; try discriminate;
          inversion Hc; subst c; try contradiction.
        assert (l = linked) by congruence. subst l.
        assert (Ht : existsb (fun p => p =? p_id user) linked = true).
        { apply existsb_exists. exists (p_id user).
          split; [exact H | apply Nat.eqb_refl]. }
        congruence.
Qed.

(** X29.  Removing a todo list.  With distinct list ids, [remove] on a
    stored list succeeds exactly for a caller of type user who is an
    administrator, or, when the child of the list is on record with its
    linked parents, the creator of the list, the child's parent or a
    linked parent.  The list is then gone, one list fewer is stored and
    every other list is as before.  Every other caller, a child among
    them, gets an exception and nothing is removed. *)
Theorem remove_spec (s : TodoService.TodoStore) (id : ObjectId)
    (user : Principal) (todo : TodoService.TodoDocument) :
  todoIdsUnique s ->
  TodoService.findTodoById id s = Some todo ->
  (p_type user = TypeUser /\ mayModifyTodo s todo user ->
   exists s',
     TodoService.remove id user s = (Ok tt, s')
     /\ TodoService.findTodoById id s' = None
     /\ (forall other, other <> id ->
           TodoService.findTodoById other s'
           = TodoService.findTodoById other s)
     /\ S (List.length (TodoService.todos s'))
        = List.length (TodoService.todos s)
     /\ TodoService.db s' = TodoService.db s)
  /\ (~ (p_type user = TypeUser /\ mayModifyTodo s todo user) ->
      exists e, TodoService.remove id user s = (Throw e, s)).
Proof.
  intros Huniq Hfind. unfold TodoService.remove. rewrite Hfind. split.
  - intros [Hty Hmay]. rewrite Hty.
    rewrite (proj2 (checkModifyPermission_ok_iff s todo user) Hmay).
    eexists. split; [reflexivity|].
    unfold TodoService.findTodoById. simpl.
    split; [apply (find_removed TodoService.td_id); exact Huniq|].
    split; [intros other Ho;
            apply (find_other_removed TodoService.td_id); exact Ho|].
    split; [|reflexivity].
    apply (length_removed TodoService.td_id _ id todo). exact Hfind.
  - intros Hno. destruct (p_type user); [eexists; reflexivity|].
    destruct (TodoService.checkModifyPermission todo user s) as [[]|e]
      eqn:Hperm; [|eexists; reflexivity].
    exfalso. apply Hno. split; [reflexivity|].
    apply checkModifyPermission_ok_iff. exact Hperm.
Qed.

Lemma remove_spec_witness :
  exists s',
    TodoService.remove 80 Fixtures.linked4 TodoFixtures.todoStore
    = (Ok tt, s')
    /\ TodoService.findTodoById 80 s' = None
    /\ (forall other, other <> 80 ->
          TodoService.findTodoById other s'
          = TodoService.findTodoById other TodoFixtures.todoStore)
    /\ S (List.length (TodoService.todos s')) = 2
    /\ TodoService.db s' = Fixtures.store0.
Proof.
  apply (proj1 (remove_spec TodoFixtures.todoStore 80 Fixtures.linked4
                  TodoFixtures.todo80
                  ltac:(repeat constructor; simpl; intuition lia)
                  eq_refl)).
  split; [reflexivity|]. right.
  exists Fixtures.childDoc2, [4].
  split; [reflexivity|]. split; [reflexivity|]. right. right. simpl. auto.
Defined.

Lemma listed_child_found (s : Store) (c : ChildDocument) :
  childIdsUnique s -> In c (children s) ->
  find (fun x => c_id x =? c_id c) (children s) = Some c.
Proof. intros Hu Hin. apply (find_key_unique c_id); assumption. Qed.

(** X30.  What a parent is shown, the parent may remove.  With distinct
    list ids and child ids, and every child record carrying its list of
    linked parents, every list that [findAll] returns to a caller of type
    user can be removed by that caller, and is no longer returned
    afterwards. *)
Theorem listed_todo_is_removable (s : TodoService.TodoStore)
    (user : Principal) (todo : TodoService.TodoDocument) :
  todoIdsUnique s -> childIdsUnique (TodoService.db s) ->
  (forall c, In c (children (TodoService.db s)) ->
     c_linkedParents c <> None) ->
  p_type user = TypeUser ->
  In todo (TodoService.findAll user s) ->
  exists s',
    TodoService.remove (TodoService.td_id todo) user s = (Ok tt, s')
    /\ ~ In todo (TodoService.findAll user s').
Proof.
  intros Huniq Hchildren Hlinked Hty Hin.
  assert (Hstored : In todo (TodoService.todos s)).
  { unfold TodoService.findAll in Hin. rewrite Hty in Hin.
    destruct (isAdminRole user); [exact Hin|].
    apply filter_In in Hin. tauto. }
  assert (Hfind : TodoService.findTodoById (TodoService.td_id todo) s
                  = Some todo)
    by (apply (find_key_unique TodoService.td_id); assumption).
  assert (Hmay : mayModifyTodo s todo user).
  { unfold mayModifyTodo.
    destruct (isAdminRole user) eqn:Hadmin; [left; reflexivity|]. right.
    unfold TodoService.findAll in Hin. rewrite Hty, Hadmin in Hin.
    apply filter_In in Hin. destruct Hin as [_ Hex].
    apply existsb_exists in Hex. destruct Hex as [cid [Hcid Heq]].
    apply Nat.eqb_eq in Heq. subst cid.
    apply in_map_iff in Hcid. destruct Hcid as [c [Hc Hcin]].
    apply filter_In in Hcin. destruct Hcin as [Hcin Hrel].
    pose proof (listed_child_found _ c Hchildren Hcin) as Hfc.
    rewrite Hc in Hfc.
    destruct (c_linkedParents c) as [linked|] eqn:Hl;
      [|exfalso; apply (Hlinked c Hcin); exact Hl].
    exists c, linked. split; [exact Hfc|]. split; [exact Hl|].
    right. apply orb_true_iff in Hrel. destruct Hrel as [Hp|Hs].
    - left. apply Nat.eqb_eq. exact Hp.
    - right. simpl in Hs. apply existsb_exists in Hs.
      destruct Hs as [x [Hx Hxe]]. apply Nat.eqb_eq in Hxe. subst x.
      exact Hx. }
  unfold TodoService.remove. rewrite Hty, Hfind.
  rewrite (proj2 (checkModifyPermission_ok_iff s todo user) Hmay).
  eexists. split; [reflexivity|].
  intros Hagain.
  assert (Hin' : In todo
                   (removeFirst
                      (fun t => TodoService.td_id t =? TodoService.td_id todo)
                      (TodoService.todos s))).
  { unfold TodoService.findAll in Hagain. rewrite Hty in Hagain. simpl in *.
    destruct (isAdminRole user); [exact Hagain|].
    apply filter_In in Hagain. tauto. }
  pose proof (find_removed TodoService.td_id (TodoService.todos s)
                (TodoService.td_id todo) Huniq) as Hgone.
  pose proof (find_none _ _ Hgone todo Hin') as Hn. simpl in Hn.
  rewrite Nat.eqb_refl in Hn. discriminate.
Qed.

Lemma listed_todo_is_removable_witness :
  In TodoFixtures.todo80
    (TodoService.findAll Fixtures.parent1 TodoFixtures.todoStore)
  /\ exists s',
       TodoService.remove 80 Fixtures.parent1 TodoFixtures.todoStore
       = (Ok tt, s')
       /\ ~ In TodoFixtures.todo80
              (TodoService.findAll Fixtures.parent1 s').
Proof.
  split; [left; reflexivity|].
  apply (listed_todo_is_removable TodoFixtures.todoStore Fixtures.parent1
           TodoFixtures.todo80).
  - repeat constructor; simpl; intuition lia.
  - repeat constructor; simpl; intuition.
  - intros c [Hc|[]]. subst c. discriminate.
  - reflexivity.
  - left. reflexivity.
Defined.

(* ------------------------------------------------------------------ *)
(** ** The escalation of an alert that is not answered                  *)
(* ------------------------------------------------------------------ *)

Lemma find_app_other {A : Type} (p : A -> bool) (l : list A) (a : A) :
  p a = false -> find p (l ++ [a]) = find p l.
Proof.
  intros Ha. induction l as [|x l IH]; simpl.
  - rewrite Ha. reflexivity.
  - destruct (p x); [reflexivity | exact IH].
Qed.

Lemma no_check_of_fresh_id (l : list Timer) (n : nat) :
  Forall (fun t => t_alertId t < n) l ->
  filter (fun t => t_alertId t =? n) l = [].
Proof.
  induction 1 as [|t l Ht _ IH]; simpl; [reflexivity|].
  assert (E : (t_alertId t =? n) = false) by (apply Nat.eqb_neq; lia).
  rewrite E. exact IH.
Qed.

Ltac touches_only :=
  unfold touchesOnly; simpl;
  split; [reflexivity|];
  split; [reflexivity|];
  split;
    [ intros ? ?;
      rewrite ?(find_other_updateFirst a_id)
        by first [assumption | intros; reflexivity];
      reflexivity |];
  split;
    [ first [ left; reflexivity
            | right; eexists; eexists;
              split; [reflexivity|]; split; [reflexivity | eassumption] ]
    | first [ exists []; symmetry; apply app_nil_r
            | eexists; reflexivity ] ].

Lemma touchesOnly_refl (alertId : ObjectId) (s : Store) :
  touchesOnly alertId s s.
Proof. touches_only. Qed.

Lemma callEmergency_touchesOnly (s : Store) (alertId : ObjectId) :
  touchesOnly alertId s (snd (SosAlertService.callEmergency alertId s)).
Proof.
  unfold SosAlertService.callEmergency, SosAlertService.findAlertById,
    SosAlertService.findChildById, SosAlertService.updateAlert.
  run_service.
  destruct (find (fun a => a_id a =? alertId) (alerts s)) as [alert|]
    eqn:Hfind; simpl; [|touches_only].
  destruct (a_status alert); simpl; try touches_only;
    destruct (find (fun c => c_id c =? a_child alert) (children s)); simpl;
    touches_only.
Qed.

Lemma checkCallStatus_touchesOnly (s : Store) (alertId roomId : ObjectId) :
  touchesOnly alertId s
    (snd (SosAlertService.checkCallStatus alertId roomId s)).
Proof.
  destruct (find (fun a => a_id a =? alertId) (alerts s)) as [alert|]
    eqn:Hfind;
    [|rewrite checkCallStatus_missing by exact Hfind;
      apply touchesOnly_refl].
  destruct (Nat.lt_ge_cases (a_parentCallAttempts alert)
              SosAlertService.MAX_PARENT_CALL_ATTEMPTS) as [Hlt|Hge].
  - apply Nat.ltb_lt in Hlt.
    unfold SosAlertService.checkCallStatus, SosAlertService.findAlertById,
      SosAlertService.findChildById, SosAlertService.findUserById,
      SosAlertService.updateAlert.
    run_service. rewrite Hfind.
    destruct (a_status alert); simpl; try touches_only; rewrite Hlt; simpl;
      destruct (find (fun c => c_id c =? a_child alert) (children s)); simpl;
      touches_only.
  - destruct (a_status alert) eqn:Est;
      try (rewrite (checkCallStatus_skips s alertId roomId alert Hfind)
             by (rewrite Est; auto);
           apply touchesOnly_refl);
      rewrite (checkCallStatus_escalates s alertId roomId alert)
        by (congruence || assumption);
      apply callEmergency_touchesOnly.
Qed.

Lemma markParentAnswered_touchesOnly (s : Store) (alertId : ObjectId)
    (user : Principal) :
  touchesOnly alertId s
    (snd (SosAlertService.markParentAnswered alertId user s)).
Proof.
  unfold SosAlertService.markParentAnswered, SosAlertService.findAlertById,
    SosAlertService.findUserById, SosAlertService.findChildById,
    SosAlertService.updateAlert.
  run_service.
  destruct (find (fun a => a_id a =? alertId) (alerts s)) as [alert|]; simpl;
    [|touches_only].
  destruct (find (fun u => u_id u =? a_parent alert) (users s)) as [parent|];
    simpl; [|touches_only].
  destruct (getUserId user =? u_id parent); simpl; [|touches_only].
  destruct (find (fun c => c_id c =? a_child alert) (children s)); simpl;
    touches_only.
Qed.

Lemma resolveAlert_touchesOnly (s : Store) (alertId : ObjectId)
    (user : Principal) :
  touchesOnly alertId s (snd (SosAlertService.resolveAlert alertId user s)).
Proof.
  destruct (find (fun a => a_id a =? alertId) (alerts s)) as [alert|]
    eqn:Hfind.
  - destruct (resolveAlert_cases s alertId user alert Hfind)
      as [[_ Hok]|[_ [e [He _]]]].
    + rewrite Hok. touches_only.
    + rewrite He. apply touchesOnly_refl.
  - rewrite resolveAlert_missing by exact Hfind. apply touchesOnly_refl.
Qed.

Lemma pendingChecks_after (id alertId : ObjectId) (s s' : Store) :
  alertId <> id ->
  (timers s' = timers s
   \/ exists t alert,
        timers s' = (timers s ++ [t])%list /\ t_alertId t = alertId
        /\ find (fun a => a_id a =? alertId) (alerts s) = Some alert) ->
  pendingChecks id s' = pendingChecks id s.
Proof.
  unfold pendingChecks. intros Hne [H|[t [alert [H [Ht _]]]]]; rewrite H.
  - reflexivity.
  - rewrite filter_app, length_app. simpl.
    assert (E : (t_alertId t =? id) = false)
      by (apply Nat.eqb_neq; congruence).
    rewrite E. simpl. lia.
Qed.

(** What a step that is not about alert [id] leaves as it was. *)
Lemma otherStep_frame (id : ObjectId) (s s' : Store) :
  otherStep id s s' -> id < nextId s ->
  children s' = children s
  /\ id < nextId s'
  /\ find (fun a => a_id a =? id) (alerts s')
     = find (fun a => a_id a =? id) (alerts s)
  /\ pendingChecks id s' = pendingChecks id s
  /\ (forall e, In e (emitted s) -> In e (emitted s')).
Proof.
  intros Hstep Hid. destruct Hstep.
  - destruct (SosAlertService.triggerSos childId user s) as [[tr|e] s']
      eqn:Hrun; simpl.
    + destruct (triggerSos_ok_canTrigger _ _ _ _ _ Hrun)
        as [child [parent [room Hcan]]].
      destruct (find (fun a => (a_child a =? childId)
                               && SosAlertService.isActiveStatus (a_status a))
                  (alerts s)) as [existing|] eqn:Hact.
      * rewrite (triggerSos_existing_run s childId user child parent room
                   existing Hcan Hact) in Hrun.
        inversion Hrun; subst. auto.
      * rewrite (triggerSos_new_run s childId user child parent room Hcan Hact)
          in Hrun.
        inversion Hrun; subst. simpl.
        split; [reflexivity|]. split; [lia|].
        split.
        { rewrite (find_other_updateFirst a_id)
            by first [lia | intros; reflexivity].
          apply find_app_other. simpl. apply Nat.eqb_neq. lia. }
        split.
        { unfold pendingChecks. simpl. rewrite filter_app, length_app. simpl.
          assert (E : (nextId s =? id) = false) by (apply Nat.eqb_neq; lia).
          rewrite E. simpl. lia. }
        intros e He. apply in_or_app. left. apply in_or_app. left. exact He.
    + rewrite (triggerSos_throw_inv s s' childId user e Hrun). auto.
  - unfold SosAlertService.fireTimer in H1. rewrite H in H1.
    destruct (N.leb (t_due t) (clock s)); [|discriminate].
    inversion H1 as [Hrun].
    pose proof (checkCallStatus_touchesOnly (with_timers rest s)
                  (t_alertId t) (t_roomId t)) as Htouch.
    rewrite Hrun in Htouch. simpl in Htouch.
    destruct Htouch as [Hc [Hn [Hfind [Htimers [more Hmore]]]]].
    split; [exact Hc|]. split; [rewrite Hn; exact Hid|].
    split; [apply Hfind; congruence|].
    split.
    + rewrite (pendingChecks_after id (t_alertId t) (with_timers rest s) s' H0
                 Htimers).
      unfold pendingChecks. rewrite H. simpl.
      assert (E : (t_alertId t =? id) = false)
        by (apply Nat.eqb_neq; exact H0).
      rewrite E. reflexivity.
    + intros e He. rewrite Hmore. apply in_or_app. left. exact He.
  - destruct (markParentAnswered_touchesOnly s alertId user)
      as [Hc [Hn [Hfind [Htimers [more Hmore]]]]].
    split; [exact Hc|]. split; [rewrite Hn; exact Hid|].
    split; [apply Hfind; congruence|].
    split; [apply (pendingChecks_after id alertId); assumption|].
    intros e He. rewrite Hmore. apply in_or_app. left. exact He.
  - destruct (resolveAlert_touchesOnly s alertId user)
      as [Hc [Hn [Hfind [Htimers [more Hmore]]]]].
    split; [exact Hc|]. split; [rewrite Hn; exact Hid|].
    split; [apply Hfind; congruence|].
    split; [apply (pendingChecks_after id alertId); assumption|].
    intros e He. rewrite Hmore. apply in_or_app. left. exact He.
  - simpl. auto.
Qed.

Lemma escalationAfter_frame (n : nat) (id childId : ObjectId)
    (first : CallHistoryEntry) (s s' : Store) :
  find (fun a => a_id a =? id) (alerts s')
  = find (fun a => a_id a =? id) (alerts s) ->
  pendingChecks id s' = pendingChecks id s ->
  (forall e, In e (emitted s) -> In e (emitted s')) ->
  escalationAfter n id childId first s ->
  escalationAfter n id childId first s'.
Proof.
  intros Hfind Hpend Hemit [alert [Ha [Hc Hstage]]].
  exists alert. rewrite Hfind, Hpend. split; [exact Ha|]. split; [exact Hc|].
  destruct n as [|[|[|n]]]; try exact Hstage.
  destruct Hstage as [H1 [H2 [H3 [H4 [H5 [t Ht]]]]]].
  repeat split; auto. exists t. apply Hemit. exact Ht.
Qed.

(** A re-check of the alert itself moves the escalation one stage on. *)
Lemma own_check_advances (n : nat) (id childId : ObjectId)
    (first : CallHistoryEntry) (child : ChildDocument) (s s' : Store)
    (r : Result unit) (t : Timer) (rest : list Timer) :
  escalationAfter n id childId first s ->
  find (fun c => c_id c =? childId) (children s) = Some child ->
  timers s = t :: rest -> t_alertId t = id ->
  SosAlertService.fireTimer s = Some (r, s') ->
  escalationAfter (S n) id childId first s'
  /\ children s' = children s /\ nextId s' = nextId s.
Proof.
  intros [alert [Hfind [Hc Hstage]]] Hchild Htimers Hid Hfire.
  pose proof (find_some_holds _ _ _ Hchild) as [Hcid _].
  apply Nat.eqb_eq in Hcid.
  unfold SosAlertService.fireTimer in Hfire. rewrite Htimers in Hfire.
  destruct (N.leb (t_due t) (clock s)); [|discriminate].
  inversion Hfire as [Hrun]. clear Hfire. rewrite Hid in Hrun.
  assert (Hcount : pendingChecks id s
                   = S (List.length
                          (filter (fun x => t_alertId x =? id) rest))).
  { unfold pendingChecks. rewrite Htimers. simpl.
    rewrite Hid, Nat.eqb_refl. reflexivity. }
  assert (Hfind0 : find (fun a => a_id a =? id)
                     (alerts (with_timers rest s)) = Some alert)
    by exact Hfind.
  assert (Hchild0 : find (fun c => c_id c =? a_child alert)
                      (children (with_timers rest s)) = Some child)
    by (rewrite Hc; exact Hchild).
  destruct n as [|[|[|n]]]; simpl in Hstage.
  - destruct Hstage as [Hst [Hatt [Hem [Hhist Hpend]]]].
    rewrite (checkCallStatus_retry_run (with_timers rest s) id (t_roomId t)
               alert child Hfind0) in Hrun;
      [ | rewrite Hst; discriminate | rewrite Hst; discriminate
        | rewrite Hst; discriminate
        | rewrite Hatt; unfold SosAlertService.MAX_PARENT_CALL_ATTEMPTS; lia
        | exact Hchild0 ].
    inversion Hrun; subst r s'. clear Hrun.
    split; [|split; reflexivity].
    eexists. split.
    { simpl. rewrite find_updateFirst by reflexivity. rewrite Hfind.
      reflexivity. }
    simpl. split; [exact Hc|]. split; [exact Hst|].
    split; [rewrite Hatt; reflexivity|]. split; [exact Hem|].
    split; [exists (clock s); rewrite Hhist, Hatt; reflexivity|].
    unfold pendingChecks. simpl. rewrite filter_app, length_app. simpl.
    rewrite Nat.eqb_refl. simpl. lia.
  - destruct Hstage as [Hst [Hatt [Hem [[t1 Hhist] Hpend]]]].
    rewrite (checkCallStatus_escalates (with_timers rest s) id (t_roomId t)
               alert Hfind0) in Hrun;
      [ | rewrite Hst; discriminate | rewrite Hst; discriminate
        | rewrite Hst; discriminate
        | rewrite Hatt; unfold SosAlertService.MAX_PARENT_CALL_ATTEMPTS; lia ].
    rewrite (callEmergency_run (with_timers rest s) id alert child Hfind0)
      in Hrun;
      [ | rewrite Hst; discriminate | rewrite Hst; discriminate
        | exact Hchild0 ].
    inversion Hrun; subst r s'. clear Hrun.
    split; [|split; reflexivity].
    eexists. split.
    { simpl. rewrite find_updateFirst by reflexivity. rewrite Hfind.
      reflexivity. }
    simpl. split; [exact Hc|]. split; [reflexivity|].
    split; [exact Hatt|]. split; [rewrite Hem; reflexivity|].
    split.
    { eexists. eexists. split; [rewrite Hhist; reflexivity|].
      split; reflexivity. }
    split; [unfold pendingChecks; simpl; lia|].
    exists (clock s). apply in_or_app. right. left.
    rewrite Hcid. reflexivity.
  - destruct Hstage as [_ [_ [_ [_ [Hpend _]]]]]. lia.
  - contradiction.
Qed.

(** The stage of the escalation is the number of re-checks that fired,
    whatever else ran in between. *)
Lemma unansweredRun_stage (n : nat) (id childId : ObjectId)
    (first : CallHistoryEntry) (child : ChildDocument) (s1 s' : Store) :
  unansweredRun id n s1 s' ->
  escalationAfter 0 id childId first s1 ->
  id < nextId s1 ->
  find (fun c => c_id c =? childId) (children s1) = Some child ->
  escalationAfter n id childId first s'
  /\ id < nextId s' /\ children s' = children s1.
Proof.
  intros Hrun Hstart Hid Hchild.
  induction Hrun as [s|n s sa sb Hrun IH Hother|n s sa sb r t rest Hrun IH
                                                   Htimers Ht Hfire].
  - auto.
  - destruct (IH Hstart Hid Hchild) as [Hstage [Hlt Hc]].
    destruct (otherStep_frame id sa sb Hother Hlt)
      as [Hc' [Hlt' [Hfind [Hpend Hemit]]]].
    split; [|split; [exact Hlt' | congruence]].
    apply (escalationAfter_frame n id childId first sa sb); assumption.
  - destruct (IH Hstart Hid Hchild) as [Hstage [Hlt Hc]].
    assert (Hchild' : find (fun c => c_id c =? childId) (children sa)
                      = Some child) by (rewrite Hc; exact Hchild).
    destruct (own_check_advances n id childId first child sa sb r t rest
                Hstage Hchild' Htimers Ht Hfire) as [Hnext [Hc' Hn']].
    split; [exact Hnext|]. split; [lia | congruence].
Qed.

(** C3.  A child triggers an alert (none is active for it) and the
    parent never answers it, nor is it resolved.  Whatever else the
    engine does in the meantime (other triggers, timers of other alerts
    that are still pending, answers to and resolutions of other alerts,
    time passing), the alert goes through the escalation path: after the
    trigger it is CALLING_PARENT with one parent call attempt and one
    re-check pending; once that re-check has fired it has two parent call
    attempts and again one re-check pending; once that one has fired the
    alert has status EMERGENCY_CALLED, two parent call attempts,
    emergencyCallAttempts 1, a call history whose last entry has callType
    EMERGENCY and the emergency number "196", no re-check pending, and
    the child's device was told to open the dialer for that number.
    There is no third re-check. *)
Theorem escalation_ends_in_emergency_called (s : Store) (childId : ObjectId)
    (user : Principal) (child : ChildDocument) (parent : UserDocument)
    (room : RoomDocument) :
  canTrigger s childId user child parent room ->
  find (fun a => (a_child a =? childId)
                 && SosAlertService.isActiveStatus (a_status a)) (alerts s)
  = None ->
  alertIdsFresh s ->
  timerIdsFresh s ->
  exists r s1,
    SosAlertService.triggerSos childId user s = (Ok r, s1)
    /\ a_id (SosAlertService.tr_alert r) = nextId s
    /\ forall n s',
         unansweredRun (nextId s) n s1 s' ->
         escalationAfter n (nextId s) childId (initialCall s parent) s'.
Proof.
  intros Hcan Hnone Hfresh Htimers.
  pose proof (triggerSos_new_run s childId user child parent room Hcan Hnone)
    as Htrig.
  destruct Hcan as [Htype [Hid [Hchild [Hparent Hroom]]]].
  pose proof (fresh_id_not_found s Hfresh) as Hmiss.
  rewrite updateFirst_app_miss in Htrig by exact Hmiss.
  simpl in Htrig. rewrite Nat.eqb_refl in Htrig.
  eexists. eexists. split; [exact Htrig|]. split; [reflexivity|].
  intros n s' Hrun.
  refine (proj1 (unansweredRun_stage n (nextId s) childId
                   (initialCall s parent) child _ s' Hrun _ _ _)).
  - eexists. split.
    { simpl. rewrite find_app_miss by exact Hmiss. simpl.
      rewrite Nat.eqb_refl. reflexivity. }
    simpl. repeat split.
    unfold pendingChecks. simpl. rewrite filter_app, length_app.
    rewrite (no_check_of_fresh_id _ _ Htimers). simpl.
    rewrite Nat.eqb_refl. reflexivity.
  - simpl. lia.
  - exact Hchild.
Qed.

(** Pending timers only ever refer to ids that were handed out: this is
    kept by every step of the engine. *)
Lemma timerIdsFresh_after (alertId : ObjectId) (s s' : Store) :
  touchesOnly alertId s s' -> alertIdsFresh s -> timerIdsFresh s ->
  timerIdsFresh s'.
Proof.
  intros [_ [Hn [_ [Htimers _]]]] Hfresh Ht. unfold timerIdsFresh in *.
  rewrite Hn. destruct Htimers as [H|[t [alert [H [Hid Hfind]]]]]; rewrite H.
  - exact Ht.
  - apply Forall_app. split; [exact Ht|].
    constructor; [|constructor].
    apply find_some_holds in Hfind. destruct Hfind as [Heq Hin].
    apply Nat.eqb_eq in Heq.
    unfold alertIdsFresh in Hfresh. rewrite Forall_forall in Hfresh.
    specialize (Hfresh alert Hin). lia.
Qed.

Lemma sosStep_keeps_timerIdsFresh (s s' : Store) :
  sosStep s s' -> alertIdsFresh s -> timerIdsFresh s -> timerIdsFresh s'.
Proof.
  intros Hstep Hfresh Ht. destruct Hstep.
  - destruct (SosAlertService.triggerSos childId user s) as [[tr|e] s']
      eqn:Hrun; simpl.
    + destruct (triggerSos_ok_canTrigger _ _ _ _ _ Hrun)
        as [child [parent [room Hcan]]].
      destruct (find (fun a => (a_child a =? childId)
                               && SosAlertService.isActiveStatus (a_status a))
                  (alerts s)) as [existing|] eqn:Hact.
      * rewrite (triggerSos_existing_run s childId user child parent room
                   existing Hcan Hact) in Hrun.
        inversion Hrun; subst. exact Ht.
      * rewrite (triggerSos_new_run s childId user child parent room Hcan Hact)
          in Hrun.
        inversion Hrun; subst. unfold timerIdsFresh in *. simpl.
        apply Forall_app. split.
        -- apply (Forall_impl _ (P := fun t => t_alertId t < nextId s));
             [intros t Hlt; lia | exact Ht].
        -- constructor; [simpl; lia | constructor].
    + rewrite (triggerSos_throw_inv s s' childId user e Hrun). exact Ht.
  - unfold SosAlertService.fireTimer in H.
    destruct (timers s) as [|t rest] eqn:Htimers; [discriminate|].
    destruct (N.leb (t_due t) (clock s)); [|discriminate].
    inversion H as [Hrun].
    pose proof (checkCallStatus_touchesOnly (with_timers rest s)
                  (t_alertId t) (t_roomId t)) as Htouch.
    rewrite Hrun in Htouch. simpl in Htouch.
    apply (timerIdsFresh_after (t_alertId t) (with_timers rest s) s' Htouch).
    + exact Hfresh.
    + unfold timerIdsFresh in *. rewrite Htimers in Ht.
      inversion Ht; assumption.
  - apply (timerIdsFresh_after alertId s); auto.
    apply markParentAnswered_touchesOnly.
  - apply (timerIdsFresh_after alertId s); auto.
    apply resolveAlert_touchesOnly.
  - exact Ht.
Qed.

Lemma timerIdsFresh_along_runs (s0 s : Store) :
  engineInvariant s0 -> timerIdsFresh s0 -> sosReachable s0 s ->
  engineInvariant s /\ timerIdsFresh s.
Proof.
  intros Hinv Ht Hreach.
  induction Hreach as [|s s' _ IH Hstep]; [auto|].
  destruct IH as [Hi Hts]. split.
  - eapply sosStep_keeps; eauto.
  - apply (sosStep_keeps_timerIdsFresh s s' Hstep); [apply Hi | exact Hts].
Qed.

(** The store of the scenario above is one the engine reaches. *)
Example storeAnswered_reached :
  sosReachable Fixtures.store0 MoreFixtures.storeAnswered.
Proof.
  apply (reach_step _
           (snd (SosAlertService.triggerSos 2 Fixtures.child2
                   Fixtures.store0))).
  - apply (reach_step _ Fixtures.store0); [apply reach_start|].
    apply step_trigger.
  - apply (step_answered 100 Fixtures.parent1).
Qed.

(** The alert is triggered while the re-check of an earlier, answered
    alert is still pending.  That stale re-check fires first and does
    nothing; the two re-checks of the new alert then fire in turn. *)
Lemma escalation_ends_in_emergency_called_witness :
  let fire := fun s => match SosAlertService.fireTimer s with
                       | Some (_, s') => s'
                       | None => s
                       end in
  let s0 := MoreFixtures.storeAnswered in
  let s1 := snd (SosAlertService.triggerSos 2 Fixtures.child2 s0) in
  let s2 := fire (SosAlertService.advance 30000%N s1) in
  let s3 := fire s2 in
  let s4 := fire (SosAlertService.advance 30000%N s3) in
  map t_alertId (timers s0) = [100]
  /\ map t_alertId (timers s1) = [100; 101]
  /\ map t_alertId (timers s2) = [101]
  /\ escalationAfter 2 101 2 (initialCall s0 Fixtures.userDoc1) s4.
Proof.
  intros fire s0 s1 s2 s3 s4.
  split; [reflexivity|].
  split; [vm_compute; reflexivity|]. split; [vm_compute; reflexivity|].
  destruct (escalation_ends_in_emergency_called s0 2 Fixtures.child2
              Fixtures.childDoc2 Fixtures.userDoc1 Fixtures.room10)
    as [r [s1' [Htrig [_ Hrun]]]].
  - repeat split.
  - reflexivity.
  - constructor; [simpl; lia | constructor].
  - constructor; [simpl; lia | constructor].
  - assert (Hs1 : s1' = s1) by (unfold s1; rewrite Htrig; reflexivity).
    subst s1'.
    apply (Hrun 2 s4).
    apply (unanswered_check 101 1 s1 (SosAlertService.advance 30000%N s3) s4
             (Ok tt)
             {| t_due := 61000%N; t_alertId := 101; t_roomId := 10 |} []);
      [ | vm_compute; reflexivity | reflexivity
        | vm_compute; reflexivity ].
    apply (unanswered_other 101 1 s1 s3); [|apply other_advance].
    apply (unanswered_check 101 0 s1 s2 s3 (Ok tt)
             {| t_due := 31000%N; t_alertId := 101; t_roomId := 10 |} []);
      [ | vm_compute; reflexivity | reflexivity
        | vm_compute; reflexivity ].
    apply (unanswered_other 101 0 s1 (SosAlertService.advance 30000%N s1));
      [|apply (other_timer 101 _ s2 (Ok tt)
                 {| t_due := 31000%N; t_alertId := 100; t_roomId := 10 |}
                 [{| t_due := 31000%N; t_alertId := 101; t_roomId := 10 |}]);
        [vm_compute; reflexivity | discriminate
        | vm_compute; reflexivity]].
    apply (unanswered_other 101 0 s1 s1); [apply unanswered_start|].
    apply other_advance.
Defined.
